(** * Appointments endpoint: a shallow embedding of
      [netlify/functions/appointments.js] and the properties of its
      CRUD contract.

    The embedding follows the source function by function:
    [validateAppointment], [transformToBackend], [transformToFrontend],
    [connectDB] and [handler].  The request body is the value produced by
    [JSON.parse]; the relational store behind [client.query] is a list of
    rows on which the four SQL statements of the handler are interpreted.

    Conventions of the model
    - JSON numbers are the integers ([Z]); fractions are not represented.
    - a string is the UTF-8 form of the JavaScript string; [trim] removes
      the WhiteSpace and LineTerminator characters of ECMAScript and
      [toUpperCase] applies the upper-case mappings of Unicode, character
      by character.
    - an exception is the [Throw] result, carrying [error.message].
    - what lies outside the source (the JSON parser, the reachability and
      the faults of the store, its reading of a date and of an integer
      parameter, the rendering of a [Date], which may throw, the
      environment) is a [platform], over which every statement is
      quantified. *)

From Stdlib Require Import List String Ascii ZArith NArith Bool Lia.
From Stdlib Require Import Sorting.Permutation Sorting.Sorted.
From Stdlib Require Import Structures.OrderedTypeEx.
Import ListNotations.

Set Warnings "-register-all".

Local Open Scope string_scope.
Local Open Scope Z_scope.

(* ================================================================== *)
(** ** JavaScript values *)
(* ================================================================== *)

Module Js.

(** The values [JSON.parse] can produce, plus [undefined], which is what
    reading an absent property yields. *)
Inductive value : Type :=
| VUndefined
| VNull
| VBool (b : bool)
| VNum (n : Z)
| VStr (s : string)
| VArr (items : list value)
| VObj (fields : list (string * value)).

(** Outcome of an evaluation that may throw. *)
Inductive result (A : Type) : Type :=
| Ok (a : A)
| Throw (message : string).
Arguments Ok {A} a.
Arguments Throw {A} message.

Definition bind {A B} (r : result A) (k : A -> result B) : result B :=
  match r with
  | Ok a => k a
  | Throw m => Throw m
  end.

(** [items.map(f)]: the callback is applied to the items in order, and
    the first exception it throws ends the call. *)
Fixpoint map_result {A B} (f : A -> result B) (items : list A)
  : result (list B) :=
  match items with
  | [] => Ok []
  | a :: rest =>
      bind (f a) (fun b =>
      bind (map_result f rest) (fun bs => Ok (b :: bs)))
  end.

(** ToBoolean. *)
Definition truthy (v : value) : bool :=
  match v with
  | VUndefined | VNull => false
  | VBool b => b
  | VNum n => negb (n =? 0)
  | VStr s => negb (s =? "")%string
  | VArr _ | VObj _ => true
  end.

(** [a || b]. *)
Definition or_else (a b : value) : value :=
  if truthy a then a else b.

(** [typeof v === 'string']. *)
Definition is_string (v : value) : bool :=
  match v with
  | VStr _ => true
  | _ => false
  end.

(** [v == null] in the sense of optional chaining: [null] or [undefined]. *)
Definition nullish (v : value) : bool :=
  match v with
  | VUndefined | VNull => true
  | _ => false
  end.

Fixpoint assoc (key : string) (fields : list (string * value)) : value :=
  match fields with
  | [] => VUndefined
  | (k, v) :: rest => if (k =? key)%string then v else assoc key rest
  end.

(** [data.key]: reading a property of [null] or [undefined] throws a
    TypeError; primitives and arrays have none of the properties the
    handler reads. *)
Definition get (data : value) (key : string) : result value :=
  match data with
  | VUndefined | VNull =>
      Throw ("Cannot read properties of null (reading '" ++ key ++ "')")
  | VObj fields => Ok (assoc key fields)
  | _ => Ok VUndefined
  end.

(** [list.includes(v)] for a list of string literals: SameValueZero only
    relates a string to an equal string. *)
Definition includes (l : list string) (v : value) : bool :=
  match v with
  | VStr s => existsb (String.eqb s) l
  | _ => false
  end.

(** *** Text as UTF-8 *)

(** A string of the model is the UTF-8 form of the JavaScript string:
    an ASCII character is one byte, any other a leading byte followed by
    one to three continuation bytes. *)
Definition byte (n : N) : ascii := ascii_of_N n.

(** The UTF-8 form of a code point. *)
Definition utf8 (c : N) : string :=
  (if c <? 0x80 then String (byte c) ""
   else if c <? 0x800 then
     String (byte (0xC0 + c / 0x40)) (String (byte (0x80 + c mod 0x40)) "")
   else if c <? 0x10000 then
     String (byte (0xE0 + c / 0x1000))
       (String (byte (0x80 + (c / 0x40) mod 0x40))
          (String (byte (0x80 + c mod 0x40)) ""))
   else
     String (byte (0xF0 + c / 0x40000))
       (String (byte (0x80 + (c / 0x1000) mod 0x40))
          (String (byte (0x80 + (c / 0x40) mod 0x40))
             (String (byte (0x80 + c mod 0x40)) ""))))%N.

Definition continuation (b : ascii) : bool :=
  let n := N_of_ascii b in ((0x80 <=? n) && (n <? 0xC0))%N.

(** How many continuation bytes a leading byte announces. *)
Definition trail (b : ascii) : nat :=
  let n := N_of_ascii b in
  if (n <? 0xC0)%N then 0%nat else if (n <? 0xE0)%N then 1%nat
  else if (n <? 0xF0)%N then 2%nat else if (n <? 0xF8)%N then 3%nat
  else 0%nat.

Definition continuation_byte (u : string) : option ascii :=
  match u with
  | String b EmptyString => if continuation b then Some b else None
  | _ => None
  end.

(** The [k] continuation bytes a list of characters begins with. *)
Fixpoint take_trail (k : nat) (l : list string)
  : option (string * list string) :=
  match k with
  | O => Some (EmptyString, l)
  | S k' =>
      match l with
      | u :: rest =>
          match continuation_byte u, take_trail k' rest with
          | Some b, Some (t, rest') => Some (String b t, rest')
          | _, _ => None
          end
      | [] => None
      end
  end.

(** One more byte in front of a text already cut into characters: a
    leading byte takes the continuation bytes it announces, if they are
    there; any other byte stands alone. *)
Definition cons_byte (b : ascii) (l : list string) : list string :=
  match take_trail (trail b) l with
  | Some (t, rest) => String b t :: rest
  | None => String b EmptyString :: l
  end.

(** The characters of a text, each in its UTF-8 form. *)
Fixpoint chars (s : string) : list string :=
  match s with
  | EmptyString => []
  | String b rest => cons_byte b (chars rest)
  end.

Definition join (l : list string) : string := fold_right append "" l.

(** *** String.prototype.trim *)

(** WhiteSpace and LineTerminator of ECMAScript: TAB, VT, FF, SP, NBSP,
    ZWNBSP and the space separators of Unicode; LF, CR, LS and PS. *)
Definition WhiteSpace : list N :=
  [0x9; 0xB; 0xC; 0x20; 0xA0; 0xFEFF; 0x1680; 0x2000; 0x2001; 0x2002;
   0x2003; 0x2004; 0x2005; 0x2006; 0x2007; 0x2008; 0x2009; 0x200A; 0x202F;
   0x205F; 0x3000]%N.

Definition LineTerminator : list N := [0xA; 0xD; 0x2028; 0x2029]%N.

Definition white_space : list string :=
  Eval vm_compute in map utf8 (WhiteSpace ++ LineTerminator).

Definition is_space (u : string) : bool :=
  existsb (String.eqb u) white_space.

Fixpoint drop_spaces (l : list string) : list string :=
  match l with
  | u :: rest => if is_space u then drop_spaces rest else l
  | [] => []
  end.

(** White space is removed from both ends. *)
Definition strip (l : list string) : list string :=
  rev (drop_spaces (rev (drop_spaces l))).

Definition trim (s : string) : string := join (strip (chars s)).

(** *** String.prototype.toUpperCase *)

(** The code points with an upper-case form (Unicode 14, UnicodeData and
    the unconditional entries of SpecialCasing).  A run
    [(lower, upper, n, step)] stands for the [n] pairs [lower + i * step],
    [upper + i * step]. *)
Definition simple_uppercase : list (N * N * N * N) :=
  [(0x61, 0x41, 26, 1); (0xB5, 0x39C, 1, 1); (0xE0, 0xC0, 23, 1);
   (0xF8, 0xD8, 7, 1); (0xFF, 0x178, 1, 1); (0x101, 0x100, 24, 2);
   (0x131, 0x49, 1, 1); (0x133, 0x132, 3, 2); (0x13A, 0x139, 8, 2);
   (0x14B, 0x14A, 23, 2); (0x17A, 0x179, 3, 2); (0x17F, 0x53, 1, 1);
   (0x180, 0x243, 1, 1); (0x183, 0x182, 2, 2); (0x188, 0x187, 1, 1);
   (0x18C, 0x18B, 1, 1); (0x192, 0x191, 1, 1); (0x195, 0x1F6, 1, 1);
   (0x199, 0x198, 1, 1); (0x19A, 0x23D, 1, 1); (0x19E, 0x220, 1, 1);
   (0x1A1, 0x1A0, 3, 2); (0x1A8, 0x1A7, 1, 1); (0x1AD, 0x1AC, 1, 1);
   (0x1B0, 0x1AF, 1, 1); (0x1B4, 0x1B3, 2, 2); (0x1B9, 0x1B8, 1, 1);
   (0x1BD, 0x1BC, 1, 1); (0x1BF, 0x1F7, 1, 1); (0x1C5, 0x1C4, 1, 1);
   (0x1C6, 0x1C4, 1, 1); (0x1C8, 0x1C7, 1, 1); (0x1C9, 0x1C7, 1, 1);
   (0x1CB, 0x1CA, 1, 1); (0x1CC, 0x1CA, 1, 1); (0x1CE, 0x1CD, 8, 2);
   (0x1DD, 0x18E, 1, 1); (0x1DF, 0x1DE, 9, 2); (0x1F2, 0x1F1, 1, 1);
   (0x1F3, 0x1F1, 1, 1); (0x1F5, 0x1F4, 1, 1); (0x1F9, 0x1F8, 20, 2);
   (0x223, 0x222, 9, 2); (0x23C, 0x23B, 1, 1); (0x23F, 0x2C7E, 2, 1);
   (0x242, 0x241, 1, 1); (0x247, 0x246, 5, 2); (0x250, 0x2C6F, 1, 1);
   (0x251, 0x2C6D, 1, 1); (0x252, 0x2C70, 1, 1); (0x253, 0x181, 1, 1);
   (0x254, 0x186, 1, 1); (0x256, 0x189, 2, 1); (0x259, 0x18F, 1, 1);
   (0x25B, 0x190, 1, 1); (0x25C, 0xA7AB, 1, 1); (0x260, 0x193, 1, 1);
   (0x261, 0xA7AC, 1, 1); (0x263, 0x194, 1, 1); (0x265, 0xA78D, 1, 1);
   (0x266, 0xA7AA, 1, 1); (0x268, 0x197, 1, 1); (0x269, 0x196, 1, 1);
   (0x26A, 0xA7AE, 1, 1); (0x26B, 0x2C62, 1, 1); (0x26C, 0xA7AD, 1, 1);
   (0x26F, 0x19C, 1, 1); (0x271, 0x2C6E, 1, 1); (0x272, 0x19D, 1, 1);
   (0x275, 0x19F, 1, 1); (0x27D, 0x2C64, 1, 1); (0x280, 0x1A6, 1, 1);
   (0x282, 0xA7C5, 1, 1); (0x283, 0x1A9, 1, 1); (0x287, 0xA7B1, 1, 1);
   (0x288, 0x1AE, 1, 1); (0x289, 0x244, 1, 1); (0x28A, 0x1B1, 2, 1);
   (0x28C, 0x245, 1, 1); (0x292, 0x1B7, 1, 1); (0x29D, 0xA7B2, 1, 1);
   (0x29E, 0xA7B0, 1, 1); (0x345, 0x399, 1, 1); (0x371, 0x370, 2, 2);
   (0x377, 0x376, 1, 1); (0x37B, 0x3FD, 3, 1); (0x3AC, 0x386, 1, 1);
   (0x3AD, 0x388, 3, 1); (0x3B1, 0x391, 17, 1); (0x3C2, 0x3A3, 1, 1);
   (0x3C3, 0x3A3, 9, 1); (0x3CC, 0x38C, 1, 1); (0x3CD, 0x38E, 2, 1);
   (0x3D0, 0x392, 1, 1); (0x3D1, 0x398, 1, 1); (0x3D5, 0x3A6, 1, 1);
   (0x3D6, 0x3A0, 1, 1); (0x3D7, 0x3CF, 1, 1); (0x3D9, 0x3D8, 12, 2);
   (0x3F0, 0x39A, 1, 1); (0x3F1, 0x3A1, 1, 1); (0x3F2, 0x3F9, 1, 1);
   (0x3F3, 0x37F, 1, 1); (0x3F5, 0x395, 1, 1); (0x3F8, 0x3F7, 1, 1);
   (0x3FB, 0x3FA, 1, 1); (0x430, 0x410, 32, 1); (0x450, 0x400, 16, 1);
   (0x461, 0x460, 17, 2); (0x48B, 0x48A, 27, 2); (0x4C2, 0x4C1, 7, 2);
   (0x4CF, 0x4C0, 1, 1); (0x4D1, 0x4D0, 48, 2); (0x561, 0x531, 38, 1);
   (0x10D0, 0x1C90, 43, 1); (0x10FD, 0x1CBD, 3, 1); (0x13F8, 0x13F0, 6, 1);
   (0x1C80, 0x412, 1, 1); (0x1C81, 0x414, 1, 1); (0x1C82, 0x41E, 1, 1);
   (0x1C83, 0x421, 2, 1); (0x1C85, 0x422, 1, 1); (0x1C86, 0x42A, 1, 1);
   (0x1C87, 0x462, 1, 1); (0x1C88, 0xA64A, 1, 1); (0x1D79, 0xA77D, 1, 1);
   (0x1D7D, 0x2C63, 1, 1); (0x1D8E, 0xA7C6, 1, 1); (0x1E01, 0x1E00, 75, 2);
   (0x1E9B, 0x1E60, 1, 1); (0x1EA1, 0x1EA0, 48, 2); (0x1F00, 0x1F08, 8, 1);
   (0x1F10, 0x1F18, 6, 1); (0x1F20, 0x1F28, 8, 1); (0x1F30, 0x1F38, 8, 1);
   (0x1F40, 0x1F48, 6, 1); (0x1F51, 0x1F59, 4, 2); (0x1F60, 0x1F68, 8, 1);
   (0x1F70, 0x1FBA, 2, 1); (0x1F72, 0x1FC8, 4, 1); (0x1F76, 0x1FDA, 2, 1);
   (0x1F78, 0x1FF8, 2, 1); (0x1F7A, 0x1FEA, 2, 1); (0x1F7C, 0x1FFA, 2, 1);
   (0x1FB0, 0x1FB8, 2, 1); (0x1FBE, 0x399, 1, 1); (0x1FD0, 0x1FD8, 2, 1);
   (0x1FE0, 0x1FE8, 2, 1); (0x1FE5, 0x1FEC, 1, 1); (0x214E, 0x2132, 1, 1);
   (0x2170, 0x2160, 16, 1); (0x2184, 0x2183, 1, 1); (0x24D0, 0x24B6, 26, 1);
   (0x2C30, 0x2C00, 48, 1); (0x2C61, 0x2C60, 1, 1); (0x2C65, 0x23A, 1, 1);
   (0x2C66, 0x23E, 1, 1); (0x2C68, 0x2C67, 3, 2); (0x2C73, 0x2C72, 1, 1);
   (0x2C76, 0x2C75, 1, 1); (0x2C81, 0x2C80, 50, 2); (0x2CEC, 0x2CEB, 2, 2);
   (0x2CF3, 0x2CF2, 1, 1); (0x2D00, 0x10A0, 38, 1); (0x2D27, 0x10C7, 1, 1);
   (0x2D2D, 0x10CD, 1, 1); (0xA641, 0xA640, 23, 2); (0xA681, 0xA680, 14, 2);
   (0xA723, 0xA722, 7, 2); (0xA733, 0xA732, 31, 2); (0xA77A, 0xA779, 2, 2);
   (0xA77F, 0xA77E, 5, 2); (0xA78C, 0xA78B, 1, 1); (0xA791, 0xA790, 2, 2);
   (0xA794, 0xA7C4, 1, 1); (0xA797, 0xA796, 10, 2); (0xA7B5, 0xA7B4, 8, 2);
   (0xA7C8, 0xA7C7, 2, 2); (0xA7D1, 0xA7D0, 1, 1); (0xA7D7, 0xA7D6, 2, 2);
   (0xA7F6, 0xA7F5, 1, 1); (0xAB53, 0xA7B3, 1, 1); (0xAB70, 0x13A0, 80, 1);
   (0xFF41, 0xFF21, 26, 1); (0x10428, 0x10400, 40, 1);
   (0x104D8, 0x104B0, 36, 1); (0x10597, 0x10570, 11, 1);
   (0x105A3, 0x1057C, 15, 1); (0x105B3, 0x1058C, 7, 1);
   (0x105BB, 0x10594, 2, 1); (0x10CC0, 0x10C80, 51, 1);
   (0x118C0, 0x118A0, 32, 1); (0x16E60, 0x16E40, 32, 1);
   (0x1E922, 0x1E900, 34, 1)]%N.

Definition special_uppercase : list (N * list N) :=
  [(0xDF, [0x53; 0x53]); (0x149, [0x2BC; 0x4E]); (0x1F0, [0x4A; 0x30C]);
   (0x390, [0x399; 0x308; 0x301]); (0x3B0, [0x3A5; 0x308; 0x301]);
   (0x587, [0x535; 0x552]); (0x1E96, [0x48; 0x331]); (0x1E97, [0x54; 0x308]);
   (0x1E98, [0x57; 0x30A]); (0x1E99, [0x59; 0x30A]); (0x1E9A, [0x41; 0x2BE]);
   (0x1F50, [0x3A5; 0x313]); (0x1F52, [0x3A5; 0x313; 0x300]);
   (0x1F54, [0x3A5; 0x313; 0x301]); (0x1F56, [0x3A5; 0x313; 0x342]);
   (0x1F80, [0x1F08; 0x399]); (0x1F81, [0x1F09; 0x399]);
   (0x1F82, [0x1F0A; 0x399]); (0x1F83, [0x1F0B; 0x399]);
   (0x1F84, [0x1F0C; 0x399]); (0x1F85, [0x1F0D; 0x399]);
   (0x1F86, [0x1F0E; 0x399]); (0x1F87, [0x1F0F; 0x399]);
   (0x1F88, [0x1F08; 0x399]); (0x1F89, [0x1F09; 0x399]);
   (0x1F8A, [0x1F0A; 0x399]); (0x1F8B, [0x1F0B; 0x399]);
   (0x1F8C, [0x1F0C; 0x399]); (0x1F8D, [0x1F0D; 0x399]);
   (0x1F8E, [0x1F0E; 0x399]); (0x1F8F, [0x1F0F; 0x399]);
   (0x1F90, [0x1F28; 0x399]); (0x1F91, [0x1F29; 0x399]);
   (0x1F92, [0x1F2A; 0x399]); (0x1F93, [0x1F2B; 0x399]);
   (0x1F94, [0x1F2C; 0x399]); (0x1F95, [0x1F2D; 0x399]);
   (0x1F96, [0x1F2E; 0x399]); (0x1F97, [0x1F2F; 0x399]);
   (0x1F98, [0x1F28; 0x399]); (0x1F99, [0x1F29; 0x399]);
   (0x1F9A, [0x1F2A; 0x399]); (0x1F9B, [0x1F2B; 0x399]);
   (0x1F9C, [0x1F2C; 0x399]); (0x1F9D, [0x1F2D; 0x399]);
   (0x1F9E, [0x1F2E; 0x399]); (0x1F9F, [0x1F2F; 0x399]);
   (0x1FA0, [0x1F68; 0x399]); (0x1FA1, [0x1F69; 0x399]);
   (0x1FA2, [0x1F6A; 0x399]); (0x1FA3, [0x1F6B; 0x399]);
   (0x1FA4, [0x1F6C; 0x399]); (0x1FA5, [0x1F6D; 0x399]);
   (0x1FA6, [0x1F6E; 0x399]); (0x1FA7, [0x1F6F; 0x399]);
   (0x1FA8, [0x1F68; 0x399]); (0x1FA9, [0x1F69; 0x399]);
   (0x1FAA, [0x1F6A; 0x399]); (0x1FAB, [0x1F6B; 0x399]);
   (0x1FAC, [0x1F6C; 0x399]); (0x1FAD, [0x1F6D; 0x399]);
   (0x1FAE, [0x1F6E; 0x399]); (0x1FAF, [0x1F6F; 0x399]);
   (0x1FB2, [0x1FBA; 0x399]); (0x1FB3, [0x391; 0x399]);
   (0x1FB4, [0x386; 0x399]); (0x1FB6, [0x391; 0x342]);
   (0x1FB7, [0x391; 0x342; 0x399]); (0x1FBC, [0x391; 0x399]);
   (0x1FC2, [0x1FCA; 0x399]); (0x1FC3, [0x397; 0x399]);
   (0x1FC4, [0x389; 0x399]); (0x1FC6, [0x397; 0x342]);
   (0x1FC7, [0x397; 0x342; 0x399]); (0x1FCC, [0x397; 0x399]);
   (0x1FD2, [0x399; 0x308; 0x300]); (0x1FD3, [0x399; 0x308; 0x301]);
   (0x1FD6, [0x399; 0x342]); (0x1FD7, [0x399; 0x308; 0x342]);
   (0x1FE2, [0x3A5; 0x308; 0x300]); (0x1FE3, [0x3A5; 0x308; 0x301]);
   (0x1FE4, [0x3A1; 0x313]); (0x1FE6, [0x3A5; 0x342]);
   (0x1FE7, [0x3A5; 0x308; 0x342]); (0x1FF2, [0x1FFA; 0x399]);
   (0x1FF3, [0x3A9; 0x399]); (0x1FF4, [0x38F; 0x399]);
   (0x1FF6, [0x3A9; 0x342]); (0x1FF7, [0x3A9; 0x342; 0x399]);
   (0x1FFC, [0x3A9; 0x399]); (0xFB00, [0x46; 0x46]); (0xFB01, [0x46; 0x49]);
   (0xFB02, [0x46; 0x4C]); (0xFB03, [0x46; 0x46; 0x49]);
   (0xFB04, [0x46; 0x46; 0x4C]); (0xFB05, [0x53; 0x54]);
   (0xFB06, [0x53; 0x54]); (0xFB13, [0x544; 0x546]); (0xFB14, [0x544; 0x535]);
   (0xFB15, [0x544; 0x53B]); (0xFB16, [0x54E; 0x546]);
   (0xFB17, [0x544; 0x53D])]%N.

Fixpoint run_of (n : nat) (step lower upper : N) : list (N * list N) :=
  match n with
  | O => []
  | S k => (lower, [upper]) :: run_of k step (lower + step)%N (upper + step)%N
  end.

Definition uppercase_points : list (N * list N) :=
  (flat_map (fun r => match r with
                      | (lower, upper, n, step) =>
                          run_of (N.to_nat n) step lower upper
                      end) simple_uppercase
   ++ special_uppercase)%list.

(** The same in UTF-8: a character and its upper-case form. *)
Definition uppercase : list (string * string) :=
  Eval vm_compute in
    map (fun kv => (utf8 (fst kv), join (map utf8 (snd kv))))
        uppercase_points.

Definition upper_char (u : string) : string :=
  match find (fun kv => (fst kv =? u)%string) uppercase with
  | Some (_, v) => v
  | None => u
  end.

(** Each character is replaced by its upper-case form, which may be
    longer. *)
Definition toUpperCase (s : string) : string :=
  join (map upper_char (chars s)).

(** *** Characters in full *)

Fixpoint all_bytes (f : ascii -> bool) (s : string) : bool :=
  match s with
  | EmptyString => true
  | String b rest => f b && all_bytes f rest
  end.

(** The bytes of a text, one by one. *)
Fixpoint bytes (s : string) : list string :=
  match s with
  | EmptyString => []
  | String b rest => String b EmptyString :: bytes rest
  end.

(** A byte with exactly the continuation bytes it announces. *)
Definition whole (u : string) : bool :=
  match u with
  | String b t => (String.length t =? trail b)%nat && all_bytes continuation t
  | EmptyString => false
  end.

Definition lone (u : string) : option ascii :=
  match u with
  | String b EmptyString => Some b
  | _ => None
  end.

(** Not a continuation byte standing alone. *)
Definition plain (u : string) : bool :=
  match continuation_byte u with
  | Some _ => false
  | None => true
  end.

(** A list of characters as [chars] cuts them: each is whole, or is a
    leading byte that the characters after it do not continue. *)
Fixpoint segmented (l : list string) : bool :=
  match l with
  | [] => true
  | u :: rest =>
      (whole u ||
       match lone u with
       | Some b =>
           match take_trail (trail b) rest with
           | None => true
           | Some _ => false
           end
       | None => false
       end) && segmented rest
  end.

Definition character (u : string) : bool :=
  whole u || match lone u with Some _ => true | None => false end.

(** Whether a character has an upper-case form of its own. *)
Definition cased (u : string) : bool :=
  existsb (fun kv => (fst kv =? u)%string) uppercase.

Definition steady (u : string) : bool :=
  whole u && plain u && negb (is_space u) && negb (cased u).

(** What the proofs use of the table: a cased character is whole and
    is not white space; its upper-case form is not empty and consists of
    whole characters that are neither white space nor cased. *)
Definition sound_entry (kv : string * string) : bool :=
  whole (fst kv) && plain (fst kv) && negb (is_space (fst kv)) &&
  negb (snd kv =? "")%string && forallb steady (chars (snd kv)).

Definition sound_space (u : string) : bool :=
  whole u && plain u && negb (cased u).

(** The list does not begin with white space. *)
Definition trimmed (l : list string) : bool :=
  match l with
  | u :: _ => negb (is_space u)
  | [] => true
  end.

Definition plain_head (l : list string) : bool :=
  match l with
  | u :: _ => plain u
  | [] => true
  end.

(** The characters of the upper-case form of a character. *)
Definition upper_chars (u : string) : list string := chars (upper_char u).

(** *** String.prototype.split with a one-character separator *)

Fixpoint split_acc (sep : ascii) (acc : string) (s : string) : list string :=
  match s with
  | EmptyString => [acc]
  | String c rest =>
      if Ascii.eqb c sep then acc :: split_acc sep EmptyString rest
      else split_acc sep (acc ++ String c EmptyString)%string rest
  end.

Definition split (sep : ascii) (s : string) : list string :=
  split_acc sep EmptyString s.

(** Whether a character occurs in a string. *)
Fixpoint has_char (c : ascii) (s : string) : bool :=
  match s with
  | EmptyString => false
  | String x rest => Ascii.eqb x c || has_char c rest
  end.

(** [v?.trim()]: short-circuits on a nullish receiver, trims a string, and
    throws on any other receiver, which has no callable [trim]. *)
Definition opt_trim (name : string) (v : value) : result value :=
  match v with
  | VUndefined | VNull => Ok VUndefined
  | VStr s => Ok (VStr (trim s))
  | _ => Throw ("data." ++ name ++ "?.trim is not a function")
  end.

(** [v?.toUpperCase().trim()]. *)
Definition opt_upper_trim (name : string) (v : value) : result value :=
  match v with
  | VUndefined | VNull => Ok VUndefined
  | VStr s => Ok (VStr (trim (toUpperCase s)))
  | _ => Throw ("data." ++ name ++ "?.toUpperCase is not a function")
  end.

End Js.

Import Js.

Notation "x <- m ;; k" := (bind m (fun x => k))
  (at level 61, m at next level, right associativity).

(* ================================================================== *)
(** ** validateAppointment *)
(* ================================================================== *)

Definition services : list string := ["PB"; "LT"; "OC"; "REP"; "POL"].
Definition statuses : list string := ["NE"; "VE"; "ST"].
Definition periods : list string := ["Manhã"; "Tarde"].

Definition msg_plate : string := "Matrícula é obrigatória".
Definition msg_car : string := "Modelo do carro é obrigatório".
Definition msg_service : string := "Tipo de serviço inválido".
Definition msg_locality : string := "Localidade é obrigatória".
Definition msg_status : string := "Status inválido".
Definition msg_period : string := "Período inválido".

(** [!v || typeof v !== 'string' || v.trim().length === 0]. *)
Definition not_text (v : value) : bool :=
  negb (truthy v) || negb (is_string v) ||
  match v with
  | VStr s => (String.length (trim s) =? 0)%nat
  | _ => true
  end.

(** [errors.push(m)] under a condition. *)
Definition push_if (c : bool) (m : string) (errors : list string) : list string :=
  if c then errors ++ [m] else errors.

Definition validateAppointment (data : value) : result (list string) :=
  let errors := [] in
  plate <- get data "plate" ;;
  let errors := push_if (not_text plate) msg_plate errors in
  car <- get data "car" ;;
  let errors := push_if (not_text car) msg_car errors in
  service <- get data "service" ;;
  let errors :=
    push_if (negb (truthy service) || negb (includes services service))
            msg_service errors in
  locality <- get data "locality" ;;
  let errors := push_if (not_text locality) msg_locality errors in
  status <- get data "status" ;;
  let errors :=
    push_if (negb (truthy status) || negb (includes statuses status))
            msg_status errors in
  period <- get data "period" ;;
  let errors :=
    push_if (truthy period && negb (includes periods period))
            msg_period errors in
  Ok errors.

(* ================================================================== *)
(** ** transformToBackend *)
(* ================================================================== *)

Record backend : Type := {
  b_date : value;
  b_period : value;
  b_plate : value;
  b_car : value;
  b_service : value;
  b_locality : value;
  b_status : value;
  b_notes : value;
  b_extra : value;
  b_sort_index : value
}.

Definition transformToBackend (data : value) : result backend :=
  date <- get data "date" ;;
  period <- get data "period" ;;
  plate0 <- get data "plate" ;;
  plate <- opt_upper_trim "plate" plate0 ;;
  car0 <- get data "car" ;;
  car <- opt_trim "car" car0 ;;
  service <- get data "service" ;;
  locality0 <- get data "locality" ;;
  locality <- opt_trim "locality" locality0 ;;
  status <- get data "status" ;;
  notes0 <- get data "notes" ;;
  notes <- opt_trim "notes" notes0 ;;
  extra0 <- get data "extra" ;;
  extra <- opt_trim "extra" extra0 ;;
  sortIndex <- get data "sortIndex" ;;
  sort_index <- get data "sort_index" ;;
  Ok {| b_date := or_else date VNull;
        b_period := or_else period VNull;
        b_plate := plate;
        b_car := car;
        b_service := service;
        b_locality := locality;
        b_status := or_else status (VStr "NE");
        b_notes := or_else notes VNull;
        b_extra := or_else extra VNull;
        b_sort_index := or_else (or_else sortIndex sort_index) (VNum 1) |}.

(* ================================================================== *)
(** ** The appointments table *)
(* ================================================================== *)

(** Modelled from the spec: the table definition is not part of the
    source.  Columns are the thirteen the spec lists; [plate], [car],
    [service], [locality] and [status] are text, [period], [notes] and
    [extra] nullable text, [date] a nullable calendar date (held as the
    instant of its midnight, in milliseconds since the epoch, of which the
    driver makes a [Date] object), [sort_index] an integer, and the two
    timestamps instants. *)
Record row : Type := {
  id : string;
  date : option Z;
  period : option string;
  plate : string;
  car : string;
  service : string;
  locality : string;
  status : string;
  notes : option string;
  extra : option string;
  sort_index : Z;
  created_at : Z;
  updated_at : Z
}.

(** The statements the handler sends, with their parameters. *)
Inductive statement : Type :=
| SelectAll
| InsertRow (p : backend)
| UpdateRow (p : backend) (key : string)
| DeleteRow (key : string).

(** *** ORDER BY *)

(** Lexicographic composition of sort keys. *)
Definition lex (c1 c2 : comparison) : comparison :=
  match c1 with
  | Eq => c2
  | _ => c1
  end.

(** [x ASC] on a nullable column: NULL sorts after every value. *)
Definition asc_nullable {A} (cmp : A -> A -> comparison)
    (x y : option A) : comparison :=
  match x, y with
  | Some a, Some b => cmp a b
  | Some _, None => Lt
  | None, Some _ => Gt
  | None, None => Eq
  end.

(** [CASE WHEN date IS NULL THEN 1 ELSE 0 END]. *)
Definition date_is_null (r : row) : Z :=
  match date r with
  | None => 1
  | Some _ => 0
  end.

(** The four sort keys of the SELECT, in order.  Dates compare by their
    instant and text compares code unit by code unit, which is how the two
    period values compare under any collation. *)
Definition order_by (r1 r2 : row) : comparison :=
  lex (Z.compare (date_is_null r1) (date_is_null r2))
 (lex (asc_nullable Z.compare (date r1) (date r2))
 (lex (asc_nullable String.compare (period r1) (period r2))
      (Z.compare (sort_index r1) (sort_index r2)))).

Definition before (r1 r2 : row) : bool :=
  match order_by r1 r2 with
  | Gt => false
  | _ => true
  end.

Fixpoint insert_sorted (r : row) (l : list row) : list row :=
  match l with
  | [] => [r]
  | x :: rest => if before r x then r :: l else x :: insert_sorted r rest
  end.

(** The rows of a relation in ORDER BY order (rows with equal keys keep
    the order of the table). *)
Fixpoint sort_rows (l : list row) : list row :=
  match l with
  | [] => []
  | r :: rest => insert_sorted r (sort_rows rest)
  end.

(** *** The order behind ORDER BY *)







(* ================================================================== *)
(** ** The platform: environment, store and connection *)
(* ================================================================== *)

(** What the function is deployed against.  [JSON_parse] is [None] where
    [JSON.parse] throws a SyntaxError.  [connect_error] is the error of
    [client.connect()], if the store cannot be reached; [fault] the error
    the store raises on a statement, if any.  [read_date] and
    [read_integer] are the store's input conversions for the date and the
    integer column, [None] where it rejects the parameter;
    [toISOString] is the rendering of the [Date] the driver hands back
    for a stored date, [Throw] where that object has none (an invalid
    [Date] throws a RangeError); [new_id] is the store's identifier
    generator. *)
Record platform : Type := {
  JSON_parse : string -> option value;
  NODE_ENV : option string;
  connect_error : option string;
  fault : statement -> option string;
  read_date : value -> option Z;
  read_integer : value -> option Z;
  toISOString : Z -> result string;
  new_id : list row -> string
}.

Inductive effect : Type :=
| Connect (ok : bool)
| Query (s : statement)
| End
| ConsoleError (m : string).

(** A connected [Client]. *)
Inductive Client : Type :=
| Connection (n : nat).

(** The state an invocation runs in: the table, the instant
    CURRENT_TIMESTAMP denotes, the effects performed so far (oldest
    first), and the handler's local variable [client]. *)
Record world : Type := {
  table : list row;
  clock : Z;
  trace : list effect;
  client : option Client
}.

Definition io (A : Type) : Type := world -> result A * world.

Definition ret {A} (a : A) : io A := fun w => (Ok a, w).

Definition await {A B} (m : io A) (k : A -> io B) : io B :=
  fun w =>
    match m w with
    | (Ok a, w') => k a w'
    | (Throw e, w') => (Throw e, w')
    end.

Definition lift {A} (r : result A) : io A := fun w => (r, w).

(** The world after one more effect. *)
Definition log (e : effect) (w : world) : world :=
  {| table := table w; clock := clock w;
     trace := (trace w ++ [e])%list; client := client w |}.

Definition emit (e : effect) : io unit := fun w => (Ok tt, log e w).

Definition set_table (t : list row) : io unit :=
  fun w => (Ok tt, {| table := t; clock := clock w;
                      trace := trace w; client := client w |}).

Definition set_client (c : option Client) : io unit :=
  fun w => (Ok tt, {| table := table w; clock := clock w;
                      trace := trace w; client := c |}).

Definition read {A} (f : world -> A) : io A := fun w => (Ok (f w), w).

(** [try { body } catch (error) { handler }]. *)
Definition try_catch {A} (body : io A) (handler : string -> io A) : io A :=
  fun w =>
    match body w with
    | (Throw error, w') => handler error w'
    | (Ok a, w') => (Ok a, w')
    end.

(** [try { body } finally { cleanup }]: the cleanup runs on every exit,
    and the outcome of the body stands unless the cleanup itself throws. *)
Definition finally_ {A} (body : io A) (cleanup : io unit) : io A :=
  fun w =>
    let '(r, w1) := body w in
    match cleanup w1 with
    | (Ok _, w2) => (r, w2)
    | (Throw error, w2) => (Throw error, w2)
    end.

Notation "x <~ m ;; k" := (await m (fun x => k))
  (at level 61, m at next level, right associativity).

(* ================================================================== *)
(** ** transformToFrontend *)
(* ================================================================== *)

Record entity : Type := {
  e_id : string;
  e_date : option string;
  e_period : option string;
  e_plate : string;
  e_car : string;
  e_service : string;
  e_locality : string;
  e_status : string;
  e_notes : option string;
  e_extra : option string;
  e_sortIndex : Z;
  e_createdAt : Z;
  e_updatedAt : Z
}.

Section Handler.

Variable P : platform.

(** [row.date ? row.date.toISOString().split('T')[0] : null]: the driver
    hands back an object for every date that is not NULL, an object is
    truthy, and [toISOString] throws on a [Date] that is invalid. *)
Definition iso_day (d : option Z) : result (option string) :=
  match d with
  | Some t =>
      text <- toISOString P t ;;
      Ok (Some (hd "" (split "T" text)))
  | None => Ok None
  end.

Definition transformToFrontend (r : row) : result entity :=
  day <- iso_day (date r) ;;
  Ok
  {| e_id := id r;
     e_date := day;
     e_period := period r;
     e_plate := plate r;
     e_car := car r;
     e_service := service r;
     e_locality := locality r;
     e_status := status r;
     e_notes := notes r;
     e_extra := extra r;
     e_sortIndex := sort_index r;
     e_createdAt := created_at r;
     e_updatedAt := updated_at r |}.

(* ================================================================== *)
(** ** The store's reading of a statement *)
(* ================================================================== *)

(** Parameter binding.  A text column takes a string, and a nullable
    one also NULL ([undefined] is sent as NULL); the handler binds nothing
    else to them.  The integer column takes a number as it is and any
    other value as the store reads it; the date column takes NULL and any
    other value as the store reads it.  A parameter the column does not
    take makes the statement fail. *)
Definition text_in (column : string) (v : value) : result string :=
  match v with
  | VStr s => Ok s
  | _ => Throw ("invalid value for column " ++ column)
  end.

Definition nullable_text_in (column : string) (v : value)
  : result (option string) :=
  match v with
  | VUndefined | VNull => Ok None
  | VStr s => Ok (Some s)
  | _ => Throw ("invalid value for column " ++ column)
  end.

Definition integer_in (column : string) (v : value) : result Z :=
  match v with
  | VNum n => Ok n
  | VUndefined | VNull => Throw ("null value in column " ++ column)
  | _ =>
      match read_integer P v with
      | Some n => Ok n
      | None => Throw "invalid input syntax for type integer"
      end
  end.

Definition date_column_in (v : value) : result (option Z) :=
  match v with
  | VUndefined | VNull => Ok None
  | _ =>
      match read_date P v with
      | Some t => Ok (Some t)
      | None => Throw "invalid input syntax for type date"
      end
  end.

(** The ten columns the INSERT and the UPDATE set. *)
Record columns : Type := {
  c_date : option Z;
  c_period : option string;
  c_plate : string;
  c_car : string;
  c_service : string;
  c_locality : string;
  c_status : string;
  c_notes : option string;
  c_extra : option string;
  c_sort_index : Z
}.

(** Binding [$1 .. $10]; it happens before any row is touched. *)
Definition bind_parameters (p : backend) : result columns :=
  d <- date_column_in (b_date p) ;;
  pe <- nullable_text_in "period" (b_period p) ;;
  pl <- text_in "plate" (b_plate p) ;;
  ca <- text_in "car" (b_car p) ;;
  se <- text_in "service" (b_service p) ;;
  lo <- text_in "locality" (b_locality p) ;;
  st <- text_in "status" (b_status p) ;;
  no <- nullable_text_in "notes" (b_notes p) ;;
  ex <- nullable_text_in "extra" (b_extra p) ;;
  si <- integer_in "sort_index" (b_sort_index p) ;;
  Ok {| c_date := d; c_period := pe; c_plate := pl; c_car := ca;
        c_service := se; c_locality := lo; c_status := st; c_notes := no;
        c_extra := ex; c_sort_index := si |}.

(** [INSERT ... VALUES ($1 .. $10)].  Modelled from the spec: the column
    defaults are not part of the source; the new row gets its [id] from
    the store and both timestamps from the clock. *)
Definition new_row (c : columns) (key : string) (now : Z) : row :=
  {| id := key; date := c_date c; period := c_period c; plate := c_plate c;
     car := c_car c; service := c_service c; locality := c_locality c;
     status := c_status c; notes := c_notes c; extra := c_extra c;
     sort_index := c_sort_index c; created_at := now; updated_at := now |}.

(** [SET date = $1, ..., sort_index = $10, updated_at = CURRENT_TIMESTAMP]:
    [id] and [created_at] are not among the assignments. *)
Definition set_columns (c : columns) (now : Z) (r : row) : row :=
  {| id := id r; date := c_date c; period := c_period c; plate := c_plate c;
     car := c_car c; service := c_service c; locality := c_locality c;
     status := c_status c; notes := c_notes c; extra := c_extra c;
     sort_index := c_sort_index c; created_at := created_at r;
     updated_at := now |}.

Definition has_id (key : string) (r : row) : bool := (id r =? key)%string.

(** [UPDATE ... WHERE id = $11], row by row. *)
Definition update_rows (c : columns) (key : string) (now : Z)
    (t : list row) : list row :=
  map (fun r => if has_id key r then set_columns c now r else r) t.

(** The rows a statement returns and the table it leaves. *)
Definition run (s : statement) (t : list row) (now : Z)
  : result (list row * list row) :=
  match s with
  | SelectAll => Ok (sort_rows t, t)
  | InsertRow p =>
      c <- bind_parameters p ;;
      let r := new_row c (new_id P t) now in
      Ok ([r], (t ++ [r])%list)
  | UpdateRow p key =>
      c <- bind_parameters p ;;
      let t' := update_rows c key now t in
      Ok (filter (has_id key) t', t')
  | DeleteRow key =>
      Ok (filter (has_id key) t, filter (fun r => negb (has_id key r)) t)
  end.

(* ================================================================== *)
(** ** connectDB, client.query, client.end *)
(* ================================================================== *)

Definition connectDB : io Client :=
  match connect_error P with
  | Some error => _ <~ emit (Connect false) ;; lift (Throw error)
  | None =>
      n <~ read (fun w => List.length (trace w)) ;;
      _ <~ emit (Connect true) ;;
      ret (Connection n)
  end.

Definition client_query (c : Client) (s : statement) : io (list row) :=
  _ <~ emit (Query s) ;;
  match fault P s with
  | Some error => lift (Throw error)
  | None =>
      t <~ read table ;;
      now <~ read clock ;;
      out <~ lift (run s t now) ;;
      _ <~ set_table (snd out) ;;
      ret (fst out)
  end.

(** [client.end()]; closing the connection does not fail. *)
Definition client_end (c : Client) : io unit := emit End.

(* ================================================================== *)
(** ** handler *)
(* ================================================================== *)

Record event : Type := {
  httpMethod : string;
  path : string;
  body : string
}.

Inductive payload : Type :=
| One (e : entity)
| Many (l : list entity).

Inductive detail : Type :=
| Messages (l : list string)
| Message (m : string).

(** The object handed to [JSON.stringify]; a key that is absent or
    [undefined] is [None]. *)
Record envelope : Type := {
  success : bool;
  data : option payload;
  error : option string;
  details : option detail;
  message : option string
}.

Inductive content : Type :=
| Empty
| Json (e : envelope).

Record response : Type := {
  statusCode : Z;
  headers : list (string * string);
  content_of : content
}.

Definition corsHeaders : list (string * string) :=
  [("Access-Control-Allow-Origin", "*");
   ("Access-Control-Allow-Headers", "Content-Type, Authorization");
   ("Access-Control-Allow-Methods", "GET, POST, PUT, DELETE, OPTIONS")].

Definition reply (code : Z) (e : envelope) : response :=
  {| statusCode := code; headers := corsHeaders; content_of := Json e |}.

Definition failure (err : string) (d : option detail) : envelope :=
  {| success := false; data := None; error := Some err; details := d;
     message := None |}.

Definition parse (text : string) : io value :=
  match JSON_parse P text with
  | Some v => ret v
  | None => lift (Throw "Unexpected token in JSON")
  end.

(** [rows[0]] handed to [transformToFrontend], which reads [row.id]. *)
Definition first_row (rows : list row) : io entity :=
  match rows with
  | r :: _ => lift (transformToFrontend r)
  | [] => lift (Throw "Cannot read properties of undefined (reading 'id')")
  end.

(** [case 'GET']. *)
Definition list_branch (c : Client) : io response :=
  rows <~ client_query c SelectAll ;;
  appointments <~ lift (map_result transformToFrontend rows) ;;
  ret (reply 200 {| success := true; data := Some (Many appointments);
                    error := None; details := None; message := None |}).

(** [case 'POST']. *)
Definition create_branch (c : Client) (ev : event) : io response :=
  newData <~ parse (body ev) ;;
  validationErrors <~ lift (validateAppointment newData) ;;
  if (0 <? List.length validationErrors)%nat then
    ret (reply 400 (failure "Dados inválidos"
                            (Some (Messages validationErrors))))
  else
    transformedData <~ lift (transformToBackend newData) ;;
    rows <~ client_query c (InsertRow transformedData) ;;
    newAppointment <~ first_row rows ;;
    ret (reply 201 {| success := true; data := Some (One newAppointment);
                      error := None; details := None;
                      message := Some "Agendamento criado com sucesso" |}).

(** [!appointmentId || appointmentId === 'appointments']. *)
Definition no_id (appointmentId : string) : bool :=
  (appointmentId =? "")%string || (appointmentId =? "appointments")%string.

(** [case 'PUT']. *)
Definition update_branch (c : Client) (appointmentId : string) (ev : event)
  : io response :=
  if no_id appointmentId then
    ret (reply 400 (failure "ID do agendamento é obrigatório" None))
  else
    updateData <~ parse (body ev) ;;
    updateValidationErrors <~ lift (validateAppointment updateData) ;;
    if (0 <? List.length updateValidationErrors)%nat then
      ret (reply 400 (failure "Dados inválidos"
                              (Some (Messages updateValidationErrors))))
    else
      transformedUpdateData <~ lift (transformToBackend updateData) ;;
      rows <~ client_query c (UpdateRow transformedUpdateData appointmentId) ;;
      if (List.length rows =? 0)%nat then
        ret (reply 404 (failure "Agendamento não encontrado" None))
      else
        updatedAppointment <~ first_row rows ;;
        ret (reply 200 {| success := true;
                          data := Some (One updatedAppointment);
                          error := None; details := None;
                          message :=
                            Some "Agendamento atualizado com sucesso" |}).

(** [case 'DELETE']. *)
Definition delete_branch (c : Client) (appointmentId : string) : io response :=
  if no_id appointmentId then
    ret (reply 400 (failure "ID do agendamento é obrigatório" None))
  else
    rows <~ client_query c (DeleteRow appointmentId) ;;
    if (List.length rows =? 0)%nat then
      ret (reply 404 (failure "Agendamento não encontrado" None))
    else
      ret (reply 200 {| success := true; data := None; error := None;
                        details := None;
                        message :=
                          Some "Agendamento eliminado com sucesso" |}).

(** The [switch (method)]. *)
Definition dispatch (c : Client) (method appointmentId : string) (ev : event)
  : io response :=
  if (method =? "GET")%string then list_branch c
  else if (method =? "POST")%string then create_branch c ev
  else if (method =? "PUT")%string then update_branch c appointmentId ev
  else if (method =? "DELETE")%string then delete_branch c appointmentId
  else ret (reply 405 (failure "Método não permitido" None)).

(** [process.env.NODE_ENV === 'development' ? error.message : undefined]. *)
Definition error_details (message_ : string) : option detail :=
  match NODE_ENV P with
  | Some mode =>
      if (mode =? "development")%string then Some (Message message_)
      else None
  | None => None
  end.

(** The [catch] block. *)
Definition on_error (message_ : string) : io response :=
  _ <~ emit (ConsoleError message_) ;;
  ret (reply 500 (failure "Erro interno do servidor"
                          (error_details message_))).

(** The [finally] block. *)
Definition release : io unit :=
  c <~ read client ;;
  match c with
  | Some c => client_end c
  | None => ret tt
  end.

Definition handler (ev : event) : io response :=
  if (httpMethod ev =? "OPTIONS")%string then
    ret {| statusCode := 200; headers := corsHeaders; content_of := Empty |}
  else
    _ <~ set_client None ;;
    finally_
      (try_catch
         (c <~ connectDB ;;
          _ <~ set_client (Some c) ;;
          let method := httpMethod ev in
          let pathParts := split "/" (path ev) in
          let appointmentId :=
            nth (List.length pathParts - 1) pathParts "" in
          dispatch c method appointmentId ev)
         on_error)
      release.

End Handler.

(* ================================================================== *)
(** ** The contract in the specification's words *)
(* ================================================================== *)

Module Contract.

(** The six validation rules. *)
Inductive rule : Type :=
| PlateRule
| CarRule
| ServiceRule
| LocalityRule
| StatusRule
| PeriodRule.

Definition rules : list rule :=
  [PlateRule; CarRule; ServiceRule; LocalityRule; StatusRule; PeriodRule].

Definition field_of (r : rule) : string :=
  match r with
  | PlateRule => "plate"
  | CarRule => "car"
  | ServiceRule => "service"
  | LocalityRule => "locality"
  | StatusRule => "status"
  | PeriodRule => "period"
  end.

Definition message_of (r : rule) : string :=
  match r with
  | PlateRule => msg_plate
  | CarRule => msg_car
  | ServiceRule => msg_service
  | LocalityRule => msg_locality
  | StatusRule => msg_status
  | PeriodRule => msg_period
  end.

(** "a non-empty string after trimming". *)
Definition nonempty_text (v : value) : bool :=
  match v with
  | VStr s => negb (trim s =? "")%string
  | _ => false
  end.

(** "one of the fixed codes". *)
Definition one_of (codes : list string) (v : value) : bool :=
  match v with
  | VStr s => if in_dec string_dec s codes then true else false
  | _ => false
  end.

(** "provided (non-null/non-empty)": the key is present and its value is
    neither [null] nor the empty string. *)
Definition provided (v : value) : bool :=
  match v with
  | VUndefined | VNull => false
  | VStr s => negb (s =? "")%string
  | _ => true
  end.

(** Whether a field value meets a rule, for a given reading of "the period
    is provided". *)
Definition meets (given : value -> bool) (r : rule) (v : value) : bool :=
  match r with
  | PlateRule | CarRule | LocalityRule => nonempty_text v
  | ServiceRule => one_of services v
  | StatusRule => one_of statuses v
  | PeriodRule => negb (given v) || one_of periods v
  end.

(** The property [key] of a parsed body that is not [null]. *)
Definition field (data : value) (key : string) : value :=
  match data with
  | VObj fields => assoc key fields
  | _ => VUndefined
  end.

(** One message per violated rule, in rule order. *)
Definition violations (given : value -> bool) (data : value) : list string :=
  map message_of
      (filter (fun r => negb (meets given r (field data (field_of r)))) rules).

(** An optional text "trimmed, with empty or absent values stored as
    null". *)
Definition blank_to_null (v : value) : option string :=
  match v with
  | VStr s => if (trim s =? "")%string then None else Some (trim s)
  | _ => None
  end.

(** A value "passed through as given or null". *)
Definition given_or_null (v : value) : option string :=
  match v with
  | VStr s => if (s =? "")%string then None else Some s
  | _ => None
  end.

(** A calendar day written "YYYY-MM-DD". *)
Definition is_digit (c : ascii) : bool :=
  let n := nat_of_ascii c in ((48 <=? n) && (n <=? 57))%nat.

Definition calendar_day (s : string) : bool :=
  match s with
  | String y1 (String y2 (String y3 (String y4 (String h1
      (String m1 (String m2 (String h2
        (String d1 (String d2 EmptyString))))))))) =>
      forallb is_digit [y1; y2; y3; y4; m1; m2; d1; d2] &&
      Ascii.eqb h1 "-" && Ascii.eqb h2 "-"
  | _ => false
  end.



End Contract.

(* ================================================================== *)
(** ** Observations on a run *)
(* ================================================================== *)

(** The effects an invocation added to the trace. *)
Definition performed (w w' : world) : list effect :=
  skipn (List.length (trace w)) (trace w').

Definition is_write (e : effect) : bool :=
  match e with
  | Query (InsertRow _) | Query (UpdateRow _ _) => true
  | _ => false
  end.

Definition is_connection_effect (e : effect) : bool :=
  match e with
  | Connect _ | End => true
  | _ => false
  end.

(** Connections obtained, and connections given back, along a trace. *)
Definition acquired (tr : list effect) : nat :=
  List.length (filter (fun e => match e with Connect true => true | _ => false end) tr).

Definition released (tr : list effect) : nat :=
  List.length (filter (fun e => match e with End => true | _ => false end) tr).

(** The entity or entities a response carries. *)
Definition entities_of (r : response) : list entity :=
  match content_of r with
  | Json {| data := Some (Many l) |} => l
  | Json {| data := Some (One e) |} => [e]
  | _ => []
  end.

Definition statusCode_of (r : result response) : option Z :=
  match r with
  | Ok resp => Some (statusCode resp)
  | Throw _ => None
  end.

Definition details_of (r : response) : option detail :=
  match content_of r with
  | Json e => details e
  | Empty => None
  end.

Definition error_of (r : response) : option string :=
  match content_of r with
  | Json e => error e
  | Empty => None
  end.

(** The last segment of the path, as the handler extracts it. *)
Definition appointmentId_of (ev : event) : string :=
  let pathParts := split "/" (path ev) in
  nth (List.length pathParts - 1) pathParts "".

(** The body is read by POST, and by PUT once the path carries an id. *)
Definition reads_body (ev : event) : Prop :=
  httpMethod ev = "POST" \/
  (httpMethod ev = "PUT" /\ no_id (appointmentId_of ev) = false).

(** Whether the date of a row has an ISO rendering. *)
Definition renders (P : platform) (r : row) : bool :=
  match date r with
  | Some t =>
      match toISOString P t with
      | Ok _ => true
      | Throw _ => false
      end
  | None => true
  end.

(** An entity that shows a row: each field is the column of its name, and
    the date is the text before 'T' of the ISO rendering of the row's
    date, or [null] for a row without date. *)
Definition shows (P : platform) (e : entity) (r : row) : Prop :=
  e_id e = id r /\
  match date r with
  | Some t =>
      exists text,
        toISOString P t = Ok text /\ e_date e = Some (hd "" (split "T" text))
  | None => e_date e = None
  end /\
  e_period e = period r /\ e_plate e = plate r /\ e_car e = car r /\
  e_service e = service r /\ e_locality e = locality r /\
  e_status e = status r /\ e_notes e = notes r /\ e_extra e = extra r /\
  e_sortIndex e = sort_index r /\ e_createdAt e = created_at r /\
  e_updatedAt e = updated_at r.

(** A deployment on which a calendar day comes back as it was sent: the
    store reads the text "YYYY-MM-DD" as that day, and the [Date] the
    driver makes of it is rendered with that day, as it is where the
    function runs in UTC. *)
Definition keeps_days (P : platform) : Prop :=
  forall day t,
    Contract.calendar_day day = true -> read_date P (VStr day) = Some t ->
    exists time, toISOString P t = Ok (day ++ String "T" time).

(** The ten settable columns of a row. *)
Definition columns_of (r : row) : columns :=
  {| c_date := date r; c_period := period r; c_plate := plate r;
     c_car := car r; c_service := service r; c_locality := locality r;
     c_status := status r; c_notes := notes r; c_extra := extra r;
     c_sort_index := sort_index r |}.

(** The responses to a request without id and to an unknown id. *)
Definition missing_id : response :=
  reply 400 (failure "ID do agendamento é obrigatório" None).

Definition not_found : response :=
  reply 404 (failure "Agendamento não encontrado" None).


Section Outcomes.

Variable P : platform.

(** The response of the GET branch with the entities of a listing. *)
Definition listing (appointments : list entity) : response :=
  reply 200 {| success := true; data := Some (Many appointments);
               error := None; details := None; message := None |}.

(** The response of the catch block. *)
Definition internal_error (e : string) : response :=
  reply 500 (failure "Erro interno do servidor" (error_details P e)).

(** The response to a body that fails validation. *)
Definition invalid (errors : list string) : response :=
  reply 400 (failure "Dados inválidos" (Some (Messages errors))).

(** The responses to a successful Create and Update. *)
Definition created (e : entity) : response :=
  reply 201 {| success := true; data := Some (One e);
               error := None; details := None;
               message := Some "Agendamento criado com sucesso" |}.

Definition updated (e : entity) : response :=
  reply 200 {| success := true; data := Some (One e);
               error := None; details := None;
               message := Some "Agendamento atualizado com sucesso" |}.

(** The world in which the switch runs: connected, [client] assigned. *)
Definition connected (w : world) : world :=
  {| table := table w; clock := clock w;
     trace := (trace w ++ [Connect true])%list;
     client := Some (Connection (List.length (trace w))) |}.

(** The catch block and the finally block, applied to the outcome of the
    switch. *)
Definition settle (out : result response * world) : result response * world :=
  match out with
  | (Ok r, w) => (Ok r, log End w)
  | (Throw e, w) => (Ok (internal_error e), log End (log (ConsoleError e) w))
  end.

(** The error the store answers a statement with, if it does. *)
Definition store_error (s : statement) (t : list row) (now : Z)
  : option string :=
  match fault P s with
  | Some e => Some e
  | None =>
      match run P s t now with
      | Throw e => Some e
      | Ok _ => None
      end
  end.

End Outcomes.

(* ================================================================== *)
(** ** A deployment to run the handler on *)
(* ================================================================== *)

Module Demo.

Definition complete : value :=
  VObj [("plate", VStr " ab-12-cd "); ("car", VStr "Golf ");
        ("service", VStr "PB"); ("locality", VStr " Braga");
        ("status", VStr "VE"); ("date", VStr "2024-05-01");
        ("period", VStr "Tarde"); ("notes", VStr "  ");
        ("sortIndex", VNum 3)].

Definition without_status : value :=
  VObj [("plate", VStr "AB-12-CD"); ("car", VStr "Golf");
        ("service", VStr "PB"); ("locality", VStr "Braga")].

Definition without_plate_and_service : value :=
  VObj [("car", VStr "Golf"); ("locality", VStr "Braga");
        ("status", VStr "NE")].

Definition zero_period_no_plate : value :=
  VObj [("car", VStr "Golf"); ("service", VStr "PB");
        ("locality", VStr "Braga"); ("status", VStr "NE");
        ("period", VNum 0)].

Definition far_future : value :=
  VObj [("plate", VStr "AB-12-CD"); ("car", VStr "Golf");
        ("service", VStr "PB"); ("locality", VStr "Braga");
        ("status", VStr "NE"); ("date", VStr "300000-01-01")].

Definition with_time_of_day : value :=
  VObj [("plate", VStr "AB-12-CD"); ("car", VStr "Golf");
        ("service", VStr "PB"); ("locality", VStr "Braga");
        ("status", VStr "NE"); ("date", VStr "2024-05-01T10:30:00")].

Definition zero_sort_index : value :=
  VObj [("plate", VStr "AB-12-CD"); ("car", VStr "Golf");
        ("service", VStr "PB"); ("locality", VStr "Braga");
        ("status", VStr "NE"); ("sortIndex", VNum 0);
        ("sort_index", VNum 5)].

(** The body texts the demonstration parser knows; any other text is
    unparsable. *)
Definition bodies : list (string * value) :=
  [("complete", complete);
   ("without status", without_status);
   ("without plate and service", without_plate_and_service);
   ("zero period, no plate", zero_period_no_plate);
   ("zero sort index", zero_sort_index);
   ("with time of day", with_time_of_day);
   ("far future", far_future)].

Fixpoint lookup (text : string) (l : list (string * value)) : option value :=
  match l with
  | [] => None
  | (k, v) :: rest => if (k =? text)%string then Some v else lookup text rest
  end.

Definition may_1 : Z := 1714521600000.
Definition may_2 : Z := 1714608000000.

(** The first day of the year 300000, which a date column holds and a
    [Date] does not reach: its range ends in the year 275760. *)
Definition year_300000 : Z := 9404918380800000.

(** The date input of the demonstration store: it knows the first day of
    the year 300000 and, by the calendar day a text starts with, two days
    of May 2024. *)
Definition dates (v : value) : option Z :=
  match v with
  | VStr s =>
      if (s =? "300000-01-01")%string then Some year_300000
      else
        let day := substring 0 10 s in
        if (day =? "2024-05-01")%string then Some may_1
        else if (day =? "2024-05-02")%string then Some may_2
        else None
  | _ => None
  end.

Definition iso (t : Z) : result string :=
  if t =? may_1 then Ok "2024-05-01T00:00:00.000Z"
  else if t =? may_2 then Ok "2024-05-02T00:00:00.000Z"
  else if t =? year_300000 then Throw "Invalid time value"
  else Ok "1970-01-01T00:00:00.000Z".

Fixpoint tally (n : nat) : string :=
  match n with
  | O => ""
  | S k => String "i" (tally k)
  end.

Definition site : platform :=
  {| JSON_parse := fun text => lookup text bodies;
     NODE_ENV := Some "production";
     connect_error := None;
     fault := fun _ => None;
     read_date := dates;
     read_integer := fun _ => None;
     toISOString := iso;
     new_id := fun t => String "r" (tally (List.length t)) |}.

(** The same deployment with the store unreachable. *)
Definition site_down : platform :=
  {| JSON_parse := JSON_parse site;
     NODE_ENV := Some "development";
     connect_error := Some "connect ECONNREFUSED";
     fault := fault site;
     read_date := dates;
     read_integer := fun _ => None;
     toISOString := iso;
     new_id := new_id site |}.

(** The same deployment, in development mode, with a store that refuses
    the SELECT. *)
Definition site_failing : platform :=
  {| JSON_parse := JSON_parse site;
     NODE_ENV := Some "development";
     connect_error := None;
     fault := fun s => match s with
                       | SelectAll => Some "canceling statement due to timeout"
                       | _ => None
                       end;
     read_date := dates;
     read_integer := fun _ => None;
     toISOString := iso;
     new_id := new_id site |}.

Definition seeded (key : string) (d : option Z) (p : option string)
    (i : Z) : row :=
  {| id := key; date := d; period := p; plate := "AA-00-AA"; car := "Polo";
     service := "LT"; locality := "Porto"; status := "NE"; notes := None;
     extra := None; sort_index := i; created_at := 10; updated_at := 10 |}.

Definition rows3 : list row :=
  [seeded "a" None (Some "Tarde") 1;
   seeded "b" (Some may_1) (Some "Tarde") 1;
   seeded "c" (Some may_1) (Some "Manhã") 2].

Definition empty_world : world :=
  {| table := []; clock := 1000; trace := []; client := None |}.

Definition world3 : world :=
  {| table := rows3; clock := 1000; trace := []; client := None |}.

Definition request (method route text : string) : event :=
  {| httpMethod := method; path := route; body := text |}.

Definition list_all : event := request "GET" "/appointments" "".

Definition create (text : string) : event :=
  request "POST" "/appointments" text.

Definition update (key text : string) : event :=
  request "PUT" ("/.netlify/functions/appointments/" ++ key) text.

(** The row the store holds for [complete], created first at instant
    1000, and the entity that shows it. *)
Definition complete_row : row :=
  {| id := "r"; date := Some may_1; period := Some "Tarde";
     plate := "AB-12-CD"; car := "Golf"; service := "PB";
     locality := "Braga"; status := "VE"; notes := None; extra := None;
     sort_index := 3; created_at := 1000; updated_at := 1000 |}.

Definition complete_entity : entity :=
  {| e_id := "r"; e_date := Some "2024-05-01"; e_period := Some "Tarde";
     e_plate := "AB-12-CD"; e_car := "Golf"; e_service := "PB";
     e_locality := "Braga"; e_status := "VE"; e_notes := None;
     e_extra := None; e_sortIndex := 3; e_createdAt := 1000;
     e_updatedAt := 1000 |}.



End Demo.

(* ================================================================== *)
(** ** Rows as the handler writes them *)
(* ================================================================== *)

(** A text as [trim] leaves it, and not empty. *)
Definition clean (s : string) : bool :=
  negb (s =? "")%string && (trim s =? s)%string.

Definition clean_or_null (x : option string) : bool :=
  match x with
  | None => true
  | Some s => clean s
  end.

Definition member (codes : list string) (s : string) : bool :=
  existsb (String.eqb s) codes.

(** What validation and normalisation together let into the table. *)
Definition well_formed (r : row) : bool :=
  clean (plate r) && (toUpperCase (plate r) =? plate r)%string &&
  clean (car r) && clean (locality r) &&
  member services (service r) && member statuses (status r) &&
  match period r with
  | None => true
  | Some p => member periods p
  end &&
  clean_or_null (notes r) && clean_or_null (extra r).

(** The statements among the effects of an invocation. *)
Fixpoint statements (tr : list effect) : list statement :=
  match tr with
  | [] => []
  | Query s :: rest => s :: statements rest
  | _ :: rest => statements rest
  end.

(** The statement each branch of the switch sends, if it gets that far. *)
Definition is_statement_of (method key : string) (s : statement) : bool :=
  match s with
  | SelectAll => (method =? "GET")%string
  | InsertRow _ => (method =? "POST")%string
  | UpdateRow _ k => (method =? "PUT")%string && (k =? key)%string
  | DeleteRow k => (method =? "DELETE")%string && (k =? key)%string
  end.

Definition status_codes : list Z := [200; 201; 400; 404; 405; 500].

Definition envelope_of (r : response) : option envelope :=
  match content_of r with
  | Json e => Some e
  | Empty => None
  end.

(** The response to a successful Delete. *)
Definition deleted : response :=
  reply 200 {| success := true; data := None; error := None;
               details := None;
               message := Some "Agendamento eliminado com sucesso" |}.

(** The body a client sends to write a row's own fields back. *)
Definition carries (data : value) (r : row) : Prop :=
  Contract.field data "plate" = VStr (plate r) /\
  Contract.field data "car" = VStr (car r) /\
  Contract.field data "service" = VStr (service r) /\
  Contract.field data "locality" = VStr (locality r) /\
  Contract.field data "status" = VStr (status r) /\
  Contract.field data "period" =
    match period r with Some p => VStr p | None => VNull end /\
  Contract.field data "notes" =
    match notes r with Some s => VStr s | None => VNull end /\
  Contract.field data "extra" =
    match extra r with Some s => VStr s | None => VNull end.

(** The object [transformToBackend] returns, as a value: the ten keys of
    its object literal. *)
Definition object_of (b : backend) : value :=
  VObj [("date", b_date b); ("period", b_period b); ("plate", b_plate b);
        ("car", b_car b); ("service", b_service b);
        ("locality", b_locality b); ("status", b_status b);
        ("notes", b_notes b); ("extra", b_extra b);
        ("sort_index", b_sort_index b)].

(** The six fields the validator reads are all absent. *)
Definition fieldless (data : value) : Prop :=
  nullish data = false /\
  forall r, Contract.field data (Contract.field_of r) = VUndefined.

(** Whether [v?.trim()] can be evaluated: [v] is absent, [null] or text. *)
Definition trimmable (v : value) : bool :=
  match v with
  | VUndefined | VNull | VStr _ => true
  | _ => false
  end.

(* ================================================================== *)
(** ** More bodies for the demonstration deployment *)
(* ================================================================== *)

Module Cases.

Definition notes_as_number : value :=
  VObj [("plate", VStr "AB-12-CD"); ("car", VStr "Golf");
        ("service", VStr "PB"); ("locality", VStr "Braga");
        ("status", VStr "NE"); ("notes", VNum 5)].

Definition dated_differently : value :=
  VObj [("plate", VStr " ab-12-cd "); ("car", VStr "Golf ");
        ("service", VStr "PB"); ("locality", VStr " Braga");
        ("status", VStr "VE"); ("date", VStr "2024-05-02");
        ("period", VStr "Tarde"); ("notes", VStr "call first");
        ("sortIndex", VNum 9)].

Definition bodies : list (string * value) :=
  [("null", VNull); ("{}", VObj []); ("notes as number", notes_as_number);
   ("dated differently", dated_differently)].

(** The demonstration deployment, in development mode, knowing these
    bodies too. *)
Definition site : platform :=
  {| JSON_parse := fun text =>
       match Demo.lookup text bodies with
       | Some v => Some v
       | None => JSON_parse Demo.site text
       end;
     NODE_ENV := Some "development";
     connect_error := None;
     fault := fault Demo.site;
     read_date := read_date Demo.site;
     read_integer := read_integer Demo.site;
     toISOString := toISOString Demo.site;
     new_id := new_id Demo.site |}.

Definition remove (key : string) : event :=
  Demo.request "DELETE" ("/.netlify/functions/appointments/" ++ key) "".

(** The body that carries the fields of the second seeded row. *)
Definition row_b_sent_back : value :=
  VObj [("id", VStr "b"); ("date", VStr "2024-05-01");
        ("period", VStr "Tarde"); ("plate", VStr "AA-00-AA");
        ("car", VStr "Polo"); ("service", VStr "LT");
        ("locality", VStr "Porto"); ("status", VStr "NE");
        ("notes", VNull); ("extra", VNull); ("sortIndex", VNum 1)].

End Cases.
(* ================================================================== *)
(** ** Characters, trim and toUpperCase *)
(* ================================================================== *)

Lemma append_empty (s : string) : (s ++ "")%string = s.
Proof. induction s; simpl; congruence. Qed.

Lemma append_assoc3 (a b c : string) :
  ((a ++ b) ++ c)%string = (a ++ b ++ c)%string.
Proof. induction a; simpl; congruence. Qed.

Lemma join_app (l l' : list string) :
  join (l ++ l') = (join l ++ join l')%string.
Proof.
  induction l as [|u l IH]; simpl; [reflexivity|].
  rewrite IH, append_assoc3. reflexivity.
Qed.

Lemma join_bytes (t : string) : join (bytes t) = t.
Proof. induction t; simpl; congruence. Qed.

Lemma join_flat_map {A} (f : A -> list string) (l : list A) :
  join (flat_map f l) = join (map (fun a => join (f a)) l).
Proof.
  induction l as [|a l IH]; simpl; [reflexivity|].
  rewrite join_app, IH. reflexivity.
Qed.

Lemma continuation_byte_inv (u : string) (b : ascii) :
  continuation_byte u = Some b ->
  u = String b "" /\ continuation b = true.
Proof.
  destruct u as [|c [|d t]]; simpl; try discriminate.
  destruct (continuation c) eqn:E; [|discriminate].
  intros H. inversion H; subst. auto.
Qed.

Lemma continuation_trail (b : ascii) : continuation b = true -> trail b = 0%nat.
Proof.
  unfold continuation, trail. cbv zeta. intros H.
  apply andb_prop in H. destruct H as [_ H]. rewrite H. reflexivity.
Qed.

Lemma take_trail_inv (k : nat) (l : list string) (t : string)
    (rest : list string) :
  take_trail k l = Some (t, rest) ->
  String.length t = k /\ all_bytes continuation t = true /\
  l = (bytes t ++ rest)%list.
Proof.
  revert l t rest. induction k as [|k IH]; intros l t rest; simpl.
  - intros H. inversion H; subst. auto.
  - destruct l as [|u l]; [discriminate|].
    destruct (continuation_byte u) as [b|] eqn:Hu; [|discriminate].
    destruct (take_trail k l) as [[t' r']|] eqn:Ht; [|discriminate].
    intros H. inversion H; subst; clear H.
    destruct (IH _ _ _ Ht) as (Hl & Hc & El).
    destruct (continuation_byte_inv _ _ Hu) as [Eu Hb]. subst u l.
    simpl. rewrite Hl, Hb, Hc. auto.
Qed.

Lemma take_trail_bytes (t : string) (l : list string) :
  all_bytes continuation t = true ->
  take_trail (String.length t) (bytes t ++ l) = Some (t, l).
Proof.
  induction t as [|b t IH]; simpl; [reflexivity|].
  intros H. apply andb_prop in H. destruct H as [Hb Ht].
  rewrite Hb, (IH Ht). reflexivity.
Qed.

Lemma chars_continuation (b : ascii) (s : string) :
  continuation b = true -> chars (String b s) = String b "" :: chars s.
Proof.
  intros H. simpl. unfold cons_byte. rewrite (continuation_trail b H).
  reflexivity.
Qed.

Lemma chars_bytes (t s : string) :
  all_bytes continuation t = true ->
  chars (t ++ s) = (bytes t ++ chars s)%list.
Proof.
  induction t as [|b t IH]; [reflexivity|].
  intros H. simpl in H. apply andb_prop in H. destruct H as [Hb Ht].
  change (String b t ++ s)%string with (String b (t ++ s)).
  rewrite (chars_continuation _ _ Hb), (IH Ht). reflexivity.
Qed.

(** A whole character is cut off as it is, whatever follows. *)
Lemma chars_whole (u s : string) :
  whole u = true -> chars (u ++ s) = u :: chars s.
Proof.
  destruct u as [|b t]; [discriminate|]. simpl.
  intros H. apply andb_prop in H. destruct H as [Hl Hc].
  apply Nat.eqb_eq in Hl.
  rewrite (chars_bytes _ _ Hc). unfold cons_byte.
  rewrite <- Hl, (take_trail_bytes _ _ Hc). reflexivity.
Qed.

Lemma join_cons_byte (b : ascii) (l : list string) :
  join (cons_byte b l) = String b (join l).
Proof.
  unfold cons_byte.
  destruct (take_trail (trail b) l) as [[t rest]|] eqn:E; [|reflexivity].
  destruct (take_trail_inv _ _ _ _ E) as (_ & _ & El). subst l.
  rewrite join_app, join_bytes. reflexivity.
Qed.

(** Cutting a text into characters loses nothing. *)
Lemma join_chars (s : string) : join (chars s) = s.
Proof.
  induction s as [|b s IH]; simpl; [reflexivity|].
  rewrite join_cons_byte, IH. reflexivity.
Qed.

Lemma segmented_app (l l' : list string) :
  segmented (l ++ l') = true -> segmented l' = true.
Proof.
  induction l as [|u l IH]; simpl; [auto|].
  intros H. apply andb_prop in H. apply IH, H.
Qed.

Lemma segmented_cons_byte (b : ascii) (l : list string) :
  segmented l = true -> segmented (cons_byte b l) = true.
Proof.
  intros H. unfold cons_byte.
  destruct (take_trail (trail b) l) as [[t rest]|] eqn:E.
  - destruct (take_trail_inv _ _ _ _ E) as (Hl & Hc & El). subst l.
    simpl. rewrite Hl, Nat.eqb_refl, Hc. simpl.
    apply (segmented_app _ _ H).
  - simpl. rewrite E, H, orb_true_r. reflexivity.
Qed.

Lemma segmented_chars (s : string) : segmented (chars s) = true.
Proof.
  induction s as [|b s IH]; simpl; [reflexivity|].
  apply segmented_cons_byte, IH.
Qed.

Lemma lone_inv (u : string) (b : ascii) : lone u = Some b -> u = String b "".
Proof.
  destruct u as [|c [|d t]]; simpl; try discriminate.
  intros H. inversion H. reflexivity.
Qed.

(** Such a list is what [chars] makes of its text. *)
Lemma chars_join (l : list string) :
  segmented l = true -> chars (join l) = l.
Proof.
  induction l as [|u l IH]; simpl; [reflexivity|].
  intros H. apply andb_prop in H. destruct H as [Hu Hl].
  destruct (whole u) eqn:Cu.
  - rewrite (chars_whole _ _ Cu), (IH Hl). reflexivity.
  - simpl in Hu. destruct (lone u) as [b|] eqn:Lu; [|discriminate].
    apply lone_inv in Lu. subst u. simpl. rewrite (IH Hl).
    unfold cons_byte. destruct (take_trail (trail b) l); [discriminate|].
    reflexivity.
Qed.

Lemma segmented_characters (l : list string) :
  segmented l = true -> Forall (fun u => character u = true) l.
Proof.
  induction l as [|u l IH]; simpl; [constructor|].
  intros H. apply andb_prop in H. destruct H as [Hu Hl].
  constructor; [|apply IH, Hl]. unfold character.
  destruct (whole u); [reflexivity|]. simpl in *.
  destruct (lone u); [reflexivity|discriminate].
Qed.

Lemma character_chars (u : string) : character u = true -> chars u = [u].
Proof.
  unfold character. intros H. destruct (whole u) eqn:Cu.
  - rewrite <- (append_empty u) at 1. apply (chars_whole _ "" Cu).
  - simpl in H. destruct (lone u) as [b|] eqn:Lu; [|discriminate].
    apply lone_inv in Lu. subst u. simpl. unfold cons_byte.
    destruct (trail b); reflexivity.
Qed.

Lemma character_nonempty (u : string) : character u = true -> u <> "".
Proof. intros H E. subst u. discriminate H. Qed.

(** *** The head of a list and what precedes it *)

Lemma take_trail_app (k : nat) (l l' : list string) :
  plain_head l' = true ->
  take_trail k (l ++ l') =
  match take_trail k l with
  | Some (t, rest) => Some (t, (rest ++ l')%list)
  | None => None
  end.
Proof.
  intros Hp. revert l. induction k as [|k IH]; intros l; [reflexivity|].
  destruct l as [|u l]; simpl.
  - destruct l' as [|u' l']; [reflexivity|]. simpl in Hp. unfold plain in Hp.
    destruct (continuation_byte u'); [discriminate|reflexivity].
  - destruct (continuation_byte u); [|reflexivity].
    rewrite IH. destruct (take_trail k l) as [[t rest]|]; reflexivity.
Qed.

Lemma segmented_init (l l' : list string) :
  plain_head l' = true -> segmented (l ++ l') = true -> segmented l = true.
Proof.
  intros Hp. induction l as [|u l IH]; simpl; [reflexivity|].
  intros H. apply andb_prop in H. destruct H as [Hu Hl].
  rewrite (IH Hl), andb_true_r.
  destruct (whole u); [reflexivity|]. simpl in *.
  destruct (lone u) as [b|]; [|discriminate].
  rewrite (take_trail_app _ _ _ Hp) in Hu.
  destruct (take_trail (trail b) l) as [[t rest]|]; [discriminate|reflexivity].
Qed.

Lemma segmented_whole (l l' : list string) :
  forallb whole l = true -> segmented l' = true ->
  segmented (l ++ l') = true.
Proof.
  induction l as [|u l IH]; simpl; [auto|].
  intros H H'. apply andb_prop in H. destruct H as [Hu Hl].
  rewrite Hu, (IH Hl H'). reflexivity.
Qed.

(** *** What the tables hold *)

Lemma uppercase_sound : forallb sound_entry uppercase = true.
Proof. vm_compute. reflexivity. Qed.

Lemma white_space_sound : forallb sound_space white_space = true.
Proof. vm_compute. reflexivity. Qed.

Lemma upper_char_uncased (u : string) : cased u = false -> upper_char u = u.
Proof.
  unfold cased, upper_char. intros H.
  destruct (find _ uppercase) as [[k v]|] eqn:F; [|reflexivity].
  apply find_some in F. destruct F as [Hin Hk].
  assert (E : existsb (fun kv => (fst kv =? u)%string) uppercase = true)
    by (apply existsb_exists; eauto).
  congruence.
Qed.

Lemma upper_char_cased (u : string) :
  cased u = true -> sound_entry (u, upper_char u) = true.
Proof.
  unfold cased, upper_char. intros H.
  destruct (find _ uppercase) as [[k v]|] eqn:F.
  - apply find_some in F. destruct F as [Hin Hk]. simpl in Hk.
    apply String.eqb_eq in Hk. subst k.
    apply (proj1 (forallb_forall _ _) uppercase_sound _ Hin).
  - apply existsb_exists in H. destruct H as (x & Hin & Hx).
    rewrite (find_none _ _ F x Hin) in Hx. discriminate.
Qed.

Lemma space_sound (u : string) : is_space u = true -> sound_space u = true.
Proof.
  unfold is_space. intros H. apply existsb_exists in H.
  destruct H as (x & Hin & Hx). apply String.eqb_eq in Hx. subst x.
  apply (proj1 (forallb_forall _ _) white_space_sound _ Hin).
Qed.

Lemma steady_inv (u : string) :
  steady u = true ->
  whole u = true /\ plain u = true /\ is_space u = false /\
  cased u = false.
Proof.
  unfold steady. intros H.
  apply andb_prop in H. destruct H as [H H4].
  apply andb_prop in H. destruct H as [H H3].
  apply andb_prop in H. destruct H as [H1 H2].
  apply negb_true_iff in H3, H4. auto.
Qed.

Lemma chars_nonempty (s : string) : s <> "" -> chars s <> [].
Proof.
  intros H E. apply H. rewrite <- (join_chars s), E. reflexivity.
Qed.

(** A character either has no upper-case form of its own and stays as it
    is, or is whole and no white space, with an upper-case form made of
    characters that stay as they are. *)
Lemma upper_chars_cases (u : string) :
  character u = true ->
  (cased u = false /\ upper_char u = u /\ upper_chars u = [u]) \/
  (whole u = true /\ plain u = true /\ is_space u = false /\
   upper_chars u <> [] /\ forallb steady (upper_chars u) = true).
Proof.
  intros Hu. unfold upper_chars. destruct (cased u) eqn:C.
  - right. pose proof (upper_char_cased u C) as H. unfold sound_entry in H.
    cbn [fst snd] in H.
    apply andb_prop in H. destruct H as [H H5].
    apply andb_prop in H. destruct H as [H H4].
    apply andb_prop in H. destruct H as [H H3].
    apply andb_prop in H. destruct H as [H1 H2].
    apply negb_true_iff in H3, H4. apply String.eqb_neq in H4.
    repeat split; auto using chars_nonempty.
  - left. rewrite (upper_char_uncased u C).
    repeat split; auto using character_chars.
Qed.

Lemma space_upper_chars (u : string) :
  is_space u = true -> upper_chars u = [u].
Proof.
  intros H. pose proof (space_sound u H) as S. unfold sound_space in S.
  apply andb_prop in S. destruct S as [S S3].
  apply andb_prop in S. destruct S as [S1 S2].
  apply negb_true_iff in S3. unfold upper_chars.
  rewrite (upper_char_uncased u S3). apply character_chars. unfold character.
  rewrite S1. reflexivity.
Qed.

Lemma join_upper_chars (u : string) : join (upper_chars u) = upper_char u.
Proof. apply join_chars. Qed.

(** *** toUpperCase, character by character *)

Lemma take_trail_upper (k : nat) (l : list string) :
  Forall (fun u => character u = true) l ->
  take_trail k l = None -> take_trail k (flat_map upper_chars l) = None.
Proof.
  revert l. induction k as [|k IH]; intros l Hl; [discriminate|].
  destruct Hl as [|u l Hu Hl]; [reflexivity|]. simpl.
  destruct (upper_chars_cases u Hu) as [(_ & _ & E)|(_ & Hp & _ & Hn & Hs)].
  - rewrite E. simpl. destruct (continuation_byte u); [|reflexivity].
    destruct (take_trail k l) as [[t rest]|] eqn:T; [discriminate|].
    rewrite (IH l Hl T). reflexivity.
  - intros _. destruct (upper_chars u) as [|y ys]; [congruence|].
    simpl in Hs |- *. apply andb_prop in Hs. destruct Hs as [Hy _].
    apply steady_inv in Hy. destruct Hy as (_ & Py & _). unfold plain in Py.
    destruct (continuation_byte y); [discriminate|reflexivity].
Qed.

Lemma steady_whole (l : list string) :
  forallb steady l = true -> forallb whole l = true.
Proof.
  intros H. apply forallb_forall. intros u Hin.
  apply (proj1 (forallb_forall _ _) H) in Hin. apply steady_inv in Hin.
  tauto.
Qed.

Lemma segmented_upper (l : list string) :
  segmented l = true -> segmented (flat_map upper_chars l) = true.
Proof.
  induction l as [|u l IH]; [reflexivity|].
  intros H. pose proof (segmented_characters _ H) as Hu.
  inversion Hu as [|? ? Hu1 Hu2]; subst.
  simpl in H. apply andb_prop in H. destruct H as [H Hl]. simpl.
  destruct (upper_chars_cases u Hu1) as [(_ & _ & E)|(_ & _ & _ & _ & Hs)].
  - rewrite E. simpl. rewrite (IH Hl), andb_true_r.
    destruct (whole u); [reflexivity|]. simpl in *.
    destruct (lone u) as [b|]; [|discriminate].
    destruct (take_trail (trail b) l) eqn:T; [discriminate|].
    rewrite (take_trail_upper _ _ Hu2 T). reflexivity.
  - apply segmented_whole; [apply steady_whole, Hs|apply IH, Hl].
Qed.

Lemma chars_toUpperCase (s : string) :
  chars (toUpperCase s) = flat_map upper_chars (chars s).
Proof.
  unfold toUpperCase.
  replace (join (map upper_char (chars s)))
    with (join (flat_map upper_chars (chars s))).
  - apply chars_join, segmented_upper, segmented_chars.
  - rewrite join_flat_map. f_equal. apply map_ext. apply join_upper_chars.
Qed.

Lemma map_flat_map_list {A B C} (f : B -> C) (g : A -> list B) (l : list A) :
  map f (flat_map g l) = flat_map (fun a => map f (g a)) l.
Proof.
  induction l as [|a l IH]; simpl; [reflexivity|].
  rewrite map_app, IH. reflexivity.
Qed.

Lemma upper_char_fixed (u : string) :
  character u = true -> join (map upper_char (upper_chars u)) = upper_char u.
Proof.
  intros Hu.
  destruct (upper_chars_cases u Hu) as [(_ & E & E')|(_ & _ & _ & _ & Hs)].
  - rewrite E'. simpl. rewrite E. apply append_empty.
  - rewrite <- join_upper_chars. f_equal.
    rewrite <- (map_id (upper_chars u)) at 2. apply map_ext_in.
    intros x Hx. apply (proj1 (forallb_forall _ _) Hs) in Hx.
    apply steady_inv in Hx. apply upper_char_uncased. tauto.
Qed.

Lemma toUpperCase_idempotent (s : string) :
  toUpperCase (toUpperCase s) = toUpperCase s.
Proof.
  unfold toUpperCase at 1. rewrite chars_toUpperCase.
  rewrite map_flat_map_list, join_flat_map. unfold toUpperCase. f_equal.
  apply map_ext_in. intros u Hin. apply upper_char_fixed.
  apply (proj1 (Forall_forall _ _) (segmented_characters _ (segmented_chars s))).
  exact Hin.
Qed.

Lemma append_nonempty (a b : string) : a <> "" -> (a ++ b)%string <> "".
Proof. destruct a; simpl; [congruence|discriminate]. Qed.

Lemma toUpperCase_empty (s : string) : toUpperCase s = "" -> s = "".
Proof.
  unfold toUpperCase. intros H. rewrite <- (join_chars s).
  pose proof (segmented_characters _ (segmented_chars s)) as Hu.
  destruct Hu as [|u l Hu Hl]; [reflexivity|]. exfalso. simpl in H.
  revert H. apply append_nonempty.
  destruct (upper_chars_cases u Hu) as [(_ & E & _)|(_ & _ & _ & Hn & _)].
  - rewrite E. apply character_nonempty, Hu.
  - intros E. apply Hn. unfold upper_chars. rewrite E. reflexivity.
Qed.

(** *** trim, character by character *)

Lemma drop_spaces_split (l : list string) :
  exists p, l = (p ++ drop_spaces l)%list /\ forallb is_space p = true.
Proof.
  induction l as [|u l (p & E & Hp)]; simpl.
  - exists []. auto.
  - destruct (is_space u) eqn:Hu.
    + exists (u :: p). simpl. rewrite Hu, Hp, <- E. auto.
    + exists []. auto.
Qed.

Lemma drop_spaces_trimmed (l : list string) : trimmed (drop_spaces l) = true.
Proof.
  induction l as [|u l IH]; simpl; [reflexivity|].
  destruct (is_space u) eqn:Hu; [exact IH|]. simpl. rewrite Hu. reflexivity.
Qed.

Lemma drop_spaces_fixed (l : list string) :
  trimmed l = true -> drop_spaces l = l.
Proof.
  destruct l as [|u l]; simpl; [reflexivity|].
  intros H. apply negb_true_iff in H. rewrite H. reflexivity.
Qed.

Lemma trimmed_app (l l' : list string) :
  trimmed (l ++ l') = true -> trimmed l = true.
Proof. destruct l; simpl; auto. Qed.

Lemma forallb_rev {A} (f : A -> bool) (l : list A) :
  forallb f l = true -> forallb f (rev l) = true.
Proof.
  rewrite !forallb_forall. intros H x Hx. apply H, in_rev, Hx.
Qed.

Lemma spaces_plain_head (p : list string) :
  forallb is_space p = true -> plain_head p = true.
Proof.
  destruct p as [|u p]; simpl; [reflexivity|].
  intros H. apply andb_prop in H. destruct H as [Hu _].
  apply space_sound in Hu. unfold sound_space in Hu.
  apply andb_prop in Hu. destruct Hu as [Hu _].
  apply andb_prop in Hu. tauto.
Qed.

(** What [strip] leaves: the list is what remains between some white
    space in front and some behind. *)
Lemma strip_split (l : list string) :
  exists p q,
    l = (p ++ strip l ++ q)%list /\
    forallb is_space p = true /\ forallb is_space q = true /\
    trimmed (strip l) = true /\ trimmed (rev (strip l)) = true.
Proof.
  unfold strip.
  destruct (drop_spaces_split l) as (p & E & Hp).
  destruct (drop_spaces_split (rev (drop_spaces l))) as (q & E' & Hq).
  set (a := drop_spaces l) in *. set (c := drop_spaces (rev a)) in *.
  assert (Ea : a = (rev c ++ rev q)%list).
  { rewrite <- rev_app_distr, <- E'. symmetry. apply rev_involutive. }
  exists p, (rev q). split; [rewrite <- Ea; exact E|].
  split; [exact Hp|]. split; [apply forallb_rev, Hq|]. split.
  - apply (trimmed_app _ (rev q)). rewrite <- Ea. apply drop_spaces_trimmed.
  - rewrite rev_involutive. apply drop_spaces_trimmed.
Qed.

Lemma strip_fixed (l : list string) :
  trimmed l = true -> trimmed (rev l) = true -> strip l = l.
Proof.
  intros H H'. unfold strip.
  rewrite (drop_spaces_fixed l H), (drop_spaces_fixed _ H').
  apply rev_involutive.
Qed.

Lemma strip_strip (l : list string) : strip (strip l) = strip l.
Proof.
  destruct (strip_split l) as (p & q & _ & _ & _ & H & H').
  apply strip_fixed; assumption.
Qed.

Lemma segmented_strip (l : list string) :
  segmented l = true -> segmented (strip l) = true.
Proof.
  intros H. destruct (strip_split l) as (p & q & E & _ & Hq & _).
  rewrite E in H. apply segmented_app in H.
  apply (segmented_init _ q); [apply spaces_plain_head, Hq|exact H].
Qed.

Lemma chars_trim (s : string) : chars (trim s) = strip (chars s).
Proof. apply chars_join, segmented_strip, segmented_chars. Qed.

Lemma trim_idempotent (s : string) : trim (trim s) = trim s.
Proof.
  unfold trim at 1. rewrite chars_trim, strip_strip. reflexivity.
Qed.

(** *** trim and toUpperCase commute *)

Lemma drop_spaces_flat_map (f : string -> list string) (l : list string) :
  (forall u, In u l ->
     if is_space u then f u = [u]
     else f u <> [] /\ trimmed (f u) = true) ->
  drop_spaces (flat_map f l) = flat_map f (drop_spaces l).
Proof.
  induction l as [|u l IH]; intros H; [reflexivity|]. simpl.
  pose proof (H u (or_introl eq_refl)) as Hu.
  destruct (is_space u) eqn:Su.
  - rewrite Hu. simpl. rewrite Su. apply IH.
    intros x Hx. apply H. right. exact Hx.
  - destruct Hu as [Hn Ht]. simpl. destruct (f u) as [|y ys]; [congruence|].
    simpl in Ht |- *. apply negb_true_iff in Ht. rewrite Ht. reflexivity.
Qed.

Lemma rev_flat_map {A B} (f : A -> list B) (l : list A) :
  rev (flat_map f l) = flat_map (fun a => rev (f a)) (rev l).
Proof.
  induction l as [|a l IH]; simpl; [reflexivity|].
  rewrite rev_app_distr, IH, flat_map_app. simpl.
  rewrite app_nil_r. reflexivity.
Qed.

Lemma steady_trimmed (l : list string) :
  forallb steady l = true -> trimmed l = true.
Proof.
  destruct l as [|u l]; simpl; [reflexivity|]. intros H.
  apply andb_prop in H. destruct H as [H _]. apply steady_inv in H.
  apply negb_true_iff. tauto.
Qed.

Lemma upper_chars_space (u : string) :
  character u = true ->
  (if is_space u then upper_chars u = [u]
   else upper_chars u <> [] /\ trimmed (upper_chars u) = true) /\
  (if is_space u then rev (upper_chars u) = [u]
   else rev (upper_chars u) <> [] /\ trimmed (rev (upper_chars u)) = true).
Proof.
  intros Hu. destruct (is_space u) eqn:Su.
  - rewrite (space_upper_chars u Su). auto.
  - destruct (upper_chars_cases u Hu) as [(_ & _ & E)|(_ & _ & _ & Hn & Hs)].
    + rewrite E. simpl. rewrite Su. repeat split; discriminate.
    + repeat split; auto using steady_trimmed, forallb_rev.
      intros E. apply Hn. rewrite <- (rev_involutive (upper_chars u)), E.
      reflexivity.
Qed.

Lemma strip_upper (l : list string) :
  Forall (fun u => character u = true) l ->
  strip (flat_map upper_chars l) = flat_map upper_chars (strip l).
Proof.
  intros Hl. rewrite Forall_forall in Hl. unfold strip.
  destruct (drop_spaces_split l) as (p & E & _).
  assert (Ha : forall u, In u (drop_spaces l) -> character u = true).
  { intros u Hin. apply Hl. rewrite E. apply in_or_app. auto. }
  rewrite drop_spaces_flat_map
    by (intros u Hin; apply upper_chars_space, Hl, Hin).
  rewrite rev_flat_map.
  rewrite drop_spaces_flat_map
    by (intros u Hin; apply upper_chars_space, Ha, in_rev, Hin).
  rewrite rev_flat_map. apply flat_map_ext. intros u.
  apply rev_involutive.
Qed.

(** Upper-casing and trimming commute. *)
Lemma trim_upper (s : string) : trim (toUpperCase s) = toUpperCase (trim s).
Proof.
  unfold trim at 1. rewrite chars_toUpperCase.
  rewrite strip_upper by apply segmented_characters, segmented_chars.
  unfold toUpperCase. rewrite chars_trim, join_flat_map. f_equal.
  apply map_ext. apply join_upper_chars.
Qed.

Lemma upper_trim_nonempty (s : string) :
  trim s <> "" -> trim (toUpperCase s) <> "".
Proof.
  intros H E. rewrite trim_upper in E. apply toUpperCase_empty in E.
  contradiction.
Qed.

(* ================================================================== *)
(** ** Sort keys are totally ordered *)
(* ================================================================== *)

Section Comparisons.







End Comparisons.





(* ================================================================== *)
(** ** The SELECT returns the table, sorted *)
(* ================================================================== *)

Lemma insert_sorted_perm (r : row) (l : list row) :
  Permutation (r :: l) (insert_sorted r l).
Proof.
  induction l as [|x l IH]; simpl.
  - reflexivity.
  - destruct (before r x).
    + reflexivity.
    + rewrite perm_swap. apply perm_skip, IH.
Qed.

Lemma sort_rows_perm (l : list row) : Permutation l (sort_rows l).
Proof.
  induction l as [|r l IH]; simpl.
  - constructor.
  - rewrite <- insert_sorted_perm. apply perm_skip, IH.
Qed.





(* ================================================================== *)
(** ** Running the handler *)
(* ================================================================== *)

Ltac unfold_io :=
  unfold await, ret, lift, emit, read, set_table, set_client,
         try_catch, finally_ in *.

Ltac split_match :=
  match goal with
  | |- context [match ?x with _ => _ end] => destruct x eqn:?
  | H : context [match ?x with _ => _ end] |- _ => destruct x eqn:?
  end.

Ltac invert_pairs :=
  repeat match goal with
  | H : (_, _) = (_, _) |- _ => inversion H; clear H; subst
  | H : Ok _ = Ok _ |- _ => inversion H; clear H; subst
  | H : Ok _ = Throw _ |- _ => discriminate H
  | H : Throw _ = Ok _ |- _ => discriminate H
  | H : Throw _ = Throw _ |- _ => inversion H; clear H; subst
  end.

Lemma skipn_app_exact {A} (l l' : list A) :
  skipn (List.length l) (l ++ l') = l'.
Proof. induction l; simpl; auto. Qed.

Section Switch.

Variable P : platform.

Lemma client_query_eq (c : Client) (s : statement) (w : world) :
  client_query P c s w =
  match fault P s with
  | Some e => (Throw e, log (Query s) w)
  | None =>
      match run P s (table w) (clock w) with
      | Ok (rows, t) =>
          (Ok rows, {| table := t; clock := clock w;
                       trace := (trace w ++ [Query s])%list;
                       client := client w |})
      | Throw e => (Throw e, log (Query s) w)
      end
  end.
Proof.
  unfold client_query. unfold_io. unfold log.
  destruct (fault P s); [reflexivity|]. cbn.
  destruct (run P s (table w) (clock w)) as [[rows t]|e]; reflexivity.
Qed.

(** The switch leaves [client] and the clock alone and performs at most
    one effect, a query. *)
Lemma dispatch_frame (c : Client) (m key : string) (ev : event)
    (w w' : world) (r : result response) :
  dispatch P c m key ev w = (r, w') ->
  client w' = client w /\ clock w' = clock w /\
  ((trace w' = trace w /\ table w' = table w) \/
   exists s, trace w' = (trace w ++ [Query s])%list).
Proof.
  unfold dispatch, list_branch, create_branch, update_branch, delete_branch,
         parse, first_row.
  unfold_io.
  repeat (rewrite client_query_eq || split_match || simpl in * );
    intros E; invert_pairs; simpl; eauto 6.
Qed.


Lemma dispatch_rejects_early (c : Client) (m key : string) (ev : event)
    (w w' : world) (r : response) :
  dispatch P c m key ev w = (Ok r, w') -> statusCode r = 400 -> w' = w.
Proof.
  unfold dispatch, list_branch, create_branch, update_branch, delete_branch,
         parse, first_row.
  unfold_io.
  repeat (rewrite client_query_eq || split_match || simpl in * );
    intros E; invert_pairs; simpl; intros; congruence.
Qed.

Lemma not_preflight (ev : event) :
  httpMethod ev <> "OPTIONS" -> (httpMethod ev =? "OPTIONS")%string = false.
Proof. intros H. apply String.eqb_neq, H. Qed.

Lemma handler_preflight (ev : event) (w : world) :
  httpMethod ev = "OPTIONS" ->
  handler P ev w =
  (Ok {| statusCode := 200; headers := corsHeaders; content_of := Empty |}, w).
Proof. intros H. unfold handler. rewrite H. reflexivity. Qed.

Lemma handler_unreachable (ev : event) (w : world) (e : string) :
  httpMethod ev <> "OPTIONS" -> connect_error P = Some e ->
  handler P ev w =
  (Ok (internal_error P e),
   {| table := table w; clock := clock w;
      trace := (trace w ++ [Connect false; ConsoleError e])%list;
      client := None |}).
Proof.
  intros H He. unfold handler, connectDB, on_error, release.
  rewrite (not_preflight ev H), He. unfold_io. unfold log. cbn.
  rewrite <- app_assoc. reflexivity.
Qed.

Lemma handler_connected (ev : event) (w : world) :
  httpMethod ev <> "OPTIONS" -> connect_error P = None ->
  handler P ev w =
  settle P (dispatch P (Connection (List.length (trace w))) (httpMethod ev)
                   (appointmentId_of ev) ev (connected w)).
Proof.
  intros H He. unfold handler, connectDB, on_error, release.
  rewrite (not_preflight ev H), He. unfold_io. cbn.
  fold (appointmentId_of ev). fold (connected w).
  destruct (dispatch P (Connection (List.length (trace w))) (httpMethod ev)
                     (appointmentId_of ev) ev (connected w))
    as [[r|e] w1] eqn:D;
    apply dispatch_frame in D; destruct D as (Hc & _ & _);
    simpl in Hc; unfold settle; cbn; rewrite Hc; reflexivity.
Qed.

End Switch.

(* ================================================================== *)
(** ** transformToFrontend and the rows it can render *)
(* ================================================================== *)

Section Rendering.

Variable P : platform.

Lemma transformToFrontend_shows (r : row) (e : entity) :
  transformToFrontend P r = Ok e -> shows P e r.
Proof.
  unfold transformToFrontend, iso_day, shows.
  destruct (date r) as [t|]; simpl.
  - destruct (toISOString P t) as [text|m]; simpl; [|discriminate].
    intros E. inversion E; subst; clear E. simpl.
    repeat split; eauto.
  - intros E. inversion E; subst; clear E. simpl. repeat split.
Qed.

(** [shows] is what [transformToFrontend] computes, no more and no less. *)
Lemma shows_transformToFrontend (r : row) (e : entity) :
  shows P e r -> transformToFrontend P r = Ok e.
Proof.
  unfold transformToFrontend, iso_day, shows. destruct e. simpl.
  intros (E1 & Ed & E2 & E3 & E4 & E5 & E6 & E7 & E8 & E9 & E10 & E11 & E12).
  subst. destruct (date r) as [t|].
  - destruct Ed as (text & Ht & Ed). rewrite Ht. simpl. rewrite Ed.
    reflexivity.
  - rewrite Ed. reflexivity.
Qed.

Lemma transformToFrontend_renders (r : row) :
  renders P r = true <-> exists e, transformToFrontend P r = Ok e.
Proof.
  unfold transformToFrontend, iso_day, renders.
  destruct (date r) as [t|]; simpl.
  - destruct (toISOString P t) as [text|m]; simpl; split; eauto;
      try discriminate.
    intros [e E]. discriminate E.
  - split; eauto.
Qed.

Lemma transformToFrontend_throws (r : row) :
  renders P r = false <-> exists m, transformToFrontend P r = Throw m.
Proof.
  unfold transformToFrontend, iso_day, renders.
  destruct (date r) as [t|]; simpl.
  - destruct (toISOString P t) as [text|m]; simpl; split; eauto;
      try discriminate.
    intros [e E]. discriminate E.
  - split; [discriminate|]. intros [e E]. discriminate E.
Qed.

(** The listing of rows that all render shows them, one entity per row
    and in their order. *)
Lemma map_result_shows (rows : list row) (entities : list entity) :
  map_result (transformToFrontend P) rows = Ok entities ->
  Forall2 (shows P) entities rows.
Proof.
  revert entities. induction rows as [|r rows IH]; simpl; intros entities.
  - intros E. inversion E. constructor.
  - destruct (transformToFrontend P r) as [e|m] eqn:Er; simpl;
      [|discriminate].
    destruct (map_result (transformToFrontend P) rows) as [es|m]; simpl;
      [|discriminate].
    intros E. inversion E; subst. constructor; auto.
    apply transformToFrontend_shows, Er.
Qed.

Lemma map_result_renders (rows : list row) :
  forallb (renders P) rows = true <->
  exists entities, map_result (transformToFrontend P) rows = Ok entities.
Proof.
  induction rows as [|r rows IH]; simpl.
  - split; eauto.
  - rewrite andb_true_iff, IH, transformToFrontend_renders. split.
    + intros [[e Er] [es Es]]. rewrite Er, Es. simpl. eauto.
    + destruct (transformToFrontend P r) as [e|m]; simpl.
      * destruct (map_result (transformToFrontend P) rows) as [es|m];
          simpl; [eauto|]. intros [x E]. discriminate E.
      * intros [x E]. discriminate E.
Qed.


Lemma map_result_in (rows : list row) (entities : list entity) (r : row)
    (e : entity) :
  map_result (transformToFrontend P) rows = Ok entities ->
  In r rows -> transformToFrontend P r = Ok e -> In e entities.
Proof.
  revert entities. induction rows as [|r0 rows IH]; simpl; intros entities;
    [contradiction|].
  destruct (transformToFrontend P r0) as [e0|m] eqn:E0; simpl;
    [|discriminate].
  destruct (map_result (transformToFrontend P) rows) as [es|m]; simpl;
    [|discriminate].
  intros E [Hr|Hr] He; inversion E; subst.
  - left. congruence.
  - right. eauto.
Qed.

Lemma forallb_permutation {A} (f : A -> bool) (l l' : list A) :
  Permutation l l' -> forallb f l = forallb f l'.
Proof.
  intros H. induction H; simpl; try congruence.
  destruct (f x), (f y); reflexivity.
Qed.

Lemma renders_sorted (t : list row) :
  forallb (renders P) (sort_rows t) = forallb (renders P) t.
Proof. symmetry. apply forallb_permutation, sort_rows_perm. Qed.

End Rendering.

Section Requests.

Variable P : platform.

Lemma list_branch_eq (c : Client) (w : world) :
  list_branch P c w =
  match fault P SelectAll with
  | Some e => (Throw e, log (Query SelectAll) w)
  | None =>
      match map_result (transformToFrontend P) (sort_rows (table w)) with
      | Ok appointments =>
          (Ok (listing appointments), log (Query SelectAll) w)
      | Throw e => (Throw e, log (Query SelectAll) w)
      end
  end.
Proof.
  unfold list_branch. unfold_io. rewrite client_query_eq.
  destruct (fault P SelectAll); [reflexivity|]. simpl.
  destruct (map_result _ _); reflexivity.
Qed.

Lemma get_outcome (ev : event) (w : world) :
  httpMethod ev = "GET" -> connect_error P = None ->
  fault P SelectAll = None ->
  handler P ev w =
  settle P
    match map_result (transformToFrontend P) (sort_rows (table w)) with
    | Ok appointments =>
        (Ok (listing appointments), log (Query SelectAll) (connected w))
    | Throw e => (Throw e, log (Query SelectAll) (connected w))
    end.
Proof.
  intros Hm Hc Hf. rewrite handler_connected; auto.
  - rewrite Hm. unfold dispatch. simpl. rewrite list_branch_eq, Hf.
    reflexivity.
  - rewrite Hm. discriminate.
Qed.

(** A GET of a table whose dates all render lists it. *)
Lemma get_listing (ev : event) (w : world) :
  httpMethod ev = "GET" -> connect_error P = None ->
  fault P SelectAll = None -> forallb (renders P) (table w) = true ->
  exists entities,
    handler P ev w =
      (Ok (listing entities),
       log End (log (Query SelectAll) (connected w))) /\
    map_result (transformToFrontend P) (sort_rows (table w)) = Ok entities /\
    Forall2 (shows P) entities (sort_rows (table w)).
Proof.
  intros Hm Hc Hf Hr. rewrite get_outcome by assumption.
  rewrite <- renders_sorted in Hr. apply map_result_renders in Hr.
  destruct Hr as [entities E]. rewrite E. exists entities.
  split; [reflexivity|]. split; [reflexivity|].
  apply map_result_shows, E.
Qed.




(** C6.  A request answered with 400 leaves the table as it found it and
    sends the store neither an INSERT nor an UPDATE. *)
Theorem C6_rejected_request_writes_nothing (ev : event) (w w' : world)
    (resp : response) :
  handler P ev w = (Ok resp, w') -> statusCode resp = 400 ->
  table w' = table w /\ existsb is_write (performed w w') = false.
Proof.
  intros H S.
  destruct (string_dec (httpMethod ev) "OPTIONS") as [Ho|Ho].
  - rewrite handler_preflight in H by assumption.
    inversion H; subst. discriminate S.
  - destruct (connect_error P) as [e|] eqn:Hc.
    + rewrite (handler_unreachable _ _ _ e) in H by assumption.
      inversion H; subst. discriminate S.
    + rewrite handler_connected in H by assumption.
      destruct (dispatch P _ _ _ _ _) as [[r|e] w1] eqn:D;
        simpl in H; inversion H; subst; [|discriminate S].
      apply dispatch_rejects_early in D; [|assumption]. subst w1.
      split; [reflexivity|]. unfold performed, log, connected. simpl.
      rewrite <- app_assoc, skipn_app_exact. reflexivity.
Qed.

(** A method outside the five the switch and the preflight know is
    answered 405. *)
Lemma unsupported_method (ev : event) (w : world) :
  ~ In (httpMethod ev) ["OPTIONS"; "GET"; "POST"; "PUT"; "DELETE"] ->
  connect_error P = None ->
  fst (handler P ev w) = Ok (reply 405 (failure "Método não permitido" None)).
Proof.
  intros Hm Hc. simpl in Hm.
  assert (Ho : httpMethod ev <> "OPTIONS") by intuition.
  rewrite handler_connected by assumption. unfold dispatch.
  assert (E1 : (httpMethod ev =? "GET")%string = false)
    by (apply String.eqb_neq; intuition).
  assert (E2 : (httpMethod ev =? "POST")%string = false)
    by (apply String.eqb_neq; intuition).
  assert (E3 : (httpMethod ev =? "PUT")%string = false)
    by (apply String.eqb_neq; intuition).
  assert (E4 : (httpMethod ev =? "DELETE")%string = false)
    by (apply String.eqb_neq; intuition).
  rewrite E1, E2, E3, E4. reflexivity.
Qed.

(** The handler always answers: no exception leaves it. *)
Lemma handler_answers (ev : event) (w : world) :
  exists resp w', handler P ev w = (Ok resp, w').
Proof.
  destruct (string_dec (httpMethod ev) "OPTIONS") as [Ho|Ho].
  - rewrite handler_preflight by assumption. eauto.
  - destruct (connect_error P) as [e|] eqn:Hc.
    + rewrite (handler_unreachable _ _ _ e) by assumption. eauto.
    + rewrite handler_connected by assumption.
      destruct (dispatch P _ _ _ _ _) as [[r|e] w1]; simpl; eauto.
Qed.

(** C9, as the code has it.  Every invocation other than OPTIONS answers
    and makes one attempt to connect, first of all.  When the attempt
    succeeds, that one connection is ended exactly once, as the last
    effect of the invocation, whatever the switch did in between
    (answered, rejected, or threw).  When the attempt fails no connection
    is held and none is ended; the answer is 500. *)
Theorem C9_connection_is_scoped (ev : event) (w : world) :
  httpMethod ev <> "OPTIONS" ->
  exists resp w',
    handler P ev w = (Ok resp, w') /\
    (connect_error P = None ->
     exists mid,
       performed w w' = Connect true :: mid ++ [End] /\
       existsb is_connection_effect mid = false) /\
    (forall e, connect_error P = Some e ->
       performed w w' = [Connect false; ConsoleError e] /\
       statusCode resp = 500).
Proof.
  intros Ho. destruct (connect_error P) as [e|] eqn:Hc.
  - do 2 eexists. split; [apply (handler_unreachable _ _ _ e); assumption|].
    split; [discriminate|]. intros e' E. inversion E; subst e'.
    unfold performed. simpl. rewrite skipn_app_exact. auto.
  - rewrite handler_connected by assumption.
    destruct (dispatch P _ _ _ _ _) as [[r|e] w1] eqn:D;
      apply dispatch_frame in D; destruct D as (_ & _ & D);
      simpl; do 2 eexists; (split; [reflexivity|]);
      (split; [intros _|discriminate]);
      unfold performed; simpl in *.
    + destruct D as [[Ht _]|[s Ht]]; rewrite Ht, <- ?app_assoc, skipn_app_exact.
      * exists []. auto.
      * exists [Query s]. auto.
    + destruct D as [[Ht _]|[s Ht]]; rewrite Ht, <- ?app_assoc, skipn_app_exact.
      * exists [ConsoleError e]. auto.
      * exists [Query s; ConsoleError e]. auto.
Qed.

End Requests.

(* ================================================================== *)
(** ** validateAppointment reports every violated rule *)
(* ================================================================== *)

Lemma get_field (data : value) (key : string) :
  nullish data = false -> get data key = Ok (Contract.field data key).
Proof. destruct data; simpl; intros; congruence. Qed.

Lemma get_nullish (data : value) (key : string) :
  nullish data = true -> exists e, get data key = Throw e.
Proof. destruct data; simpl; intros; try discriminate; eauto. Qed.

Lemma includes_one_of (codes : list string) (v : value) :
  includes codes v = Contract.one_of codes v.
Proof.
  destruct v; simpl; auto.
  destruct (in_dec string_dec s codes) as [Hin|Hout].
  - apply existsb_exists. exists s. split; [assumption|apply String.eqb_refl].
  - destruct (existsb (String.eqb s) codes) eqn:E; [|reflexivity].
    apply existsb_exists in E. destruct E as (x & Hx & Ex).
    apply String.eqb_eq in Ex. subst x. contradiction.
Qed.

Lemma one_of_truthy (codes : list string) (v : value) :
  ~ In "" codes -> Contract.one_of codes v = true -> truthy v = true.
Proof.
  destruct v; simpl; try discriminate.
  destruct (in_dec string_dec s codes); [|discriminate].
  intros Hn _. destruct (String.eqb_spec s ""); [subst; contradiction|auto].
Qed.

Lemma length_zero_empty (s : string) :
  (String.length s =? 0)%nat = (s =? "")%string.
Proof. destruct s; reflexivity. Qed.

Lemma not_text_nonempty (v : value) :
  not_text v = negb (Contract.nonempty_text v).
Proof.
  destruct v; unfold not_text; simpl; rewrite ?orb_true_r; try reflexivity.
  rewrite length_zero_empty.
  destruct (String.eqb_spec s ""); simpl.
  - subst. reflexivity.
  - destruct (trim s =? "")%string; reflexivity.
Qed.

Lemma code_condition (codes : list string) (v : value) :
  ~ In "" codes ->
  negb (truthy v) || negb (includes codes v) = negb (Contract.one_of codes v).
Proof.
  intros Hn. rewrite includes_one_of.
  destruct (Contract.one_of codes v) eqn:E; simpl.
  - rewrite (one_of_truthy _ _ Hn E). reflexivity.
  - apply orb_true_r.
Qed.

Lemma period_condition (v : value) :
  truthy v && negb (includes periods v) =
  negb (Contract.meets truthy Contract.PeriodRule v).
Proof.
  simpl. rewrite includes_one_of.
  destruct (truthy v), (Contract.one_of periods v); reflexivity.
Qed.

Lemma no_blank_service : ~ In "" services.
Proof. simpl. intuition discriminate. Qed.

Lemma no_blank_status : ~ In "" statuses.
Proof. simpl. intuition discriminate. Qed.

(** The validator, on any body other than [null], returns the messages of
    the violated rules, where the period rule binds a truthy period. *)
Lemma validate_violations (data : value) :
  nullish data = false ->
  validateAppointment data = Ok (Contract.violations truthy data).
Proof.
  intros Hd. unfold validateAppointment.
  rewrite !(get_field _ _ Hd). simpl.
  rewrite !not_text_nonempty, !code_condition, period_condition
    by (apply no_blank_service || apply no_blank_status).
  unfold Contract.violations, Contract.rules. simpl.
  destruct (Contract.nonempty_text (Contract.field data "plate")),
           (Contract.nonempty_text (Contract.field data "car")),
           (Contract.one_of services (Contract.field data "service")),
           (Contract.nonempty_text (Contract.field data "locality")),
           (Contract.one_of statuses (Contract.field data "status")),
           (negb (truthy (Contract.field data "period"))
            || Contract.one_of periods (Contract.field data "period"));
    reflexivity.
Qed.

Lemma validate_null (data : value) :
  nullish data = true -> exists e, validateAppointment data = Throw e.
Proof.
  intros Hd. unfold validateAppointment.
  destruct (get_nullish data "plate" Hd) as [e He]. rewrite He.
  simpl. eauto.
Qed.

(* ================================================================== *)
(** ** The Create and Update branches, case by case *)
(* ================================================================== *)

Lemma positive_length {A} (l : list A) :
  (0 <? List.length l)%nat = false <-> l = [].
Proof. destruct l; cbn; split; intros; try reflexivity; discriminate. Qed.

Section Branches.

Variable P : platform.

Lemma create_unparsable (c : Client) (ev : event) (w : world) :
  JSON_parse P (body ev) = None ->
  create_branch P c ev w = (Throw "Unexpected token in JSON", w).
Proof.
  intros Hp. unfold create_branch, parse. rewrite Hp. reflexivity.
Qed.

Lemma create_invalid (c : Client) (ev : event) (w : world)
    (data : value) (errors : list string) :
  JSON_parse P (body ev) = Some data ->
  validateAppointment data = Ok errors -> errors <> [] ->
  create_branch P c ev w = (Ok (invalid errors), w).
Proof.
  intros Hp Hv Hne. unfold create_branch, parse. rewrite Hp.
  unfold_io. rewrite Hv.
  destruct errors; [congruence|reflexivity].
Qed.


Lemma update_unparsable (c : Client) (key : string) (ev : event) (w : world) :
  no_id key = false -> JSON_parse P (body ev) = None ->
  update_branch P c key ev w = (Throw "Unexpected token in JSON", w).
Proof.
  intros Hk Hp. unfold update_branch, parse. rewrite Hk, Hp. reflexivity.
Qed.

Lemma update_invalid (c : Client) (key : string) (ev : event) (w : world)
    (data : value) (errors : list string) :
  no_id key = false ->
  JSON_parse P (body ev) = Some data ->
  validateAppointment data = Ok errors -> errors <> [] ->
  update_branch P c key ev w = (Ok (invalid errors), w).
Proof.
  intros Hk Hp Hv Hne. unfold update_branch, parse. rewrite Hk, Hp.
  unfold_io. rewrite Hv.
  destruct errors; [congruence|reflexivity].
Qed.

(** A Create that answers 201 parsed, validated and transformed its body,
    bound the parameters and appended the new row. *)
Lemma create_accepted (c : Client) (ev : event) (w w' : world)
    (resp : response) :
  create_branch P c ev w = (Ok resp, w') -> statusCode resp = 201 ->
  exists data b cols e,
    JSON_parse P (body ev) = Some data /\
    validateAppointment data = Ok [] /\
    transformToBackend data = Ok b /\
    bind_parameters P b = Ok cols /\
    transformToFrontend P (new_row cols (new_id P (table w)) (clock w))
      = Ok e /\
    resp = created e /\
    table w' =
      (table w ++ [new_row cols (new_id P (table w)) (clock w)])%list.
Proof.
  unfold create_branch, parse, first_row. unfold_io.
  destruct (JSON_parse P (body ev)) as [data|]; [|discriminate].
  destruct (validateAppointment data) as [errors|] eqn:Hv; [|discriminate].
  destruct (0 <? List.length errors)%nat eqn:Hl.
  { intros E S. inversion E; subst. discriminate S. }
  apply positive_length in Hl. subst errors.
  destruct (transformToBackend data) as [b|] eqn:Hb; [|discriminate].
  rewrite client_query_eq.
  destruct (fault P (InsertRow b)); [discriminate|].
  simpl. destruct (bind_parameters P b) as [cols|] eqn:Hc; [|discriminate].
  simpl.
  destruct (transformToFrontend P _) as [e|] eqn:He; [|discriminate].
  intros E _. inversion E; subst.
  exists data, b, cols, e. repeat split; auto.
Qed.

(** An Update that answers 200 did the same and rewrote the rows of that
    id, of which there is at least one. *)
Lemma update_accepted (c : Client) (key : string) (ev : event)
    (w w' : world) (resp : response) :
  update_branch P c key ev w = (Ok resp, w') -> statusCode resp = 200 ->
  exists data b cols r rest e,
    no_id key = false /\
    JSON_parse P (body ev) = Some data /\
    validateAppointment data = Ok [] /\
    transformToBackend data = Ok b /\
    bind_parameters P b = Ok cols /\
    filter (has_id key) (update_rows cols key (clock w) (table w))
      = r :: rest /\
    transformToFrontend P r = Ok e /\
    resp = updated e /\
    table w' = update_rows cols key (clock w) (table w).
Proof.
  unfold update_branch, parse, first_row. unfold_io.
  destruct (no_id key) eqn:Hk.
  { intros E S. inversion E; subst. discriminate S. }
  destruct (JSON_parse P (body ev)) as [data|]; [|discriminate].
  destruct (validateAppointment data) as [errors|] eqn:Hv; [|discriminate].
  destruct (0 <? List.length errors)%nat eqn:Hl.
  { intros E S. inversion E; subst. discriminate S. }
  apply positive_length in Hl. subst errors.
  destruct (transformToBackend data) as [b|] eqn:Hb; [|discriminate].
  rewrite client_query_eq.
  destruct (fault P (UpdateRow b key)); [discriminate|].
  simpl. destruct (bind_parameters P b) as [cols|] eqn:Hc; [|discriminate].
  simpl.
  destruct (filter (has_id key) (update_rows cols key (clock w) (table w)))
    as [|r rest] eqn:Hf; simpl.
  { intros E S. inversion E; subst. discriminate S. }
  destruct (transformToFrontend P r) as [e|] eqn:He; [|discriminate].
  intros E _. inversion E; subst.
  exists data, b, cols, r, rest, e. repeat split; auto.
Qed.

(** The same at the level of the handler. *)
Lemma handler_switch (ev : event) (w w' : world) (resp : response) :
  handler P ev w = (Ok resp, w') -> statusCode resp <> 500 ->
  httpMethod ev <> "OPTIONS" ->
  connect_error P = None /\
  exists w1,
    dispatch P (Connection (List.length (trace w))) (httpMethod ev)
             (appointmentId_of ev) ev (connected w) = (Ok resp, w1) /\
    w' = log End w1.
Proof.
  intros H S Ho. destruct (connect_error P) as [e|] eqn:Hc.
  - rewrite (handler_unreachable _ _ _ e) in H by assumption.
    inversion H; subst. exfalso. apply S. reflexivity.
  - split; [reflexivity|].
    rewrite handler_connected in H by assumption.
    destruct (dispatch P _ _ _ _ _) as [[r|e] w1] eqn:D;
      simpl in H; inversion H; subst.
    + exists w1. auto.
    + exfalso. apply S. reflexivity.
Qed.

End Branches.

(* ================================================================== *)
(** ** What an accepted body looks like, and what is stored for it *)
(* ================================================================== *)

Lemma filter_nil {A} (f : A -> bool) (l : list A) :
  filter f l = [] -> forall x, In x l -> f x = false.
Proof.
  induction l as [|a l IH]; simpl; [contradiction|].
  destruct (f a) eqn:E; [discriminate|].
  intros H x [Hx|Hx]; subst; auto.
Qed.

(** A body passes validation exactly when it is an object (or a primitive,
    which then violates the rules) meeting all six rules. *)
Lemma valid_meets (data : value) :
  validateAppointment data = Ok [] ->
  nullish data = false /\
  forall r, Contract.meets truthy r (Contract.field data (Contract.field_of r))
            = true.
Proof.
  intros H. destruct (nullish data) eqn:Hn.
  - destruct (validate_null data Hn) as [e He]. congruence.
  - split; [reflexivity|]. rewrite validate_violations in H by assumption.
    inversion H as [Hv]. unfold Contract.violations in Hv.
    apply map_eq_nil in Hv. intros r.
    pose proof (filter_nil _ _ Hv r) as Hr.
    apply negb_false_iff, Hr. destruct r; simpl; auto 10.
Qed.

Lemma nonempty_text_inv (v : value) :
  Contract.nonempty_text v = true ->
  exists s, v = VStr s /\ trim s <> "".
Proof.
  destruct v; simpl; try discriminate. intros H. exists s. split; auto.
  apply negb_true_iff, String.eqb_neq in H. exact H.
Qed.

Lemma one_of_inv (codes : list string) (v : value) :
  Contract.one_of codes v = true -> exists s, v = VStr s /\ In s codes.
Proof.
  destruct v; simpl; try discriminate.
  destruct (in_dec string_dec s codes); [eauto|discriminate].
Qed.

(** The fields of the record [transformToBackend] builds. *)
Lemma transform_fields (data : value) (b : backend) :
  nullish data = false -> transformToBackend data = Ok b ->
  let f := Contract.field data in
  b_date b = or_else (f "date") VNull /\
  b_period b = or_else (f "period") VNull /\
  opt_upper_trim "plate" (f "plate") = Ok (b_plate b) /\
  opt_trim "car" (f "car") = Ok (b_car b) /\
  b_service b = f "service" /\
  opt_trim "locality" (f "locality") = Ok (b_locality b) /\
  b_status b = or_else (f "status") (VStr "NE") /\
  (exists n, opt_trim "notes" (f "notes") = Ok n /\
             b_notes b = or_else n VNull) /\
  (exists x, opt_trim "extra" (f "extra") = Ok x /\
             b_extra b = or_else x VNull) /\
  b_sort_index b =
    or_else (or_else (f "sortIndex") (f "sort_index")) (VNum 1).
Proof.
  intros Hd. unfold transformToBackend. rewrite !(get_field _ _ Hd).
  cbn [bind].
  destruct (opt_upper_trim "plate" _) as [pl|]; [|discriminate]. cbn [bind].
  destruct (opt_trim "car" _) as [ca|]; [|discriminate]. cbn [bind].
  destruct (opt_trim "locality" _) as [lo|]; [|discriminate]. cbn [bind].
  destruct (opt_trim "notes" _) as [no|]; [|discriminate]. cbn [bind].
  destruct (opt_trim "extra" _) as [ex|]; [|discriminate]. cbn [bind].
  intros E. inversion E; subst; clear E. cbn.
  repeat split; eauto.
Qed.

(** The first piece [split] returns does not contain the separator. *)
Lemma has_char_append (c x : ascii) (s : string) :
  has_char c (s ++ String x EmptyString) = has_char c s || Ascii.eqb x c.
Proof.
  induction s as [|y s IH]; simpl.
  - apply orb_false_r.
  - rewrite IH. apply orb_assoc.
Qed.

Lemma split_head_free (sep : ascii) (s acc : string) :
  has_char sep acc = false ->
  has_char sep (hd "" (split_acc sep acc s)) = false.
Proof.
  revert acc. induction s as [|c s IH]; intros acc Hacc; simpl.
  - exact Hacc.
  - destruct (Ascii.eqb c sep) eqn:E; simpl.
    + exact Hacc.
    + apply IH. rewrite has_char_append, Hacc, E. reflexivity.
Qed.

Section Stored.

Variable P : platform.

(** The columns bound for a record. *)
Lemma bind_parameters_inv (b : backend) (cols : columns) :
  bind_parameters P b = Ok cols ->
  date_column_in P (b_date b) = Ok (c_date cols) /\
  nullable_text_in "period" (b_period b) = Ok (c_period cols) /\
  text_in "plate" (b_plate b) = Ok (c_plate cols) /\
  text_in "car" (b_car b) = Ok (c_car cols) /\
  text_in "service" (b_service b) = Ok (c_service cols) /\
  text_in "locality" (b_locality b) = Ok (c_locality cols) /\
  text_in "status" (b_status b) = Ok (c_status cols) /\
  nullable_text_in "notes" (b_notes b) = Ok (c_notes cols) /\
  nullable_text_in "extra" (b_extra b) = Ok (c_extra cols) /\
  integer_in P "sort_index" (b_sort_index b) = Ok (c_sort_index cols).
Proof.
  unfold bind_parameters.
  destruct (date_column_in P _); [|discriminate]. cbn [bind].
  destruct (nullable_text_in "period" _); [|discriminate]. cbn [bind].
  destruct (text_in "plate" _); [|discriminate]. cbn [bind].
  destruct (text_in "car" _); [|discriminate]. cbn [bind].
  destruct (text_in "service" _); [|discriminate]. cbn [bind].
  destruct (text_in "locality" _); [|discriminate]. cbn [bind].
  destruct (text_in "status" _); [|discriminate]. cbn [bind].
  destruct (nullable_text_in "notes" _); [|discriminate]. cbn [bind].
  destruct (nullable_text_in "extra" _); [|discriminate]. cbn [bind].
  destruct (integer_in P "sort_index" _); [|discriminate]. cbn [bind].
  intros E. inversion E; subst. cbn. repeat split.
Qed.

Lemma text_in_inv (column : string) (v : value) (s : string) :
  text_in column v = Ok s -> v = VStr s.
Proof. destruct v; simpl; congruence. Qed.

(** An optional text: trimmed, blank or absent stored as NULL. *)
Lemma optional_text_stored (name column : string) (v n : value)
    (x : option string) :
  opt_trim name v = Ok n ->
  nullable_text_in column (or_else n VNull) = Ok x ->
  x = Contract.blank_to_null v.
Proof.
  destruct v; simpl; try discriminate; intros E; inversion E; subst;
    unfold or_else; simpl; try congruence.
  destruct (trim s =? "")%string; simpl; congruence.
Qed.

(** A value handed on as given, a falsy one as NULL. *)
Lemma period_stored (v : value) (x : option string) :
  nullable_text_in "period" (or_else v VNull) = Ok x ->
  x = Contract.given_or_null v.
Proof.
  unfold or_else. destruct v; simpl; try congruence.
  - destruct b; simpl; congruence.
  - destruct (n =? 0); simpl; congruence.
  - destruct (s =? "")%string; simpl; congruence.
Qed.

(** The date column: NULL for a falsy date, else what the store reads. *)
Lemma date_stored (v : value) (d : option Z) :
  date_column_in P (or_else v VNull) = Ok d ->
  (truthy v = false -> d = None) /\
  (truthy v = true -> exists t, read_date P v = Some t /\ d = Some t).
Proof.
  unfold or_else. intros E. destruct (truthy v) eqn:Tv.
  - split; [discriminate|]. intros _.
    destruct v; simpl in Tv; try discriminate; simpl in E;
      destruct (read_date P _) as [t|]; try discriminate;
      inversion E; eauto.
  - split; [|discriminate]. intros _. simpl in E. congruence.
Qed.

Lemma falsy_given_or_null (v : value) :
  truthy v = false -> Contract.given_or_null v = None.
Proof.
  destruct v; simpl; try reflexivity. intros H.
  apply negb_false_iff in H. rewrite H. reflexivity.
Qed.

End Stored.

(* ================================================================== *)
(** ** Create and Update: status, round trip, sort index *)
(* ================================================================== *)

Lemma update_rows_matching (cols : columns) (key : string) (now : Z)
    (t : list row) (r : row) :
  In r (filter (has_id key) (update_rows cols key now t)) ->
  exists r0, In r0 t /\ has_id key r0 = true /\ r = set_columns cols now r0.
Proof.
  unfold update_rows. rewrite filter_In, in_map_iff.
  intros [(r0 & E & Hin) Hk]. exists r0. split; [assumption|].
  destruct (has_id key r0) eqn:H0; [auto|]. subst r. congruence.
Qed.

(** The first piece [split] returns, for a text without the separator
    followed by it. *)
Lemma append_char (acc : string) (c : ascii) (s : string) :
  ((acc ++ String c "") ++ s)%string = (acc ++ String c s)%string.
Proof. induction acc; simpl; congruence. Qed.

Lemma split_acc_head (sep : ascii) (a b acc : string) :
  has_char sep a = false ->
  hd "" (split_acc sep acc (a ++ String sep b)) = (acc ++ a)%string.
Proof.
  revert acc. induction a as [|c a IH]; intros acc H; simpl in *.
  - rewrite Ascii.eqb_refl. simpl. induction acc; simpl; congruence.
  - apply orb_false_iff in H. destruct H as [Hc Ha]. rewrite Hc.
    rewrite (IH _ Ha). apply append_char.
Qed.

Lemma digit_is_not_T (c : ascii) :
  Contract.is_digit c = true -> Ascii.eqb c "T" = false.
Proof.
  destruct c as [[] [] [] [] [] [] [] []]; intros H; try reflexivity;
    vm_compute in H; discriminate H.
Qed.

Lemma calendar_day_inv (day : string) :
  Contract.calendar_day day = true ->
  day <> "" /\ String.length day = 10%nat /\ has_char "T" day = false.
Proof.
  destruct day as [|y1 [|y2 [|y3 [|y4 [|h1 [|m1 [|m2 [|h2 [|d1 [|d2 [|x r]
    ]]]]]]]]]]; try discriminate.
  unfold Contract.calendar_day. cbn [forallb]. intros H.
  apply andb_prop in H. destruct H as [H H2].
  apply andb_prop in H. destruct H as [H H1].
  repeat (apply andb_prop in H; destruct H as [?D H]).
  apply Ascii.eqb_eq in H1, H2. subst h1 h2.
  split; [discriminate|]. split; [reflexivity|]. simpl.
  rewrite !digit_is_not_T by assumption. reflexivity.
Qed.

Lemma calendar_day_truthy (day : string) :
  Contract.calendar_day day = true -> truthy (VStr day) = true.
Proof.
  intros H. destruct (calendar_day_inv day H) as (Hn & _). simpl.
  apply negb_true_iff, String.eqb_neq, Hn.
Qed.

Lemma split_head_day (day time : string) :
  Contract.calendar_day day = true ->
  hd "" (split "T" (day ++ String "T" time)) = day.
Proof.
  intros H. destruct (calendar_day_inv day H) as (_ & _ & Hfree).
  unfold split. apply (split_acc_head "T" day time "" Hfree).
Qed.

Section Accepted.

Variable P : platform.

Lemma post_accepted (ev : event) (w w' : world) (resp : response) :
  httpMethod ev = "POST" ->
  handler P ev w = (Ok resp, w') -> statusCode resp = 201 ->
  connect_error P = None /\
  exists data b cols e,
    JSON_parse P (body ev) = Some data /\
    validateAppointment data = Ok [] /\
    transformToBackend data = Ok b /\
    bind_parameters P b = Ok cols /\
    transformToFrontend P (new_row cols (new_id P (table w)) (clock w))
      = Ok e /\
    resp = created e /\
    table w' =
      (table w ++ [new_row cols (new_id P (table w)) (clock w)])%list.
Proof.
  intros Hm H S.
  destruct (handler_switch P ev w w' resp H) as (Hc & w1 & D & Hw).
  - rewrite S. discriminate.
  - rewrite Hm. discriminate.
  - split; [assumption|]. rewrite Hm in D. unfold dispatch in D. simpl in D.
    destruct (create_accepted P _ _ _ _ _ D S)
      as (data & b & cols & e & ? & ? & ? & ? & ? & ? & Ht).
    exists data, b, cols, e. subst w'. simpl. rewrite Ht. auto 10.
Qed.

Lemma put_accepted (ev : event) (w w' : world) (resp : response) :
  httpMethod ev = "PUT" ->
  handler P ev w = (Ok resp, w') -> statusCode resp = 200 ->
  connect_error P = None /\
  exists data b cols r rest e,
    no_id (appointmentId_of ev) = false /\
    JSON_parse P (body ev) = Some data /\
    validateAppointment data = Ok [] /\
    transformToBackend data = Ok b /\
    bind_parameters P b = Ok cols /\
    filter (has_id (appointmentId_of ev))
           (update_rows cols (appointmentId_of ev) (clock w) (table w))
      = r :: rest /\
    transformToFrontend P r = Ok e /\
    resp = updated e /\
    table w' = update_rows cols (appointmentId_of ev) (clock w) (table w).
Proof.
  intros Hm H S.
  destruct (handler_switch P ev w w' resp H) as (Hc & w1 & D & Hw).
  - rewrite S. discriminate.
  - rewrite Hm. discriminate.
  - split; [assumption|]. rewrite Hm in D. unfold dispatch in D. simpl in D.
    destruct (update_accepted P _ _ _ _ _ _ D S)
      as (data & b & cols & r & rest & e & ? & ? & ? & ? & ? & ? & ? & ?
          & Ht).
    exists data, b, cols, r, rest, e. subst w'. simpl. rewrite Ht. auto 12.
Qed.

Lemma optional_text_binds (name column : string) (v n : value) :
  opt_trim name v = Ok n ->
  exists x, nullable_text_in column (or_else n VNull) = Ok x.
Proof.
  destruct v; simpl; try discriminate; intros E; inversion E; subst;
    unfold or_else; simpl; eauto.
  destruct (trim s =? "")%string; simpl; eauto.
Qed.

(** The store's text columns never refuse what the handler binds for a
    body that passed validation: only the date and the sort index are left
    to the store's reading. *)
Lemma accepted_body_binds (data : value) (b : backend) (d : option Z)
    (n : Z) :
  validateAppointment data = Ok [] -> transformToBackend data = Ok b ->
  date_column_in P (b_date b) = Ok d ->
  integer_in P "sort_index" (b_sort_index b) = Ok n ->
  exists cols, bind_parameters P b = Ok cols.
Proof.
  intros Hv Hb Hdate Hint. destruct (valid_meets data Hv) as [Hd Hmeets].
  destruct (transform_fields data b Hd Hb)
    as (_ & Bpe & Bpl & Bca & Bse & Blo & Bst & (no & Bn & Bno)
        & (ex & Bx & Bex) & _).
  destruct (nonempty_text_inv _ (Hmeets Contract.PlateRule)) as (pl & Epl & _).
  destruct (nonempty_text_inv _ (Hmeets Contract.CarRule)) as (ca & Eca & _).
  destruct (nonempty_text_inv _ (Hmeets Contract.LocalityRule))
    as (lo & Elo & _).
  destruct (one_of_inv _ _ (Hmeets Contract.ServiceRule)) as (se & Ese & _).
  destruct (one_of_inv _ _ (Hmeets Contract.StatusRule)) as (st & Est & Hst).
  simpl in Epl, Eca, Elo, Ese, Est.
  rewrite Epl in Bpl. rewrite Eca in Bca. rewrite Elo in Blo.
  simpl in Bpl, Bca, Blo. inversion Bpl as [Bpl']. inversion Bca as [Bca'].
  inversion Blo as [Blo'].
  assert (Tst : truthy (VStr st) = true).
  { apply (one_of_truthy statuses); [apply no_blank_status|].
    rewrite <- Est. apply (Hmeets Contract.StatusRule). }
  assert (Hpe : exists pe, nullable_text_in "period" (b_period b) = Ok pe).
  { rewrite Bpe. unfold or_else.
    destruct (truthy (Contract.field data "period")) eqn:Tp; [|simpl; eauto].
    pose proof (Hmeets Contract.PeriodRule) as Hp. simpl in Hp.
    rewrite Tp in Hp. simpl in Hp.
    destruct (one_of_inv _ _ Hp) as (pe & Epe & _). rewrite Epe.
    simpl. eauto. }
  destruct Hpe as (pe & Hpe).
  destruct (optional_text_binds "notes" "notes" _ _ Bn) as (xn & Hn).
  destruct (optional_text_binds "extra" "extra" _ _ Bx) as (xe & Hx).
  unfold bind_parameters.
  rewrite Hdate, Hpe, <- Bpl', <- Bca', Bse, Ese, <- Blo', Bst, Est.
  unfold or_else. rewrite Tst, Bno, Hn, Bex, Hx, Hint. simpl. eauto.
Qed.

(** The sort index bound for an accepted body. *)
Lemma sort_index_bound (data : value) (b : backend) (cols : columns) :
  validateAppointment data = Ok [] ->
  transformToBackend data = Ok b -> bind_parameters P b = Ok cols ->
  let si := Contract.field data "sortIndex" in
  let si' := Contract.field data "sort_index" in
  (truthy si = true ->
   integer_in P "sort_index" si = Ok (c_sort_index cols)) /\
  (truthy si = false -> truthy si' = true ->
   integer_in P "sort_index" si' = Ok (c_sort_index cols)) /\
  (truthy si = false -> truthy si' = false -> c_sort_index cols = 1).
Proof.
  intros Hv Hb Hc. destruct (valid_meets data Hv) as [Hd _].
  destruct (transform_fields data b Hd Hb)
    as (_ & _ & _ & _ & _ & _ & _ & _ & _ & Hs).
  destruct (bind_parameters_inv P b cols Hc)
    as (_ & _ & _ & _ & _ & _ & _ & _ & _ & Hi).
  rewrite Hs in Hi. clear Hs. cbv zeta. unfold or_else in Hi.
  destruct (truthy (Contract.field data "sortIndex")) eqn:T1.
  - rewrite ?T1 in Hi. repeat split; congruence.
  - destruct (truthy (Contract.field data "sort_index")) eqn:T2.
    + rewrite ?T2 in Hi. repeat split; congruence.
    + simpl in Hi. repeat split; congruence.
Qed.

(** C8, as the code has it.  For every accepted Create (201) and Update
    (200) the entity answered shows a row of the table, and its sort index
    is the store's reading of the [sortIndex] supplied when that is
    truthy, else of the [sort_index] supplied when that is truthy, else 1;
    a number other than zero is stored as it is. *)
Theorem C8_sort_index_falls_back_when_falsy (ev : event) (w w' : world)
    (resp : response) (data : value) :
  (httpMethod ev = "POST" /\ statusCode resp = 201) \/
  (httpMethod ev = "PUT" /\ statusCode resp = 200) ->
  handler P ev w = (Ok resp, w') ->
  JSON_parse P (body ev) = Some data ->
  exists r e,
    entities_of resp = [e] /\ shows P e r /\ In r (table w') /\
    let si := Contract.field data "sortIndex" in
    let si' := Contract.field data "sort_index" in
    (truthy si = true -> integer_in P "sort_index" si = Ok (sort_index r)) /\
    (truthy si = false -> truthy si' = true ->
     integer_in P "sort_index" si' = Ok (sort_index r)) /\
    (truthy si = false -> truthy si' = false -> sort_index r = 1) /\
    (forall n, si = VNum n -> n <> 0 -> sort_index r = n) /\
    (forall n, truthy si = false -> si' = VNum n -> n <> 0 ->
               sort_index r = n).
Proof.
  assert (Hcases : forall b cols r,
            validateAppointment data = Ok [] ->
            transformToBackend data = Ok b ->
            bind_parameters P b = Ok cols ->
            sort_index r = c_sort_index cols ->
            let si := Contract.field data "sortIndex" in
            let si' := Contract.field data "sort_index" in
            (truthy si = true ->
             integer_in P "sort_index" si = Ok (sort_index r)) /\
            (truthy si = false -> truthy si' = true ->
             integer_in P "sort_index" si' = Ok (sort_index r)) /\
            (truthy si = false -> truthy si' = false -> sort_index r = 1) /\
            (forall n, si = VNum n -> n <> 0 -> sort_index r = n) /\
            (forall n, truthy si = false -> si' = VNum n -> n <> 0 ->
                       sort_index r = n)).
  { intros b cols r Hv Hb Hc Er.
    destruct (sort_index_bound data b cols Hv Hb Hc) as (H1 & H2 & H3).
    cbv zeta in *. rewrite Er.
    split; [exact H1|]. split; [exact H2|]. split; [exact H3|]. split.
    - intros n E Hn. rewrite E in H1. simpl in H1.
      apply Z.eqb_neq in Hn. rewrite Hn in H1.
      specialize (H1 eq_refl). congruence.
    - intros n T E Hn. rewrite E in H2. simpl in H2.
      apply Z.eqb_neq in Hn. rewrite Hn in H2.
      specialize (H2 T eq_refl). congruence. }
  intros [[Hm S]|[Hm S]] H Hp.
  - destruct (post_accepted ev w w' resp Hm H S)
      as (_ & data' & b & cols & e & Hp' & Hv & Hb & Hc & He & Hr & Ht).
    assert (data' = data) by congruence. subst data'.
    exists (new_row cols (new_id P (table w)) (clock w)), e.
    split; [subst resp; reflexivity|].
    split; [apply transformToFrontend_shows, He|].
    split; [rewrite Ht; apply in_or_app; right; left; reflexivity|].
    apply (Hcases b cols); auto.
  - destruct (put_accepted ev w w' resp Hm H S)
      as (_ & data' & b & cols & r & rest & e & _ & Hp' & Hv & Hb & Hc & Hf
          & He & Hr & Ht).
    assert (data' = data) by congruence. subst data'.
    exists r, e. split; [subst resp; reflexivity|].
    split; [apply transformToFrontend_shows, He|].
    assert (Hin : In r (filter (has_id (appointmentId_of ev))
                          (update_rows cols (appointmentId_of ev) (clock w)
                                       (table w))))
      by (rewrite Hf; left; reflexivity).
    split; [rewrite Ht; apply filter_In in Hin; tauto|].
    apply update_rows_matching in Hin. destruct Hin as (r0 & _ & _ & E).
    subst r. apply (Hcases b cols); auto.
Qed.

(** C4, as the code has it.  A Create that answers 201 answers the
    normalised input: the plate upper-cased and trimmed, car and locality
    trimmed, service as given, notes and extra trimmed with blank or
    absent stored as null, period as given or null.  The date is null for
    a date that is absent or falsy; otherwise it is the part before 'T' of
    the ISO rendering of the date the store read, so never a text with a
    'T' in it; on a deployment that keeps days, a date given as a calendar
    day "YYYY-MM-DD" comes back as given.  The entity is in every later
    listing, and a later GET does list when the store answers and the
    dates of the other rows render. *)
Theorem C4_create_round_trip (ev : event) (w w' : world)
    (resp : response) (data : value) :
  httpMethod ev = "POST" ->
  handler P ev w = (Ok resp, w') -> statusCode resp = 201 ->
  JSON_parse P (body ev) = Some data ->
  let given := Contract.field data in
  exists e,
    entities_of resp = [e] /\
    (exists s, given "plate" = VStr s /\ e_plate e = trim (toUpperCase s)) /\
    (exists s, given "car" = VStr s /\ e_car e = trim s) /\
    (exists s, given "locality" = VStr s /\ e_locality e = trim s) /\
    given "service" = VStr (e_service e) /\
    e_notes e = Contract.blank_to_null (given "notes") /\
    e_extra e = Contract.blank_to_null (given "extra") /\
    e_period e = Contract.given_or_null (given "period") /\
    (truthy (given "date") = false -> e_date e = None) /\
    (truthy (given "date") = true ->
     exists t text,
       read_date P (given "date") = Some t /\
       toISOString P t = Ok text /\
       e_date e = Some (hd "" (split "T" text))) /\
    (forall s, has_char "T" s = true -> e_date e <> Some s) /\
    (keeps_days P ->
     forall day,
       given "date" = VStr day -> Contract.calendar_day day = true ->
       e_date e = Some day) /\
    (forall ev',
       httpMethod ev' = "GET" ->
       (forall resp' w'',
          handler P ev' w' = (Ok resp', w'') -> statusCode resp' = 200 ->
          In e (entities_of resp')) /\
       (fault P SelectAll = None ->
        forallb (renders P) (table w) = true ->
        statusCode_of (fst (handler P ev' w')) = Some 200)).
Proof.
  intros Hm H S Hp given.
  destruct (post_accepted ev w w' resp Hm H S)
    as (Hconn & data' & b & cols & e & Hp' & Hv & Hb & Hc & He & Hr & Ht).
  assert (data' = data) by congruence. subst data'.
  destruct (valid_meets data Hv) as [Hd Hmeets].
  destruct (transform_fields data b Hd Hb)
    as (Bd & Bpe & Bpl & Bca & Bse & Blo & _ & (n & Bn & Bno)
        & (x & Bx & Bex) & _).
  destruct (bind_parameters_inv P b cols Hc)
    as (Cd & Cpe & Cpl & Cca & Cse & Clo & _ & Cno & Cex & _).
  set (row := new_row cols (new_id P (table w)) (clock w)) in *.
  destruct (transformToFrontend_shows P row e He)
    as (_ & Sd & Spe & Spl & Sca & Sse & Slo & _ & Sno & Sex & _).
  subst row. simpl in Sd, Spe, Spl, Sca, Sse, Slo, Sno, Sex.
  exists e.
  split; [subst resp; reflexivity|].
  split.
  { destruct (nonempty_text_inv _ (Hmeets Contract.PlateRule)) as (s & E & _).
    simpl in E. exists s. split; [assumption|].
    rewrite E in Bpl. simpl in Bpl. inversion Bpl as [Epl].
    rewrite <- Epl in Cpl. simpl in Cpl. inversion Cpl. congruence. }
  split.
  { destruct (nonempty_text_inv _ (Hmeets Contract.CarRule)) as (s & E & _).
    simpl in E. exists s. split; [assumption|].
    rewrite E in Bca. simpl in Bca. inversion Bca as [Eca].
    rewrite <- Eca in Cca. simpl in Cca. inversion Cca. congruence. }
  split.
  { destruct (nonempty_text_inv _ (Hmeets Contract.LocalityRule))
      as (s & E & _).
    simpl in E. exists s. split; [assumption|].
    rewrite E in Blo. simpl in Blo. inversion Blo as [Elo].
    rewrite <- Elo in Clo. simpl in Clo. inversion Clo. congruence. }
  split.
  { apply text_in_inv in Cse. unfold given. congruence. }
  split.
  { rewrite Sno. rewrite Bno in Cno.
    apply (optional_text_stored _ _ _ _ _ Bn Cno). }
  split.
  { rewrite Sex. rewrite Bex in Cex.
    apply (optional_text_stored _ _ _ _ _ Bx Cex). }
  split.
  { rewrite Spe. rewrite Bpe in Cpe. apply (period_stored _ _ Cpe). }
  rewrite Bd in Cd. destruct (date_stored P _ _ Cd) as [Dnone Dsome].
  assert (Hday : truthy (given "date") = true ->
            exists t text,
              read_date P (given "date") = Some t /\
              toISOString P t = Ok text /\
              e_date e = Some (hd "" (split "T" text))).
  { intros Htr. destruct (Dsome Htr) as (t & Hread & Ed).
    rewrite Ed in Sd. destruct Sd as (text & Htext & Eday).
    exists t, text. auto. }
  split.
  { intros Hf. rewrite (Dnone Hf) in Sd. exact Sd. }
  split; [exact Hday|].
  split.
  { intros s Hs E.
    destruct (c_date cols) as [t|]; [|congruence].
    destruct Sd as (text & _ & Eday). rewrite Eday in E.
    inversion E as [E']. rewrite <- E' in Hs. unfold split in Hs.
    rewrite split_head_free in Hs; [discriminate|reflexivity]. }
  split.
  { intros Hk day Eday Hcal.
    assert (Htr : truthy (given "date") = true)
      by (rewrite Eday; apply calendar_day_truthy, Hcal).
    destruct (Hday Htr) as (t & text & Hread & Htext & Ed).
    rewrite Eday in Hread.
    destruct (Hk day t Hcal Hread) as (time & Hiso).
    rewrite Ed. f_equal.
    assert (text = (day ++ String "T" time)%string) by congruence.
    subst text. apply split_head_day, Hcal. }
  intros ev' Hget. split.
  - intros resp' w'' Hrun S'.
    assert (Ho : httpMethod ev' <> "OPTIONS") by (rewrite Hget; discriminate).
    rewrite handler_connected in Hrun by assumption.
    rewrite Hget in Hrun. unfold dispatch in Hrun. simpl in Hrun.
    rewrite list_branch_eq in Hrun.
    destruct (fault P SelectAll); simpl in Hrun;
      [inversion Hrun; subst; discriminate S'|].
    destruct (map_result _ _) as [entities|m] eqn:Hmap; simpl in Hrun;
      inversion Hrun; subst; [|discriminate S'].
    simpl.
    apply (map_result_in P _ _
             (new_row cols (new_id P (table w)) (clock w)) e Hmap);
      [|exact He].
    apply (Permutation_in _ (sort_rows_perm (table w'))).
    rewrite Ht. apply in_or_app. right. left. reflexivity.
  - intros Hf Hrest.
    assert (Hall : forallb (renders P) (table w') = true).
    { assert (Hnew : renders P (new_row cols (new_id P (table w)) (clock w))
                     = true)
        by (apply transformToFrontend_renders; eauto).
      rewrite Ht, forallb_app, Hrest. simpl. rewrite Hnew. reflexivity. }
    destruct (get_listing P ev' w' Hget Hconn Hf Hall)
      as (entities & Hrun & _).
    rewrite Hrun. reflexivity.
Qed.

End Accepted.

(* ================================================================== *)
(** ** Validation failures *)
(* ================================================================== *)

Section Rejected.

Variable P : platform.

Lemma reads_body_not_preflight (ev : event) :
  reads_body ev -> httpMethod ev <> "OPTIONS".
Proof. intros [H|[H _]]; rewrite H; discriminate. Qed.

Lemma rejected_outcome (ev : event) (w : world) (data : value)
    (errors : list string) :
  connect_error P = None -> reads_body ev ->
  JSON_parse P (body ev) = Some data ->
  validateAppointment data = Ok errors -> errors <> [] ->
  handler P ev w = (Ok (invalid errors), log End (connected w)).
Proof.
  intros Hc Hr Hp Hv Hne.
  rewrite handler_connected by auto using reads_body_not_preflight.
  destruct Hr as [Hm|[Hm Hk]]; rewrite Hm; unfold dispatch; simpl.
  - rewrite (create_invalid P _ _ _ data errors); auto.
  - rewrite (update_invalid P _ _ _ _ data errors); auto.
Qed.

Lemma unparsable_outcome (ev : event) (w : world) :
  connect_error P = None -> reads_body ev ->
  JSON_parse P (body ev) = None ->
  handler P ev w =
  (Ok (internal_error P "Unexpected token in JSON"),
   log End (log (ConsoleError "Unexpected token in JSON") (connected w))).
Proof.
  intros Hc Hr Hp.
  rewrite handler_connected by auto using reads_body_not_preflight.
  destruct Hr as [Hm|[Hm Hk]]; rewrite Hm; unfold dispatch; simpl.
  - rewrite create_unparsable; auto.
  - rewrite update_unparsable; auto.
Qed.

Lemma violations_nonempty (given : value -> bool) (data : value)
    (r : Contract.rule) :
  Contract.meets given r (Contract.field data (Contract.field_of r)) = false ->
  In (Contract.message_of r) (Contract.violations given data).
Proof.
  intros H. unfold Contract.violations. apply in_map, filter_In.
  split; [destruct r; simpl; auto 10|]. rewrite H. reflexivity.
Qed.

(** C2, as the code has it.  For a body other than [null] that breaks a
    rule, Create, and Update once it has an id, answer 400 with exactly
    the messages of the violated rules, one each and in rule order, and
    leave the table alone; the period rule binds a period that is truthy
    (so not [null], [false], [0] or the empty string).  Leaving out both
    [plate] and [service] of an otherwise valid body gives two messages. *)
Theorem C2_validation_reports_each_violation (ev : event) (w : world)
    (data : value) :
  connect_error P = None -> reads_body ev ->
  JSON_parse P (body ev) = Some data -> nullish data = false ->
  Contract.violations truthy data <> [] ->
  (exists w',
     handler P ev w = (Ok (invalid (Contract.violations truthy data)), w') /\
     table w' = table w) /\
  (Contract.field data "plate" = VUndefined ->
   Contract.field data "service" = VUndefined ->
   (forall r, r <> Contract.PlateRule -> r <> Contract.ServiceRule ->
      Contract.meets truthy r (Contract.field data (Contract.field_of r))
      = true) ->
   Contract.violations truthy data = [msg_plate; msg_service]).
Proof.
  intros Hc Hr Hp Hd Hne. split.
  - exists (log End (connected w)). split; [|reflexivity].
    apply rejected_outcome with (data := data); auto.
    apply validate_violations, Hd.
  - intros Epl Ese Hothers.
    pose proof (Hothers Contract.CarRule) as H1.
    pose proof (Hothers Contract.LocalityRule) as H2.
    pose proof (Hothers Contract.StatusRule) as H3.
    pose proof (Hothers Contract.PeriodRule) as H4.
    unfold Contract.violations, Contract.rules. simpl in *.
    rewrite Epl, Ese, H1, H2, H3, H4 by discriminate. reflexivity.
Qed.

(** C1, as the code has it.  A Create whose [status] is absent (or
    otherwise falsy) is rejected with 400, "Status inválido" is among the
    messages (alone, when the other rules are met) and nothing is stored;
    a Create that answers 201 was given one of the three codes, and
    answers that code: the 'NE' default is never reached. *)
Theorem C1_create_requires_status (ev : event) (w : world) (data : value) :
  httpMethod ev = "POST" -> connect_error P = None ->
  JSON_parse P (body ev) = Some data -> nullish data = false ->
  (truthy (Contract.field data "status") = false ->
   exists errors w',
     handler P ev w = (Ok (invalid errors), w') /\
     In msg_status errors /\ table w' = table w /\
     ((forall r, r <> Contract.StatusRule ->
         Contract.meets truthy r (Contract.field data (Contract.field_of r))
         = true) ->
      errors = [msg_status])) /\
  (forall resp w',
     handler P ev w = (Ok resp, w') -> statusCode resp = 201 ->
     exists e s,
       entities_of resp = [e] /\
       Contract.field data "status" = VStr s /\ In s statuses /\
       e_status e = s).
Proof.
  intros Hm Hc Hp Hd. split.
  - intros Hs.
    assert (Hmeet : Contract.meets truthy Contract.StatusRule
                      (Contract.field data "status") = false).
    { simpl. destruct (Contract.one_of statuses _) eqn:E; [|reflexivity].
      apply one_of_truthy in E; [congruence|apply no_blank_status]. }
    pose proof (violations_nonempty truthy data Contract.StatusRule Hmeet)
      as Hin.
    exists (Contract.violations truthy data), (log End (connected w)).
    split.
    { apply rejected_outcome with (data := data); auto.
      - left. assumption.
      - apply validate_violations, Hd.
      - intros E. rewrite E in Hin. contradiction. }
    split; [exact Hin|]. split; [reflexivity|].
    intros Hothers.
    pose proof (Hothers Contract.PlateRule) as H0.
    pose proof (Hothers Contract.CarRule) as H1.
    pose proof (Hothers Contract.ServiceRule) as H2.
    pose proof (Hothers Contract.LocalityRule) as H3.
    pose proof (Hothers Contract.PeriodRule) as H4.
    unfold Contract.violations, Contract.rules. simpl in *.
    rewrite H0, H1, H2, H3, H4, Hmeet by discriminate. reflexivity.
  - intros resp w' H S.
    destruct (post_accepted P ev w w' resp Hm H S)
      as (_ & data' & b & cols & e & Hp' & Hv & Hb & Hcols & He & Hr & Ht).
    assert (data' = data) by congruence. subst data'.
    destruct (valid_meets data Hv) as [_ Hmeets].
    destruct (one_of_inv _ _ (Hmeets Contract.StatusRule)) as (s & E & Hin).
    simpl in E.
    destruct (transform_fields data b Hd Hb)
      as (_ & _ & _ & _ & _ & _ & Bst & _).
    destruct (bind_parameters_inv P b cols Hcols)
      as (_ & _ & _ & _ & _ & _ & Cst & _).
    destruct (transformToFrontend_shows P _ e He)
      as (_ & _ & _ & _ & _ & _ & _ & Sst & _).
    exists e, s.
    split; [subst resp; reflexivity|]. split; [assumption|].
    split; [assumption|]. rewrite Sst. simpl.
    apply text_in_inv in Cst. rewrite Bst, E in Cst.
    unfold or_else in Cst.
    assert (Ht' : truthy (VStr s) = true).
    { apply (one_of_truthy statuses); [apply no_blank_status|].
      rewrite <- E. apply (Hmeets Contract.StatusRule). }
    rewrite Ht' in Cst. congruence.
Qed.

End Rejected.

(* ================================================================== *)
(** ** Failures of the platform *)
(* ================================================================== *)

Lemma not_self_app {A} (l : list A) (x : A) : l = (l ++ [x])%list -> False.
Proof.
  intros H. apply (f_equal (@List.length A)) in H.
  rewrite length_app in H. simpl in H. lia.
Qed.

Section Failures.

Variable P : platform.

Lemma client_query_fails (c : Client) (s : statement) (w : world)
    (e : string) :
  store_error P s (table w) (clock w) = Some e ->
  client_query P c s w = (Throw e, log (Query s) w).
Proof.
  unfold store_error. rewrite client_query_eq.
  destruct (fault P s); [congruence|].
  destruct (run P s (table w) (clock w)) as [[rows t]|e']; congruence.
Qed.

Lemma client_query_inv (c : Client) (s : statement) (w w' : world)
    (x : result (list row)) :
  client_query P c s w = (x, w') ->
  trace w' = (trace w ++ [Query s])%list /\
  (forall e, store_error P s (table w) (clock w) = Some e ->
             x = Throw e /\ table w' = table w).
Proof.
  intros H. split.
  - rewrite client_query_eq in H.
    destruct (fault P s);
      [|destruct (run P s (table w) (clock w)) as [[rows t]|e']];
      inversion H; reflexivity.
  - intros e Hs. rewrite (client_query_fails _ _ _ _ Hs) in H.
    inversion H; subst. auto.
Qed.

(** A statement the store refuses makes the switch throw the store's
    error, with the table as it was. *)
Lemma dispatch_store_error (c : Client) (m key : string) (ev : event)
    (w w' : world) (r : result response) (s : statement) (e : string) :
  dispatch P c m key ev w = (r, w') ->
  trace w' = (trace w ++ [Query s])%list ->
  store_error P s (table w) (clock w) = Some e ->
  r = Throw e /\ table w' = table w.
Proof.
  unfold dispatch, list_branch, create_branch, update_branch, delete_branch,
         parse, first_row.
  unfold_io.
  repeat (split_match || simpl in * );
    intros E; invert_pairs; simpl; intros Ht Hs;
    try (exfalso; eapply not_self_app; eassumption);
    match goal with
    | H : client_query _ _ _ _ = _ |- _ =>
        apply client_query_inv in H; destruct H as [Hq Hx];
        rewrite Hq in Ht; apply app_inv_head in Ht; inversion Ht; subst;
        destruct (Hx _ Hs) as [Ex Et]; try discriminate Ex;
        inversion Ex; subst; auto
    end.
Qed.

(** C7, as the code has it.  Outside OPTIONS, a store that cannot be
    reached, a body that cannot be parsed where the body is read (POST,
    and PUT with an id), and a statement the store refuses are each
    answered 500 with the generic error, the refused statement leaving the
    table as it was.  The message of the exception is in [details] exactly
    when NODE_ENV is 'development', and is left out otherwise. *)
Theorem C7_failures_answer_500 (ev : event) (w : world) :
  httpMethod ev <> "OPTIONS" ->
  (forall e, connect_error P = Some e ->
     fst (handler P ev w) = Ok (internal_error P e)) /\
  (connect_error P = None -> reads_body ev ->
   JSON_parse P (body ev) = None ->
   fst (handler P ev w) = Ok (internal_error P "Unexpected token in JSON")) /\
  (forall s e,
     In (Query s) (performed w (snd (handler P ev w))) ->
     store_error P s (table w) (clock w) = Some e ->
     fst (handler P ev w) = Ok (internal_error P e) /\
     table (snd (handler P ev w)) = table w) /\
  (forall e,
     statusCode (internal_error P e) = 500 /\
     error_of (internal_error P e) = Some "Erro interno do servidor" /\
     (details_of (internal_error P e) = Some (Message e) <->
      NODE_ENV P = Some "development") /\
     (NODE_ENV P <> Some "development" ->
      details_of (internal_error P e) = None)).
Proof.
  intros Ho. split; [|split; [|split]].
  - intros e Hc. rewrite (handler_unreachable _ _ _ e); auto.
  - intros Hc Hr Hp. rewrite unparsable_outcome; auto.
  - intros s e Hin Hs. destruct (connect_error P) as [e0|] eqn:Hc.
    + rewrite (handler_unreachable _ _ _ e0) in Hin by assumption.
      unfold performed in Hin. simpl in Hin. rewrite skipn_app_exact in Hin.
      simpl in Hin. intuition discriminate.
    + rewrite handler_connected in * by assumption.
      destruct (dispatch P _ _ _ _ _) as [r w1] eqn:D.
      pose proof (dispatch_frame _ _ _ _ _ _ _ _ D) as (_ & _ & F).
      assert (Ht : trace w1 = (trace (connected w) ++ [Query s])%list).
      { destruct F as [[Ht _]|[s' Ht]]; destruct r as [r|e'];
          unfold performed in Hin; simpl in Hin; rewrite Ht in Hin;
          simpl in Hin; rewrite <- ?app_assoc, skipn_app_exact in Hin;
          simpl in Hin;
          try (intuition discriminate).
        - destruct Hin as [|[Hin|[|[]]]]; try discriminate.
          inversion Hin; subst. exact Ht.
        - destruct Hin as [|[Hin|[|[|[]]]]]; try discriminate.
          inversion Hin; subst. exact Ht. }
      destruct (dispatch_store_error _ _ _ _ _ _ _ s e D Ht Hs) as [Er Et].
      subst r. simpl. split; [reflexivity|exact Et].
  - intros e. unfold internal_error, details_of, error_of, error_details.
    simpl. split; [reflexivity|]. split; [reflexivity|].
    destruct (NODE_ENV P) as [mode|]; simpl.
    + destruct (String.eqb_spec mode "development") as [E|N].
      * subst. split; [tauto|]. intros N. contradiction.
      * split; [|reflexivity]. split; [discriminate|].
        intros E. inversion E. contradiction.
    + split; [|reflexivity]. split; discriminate.
Qed.

End Failures.

(* ================================================================== *)
(** ** Update *)
(* ================================================================== *)

Lemma has_id_set_columns (cols : columns) (key : string) (now : Z) (r : row) :
  has_id key (set_columns cols now r) = has_id key r.
Proof. reflexivity. Qed.

Lemma filter_update_rows (cols : columns) (key : string) (now : Z)
    (t : list row) :
  filter (has_id key) (update_rows cols key now t) =
  map (set_columns cols now) (filter (has_id key) t).
Proof.
  induction t as [|r t IH]; simpl; [reflexivity|].
  destruct (has_id key r) eqn:E.
  - rewrite has_id_set_columns, E. simpl. rewrite IH. reflexivity.
  - rewrite E. exact IH.
Qed.

Lemma update_rows_no_match (cols : columns) (key : string) (now : Z)
    (t : list row) :
  filter (has_id key) t = [] -> update_rows cols key now t = t.
Proof.
  induction t as [|r t IH]; simpl; [reflexivity|].
  destruct (has_id key r); [discriminate|]. intros H. rewrite IH; auto.
Qed.


Lemma columns_of_set_columns (cols : columns) (now : Z) (r : row) :
  columns_of (set_columns cols now r) = cols.
Proof. destruct cols; reflexivity. Qed.

Section Update.

Variable P : platform.




End Update.

(* ================================================================== *)
(** ** The contract on the demonstration deployment *)
(* ================================================================== *)

Module Runs.

Import Demo.

Example validate_complete : validateAppointment complete = Ok [].
Proof. reflexivity. Qed.

Example transform_complete :
  transformToBackend complete =
  Ok {| b_date := VStr "2024-05-01"; b_period := VStr "Tarde";
        b_plate := VStr "AB-12-CD"; b_car := VStr "Golf";
        b_service := VStr "PB"; b_locality := VStr "Braga";
        b_status := VStr "VE"; b_notes := VNull; b_extra := VNull;
        b_sort_index := VNum 3 |}.
Proof. reflexivity. Qed.

(** A body that is [null] is not validated: reading its plate throws. *)
Example validate_null_body :
  validateAppointment VNull =
  Throw "Cannot read properties of null (reading 'plate')".
Proof. reflexivity. Qed.

(** Notes that are not text pass validation and break the transformation. *)
Example notes_must_be_text :
  validateAppointment
    (VObj [("plate", VStr "AB-12-CD"); ("car", VStr "Golf");
           ("service", VStr "PB"); ("locality", VStr "Braga");
           ("status", VStr "NE"); ("notes", VNum 5)]) = Ok [] /\
  transformToBackend
    (VObj [("plate", VStr "AB-12-CD"); ("car", VStr "Golf");
           ("service", VStr "PB"); ("locality", VStr "Braga");
           ("status", VStr "NE"); ("notes", VNum 5)])
  = Throw "data.notes?.trim is not a function".
Proof. split; reflexivity. Qed.

Example preflight_and_unsupported :
  fst (handler site (request "OPTIONS" "/anything" "") world3) =
    Ok {| statusCode := 200; headers := corsHeaders; content_of := Empty |}
  /\
  statusCode_of (fst (handler site (request "PATCH" "/appointments/b" "")
                              world3)) = Some 405.
Proof. split; reflexivity. Qed.

Example delete_known_and_unknown :
  statusCode_of (fst (handler site (request "DELETE" "/appointments/zz" "")
                              world3)) = Some 404 /\
  statusCode_of (fst (handler site (request "DELETE" "/appointments/b" "")
                              world3)) = Some 200 /\
  map id (table (snd (handler site (request "DELETE" "/appointments/b" "")
                              world3))) = ["a"; "c"].
Proof. repeat split. Qed.

(** The path segments of a request, as [split] sees them. *)
Example path_of_update :
  appointmentId_of (update "b" "complete") = "b" /\
  appointmentId_of (create "complete") = "appointments" /\
  appointmentId_of (request "PUT" "/appointments/" "complete") = "".
Proof. repeat split. Qed.

(** The example of the specification: the appointment without date comes
    last, and within one day the morning precedes the afternoon. *)
Example listing_of_three :
  exists entities,
    fst (handler site list_all world3) = Ok (listing entities) /\
    map e_id entities = ["c"; "b"; "a"] /\
    map e_date entities = [Some "2024-05-01"; Some "2024-05-01"; None].
Proof. eexists. repeat split. Qed.

(** Upper-casing and trimming are those of the language, not of ASCII. *)
Example plate_in_unicode :
  toUpperCase "áç-ß" = "ÁÇ-SS" /\
  trim (utf8 0xA0 ++ " ab-12-cd" ++ utf8 0x2003) = "ab-12-cd" /\
  Contract.nonempty_text (VStr (utf8 0xA0)) = false.
Proof. repeat split. Qed.

(** The demonstration deployment keeps days. *)
Lemma site_keeps_days : keeps_days site.
Proof.
  intros day t Hday. destruct (calendar_day_inv day Hday) as (_ & Hlen & _).
  simpl. destruct (String.eqb_spec day "300000-01-01") as [E|_].
  { subst day. discriminate Hlen. }
  assert (Hsub : substring 0 10 day = day).
  { destruct day as [|y1 [|y2 [|y3 [|y4 [|h1 [|m1 [|m2 [|h2 [|d1 [|d2 [|x r]
      ]]]]]]]]]]; try discriminate Hlen. reflexivity. }
  rewrite Hsub. unfold iso.
  destruct (String.eqb_spec day "2024-05-01") as [E1|_].
  { intros E. inversion E. subst. eexists. reflexivity. }
  destruct (String.eqb_spec day "2024-05-02") as [E2|_]; [|discriminate].
  intros E. inversion E. subst. eexists. reflexivity.
Qed.





Lemma C6_witness :
  statusCode (invalid [msg_status]) = 400 /\
  table (snd (handler site (create "without status") empty_world)) = [] /\
  existsb is_write
    (performed empty_world
       (snd (handler site (create "without status") empty_world))) = false.
Proof.
  split; [reflexivity|].
  apply (C6_rejected_request_writes_nothing site (create "without status")
           empty_world
           (snd (handler site (create "without status") empty_world))
           (invalid [msg_status])); reflexivity.
Defined.

(** C9 as stated fails where the store cannot be reached: the invocation
    is not OPTIONS, yet it acquires no connection (and ends none). *)
Lemma C9_counterexample :
  httpMethod list_all <> "OPTIONS" /\
  performed empty_world (snd (handler site_down list_all empty_world)) =
    [Connect false; ConsoleError "connect ECONNREFUSED"] /\
  acquired (performed empty_world
              (snd (handler site_down list_all empty_world))) = 0%nat /\
  released (performed empty_world
              (snd (handler site_down list_all empty_world))) = 0%nat.
Proof. repeat split. discriminate. Qed.

Lemma C9_witness :
  httpMethod (create "complete") <> "OPTIONS" /\
  exists resp w' mid,
    handler site (create "complete") empty_world = (Ok resp, w') /\
    performed empty_world w' = Connect true :: mid ++ [End] /\
    existsb is_connection_effect mid = false.
Proof.
  assert (H : httpMethod (create "complete") <> "OPTIONS") by discriminate.
  split; [exact H|].
  destruct (C9_connection_is_scoped site (create "complete") empty_world H)
    as (resp & w' & Hrun & Hok & _).
  destruct (Hok eq_refl) as (mid & Hmid & Hfree).
  exists resp, w', mid. auto.
Defined.

(** C1 as stated fails on a body that is valid but for its missing
    status: Create answers 400 with the one message, and stores nothing. *)
Lemma C1_counterexample :
  JSON_parse site "without status" = Some without_status /\
  get without_status "status" = Ok VUndefined /\
  Contract.violations truthy without_status = ["Status inválido"] /\
  fst (handler site (create "without status") empty_world) =
    Ok (invalid ["Status inválido"]) /\
  table (snd (handler site (create "without status") empty_world)) = [].
Proof. repeat split. Qed.

Lemma C1_witness :
  truthy (Contract.field without_status "status") = false /\
  exists errors w',
    handler site (create "without status") empty_world =
      (Ok (invalid errors), w') /\
    In msg_status errors /\ table w' = table empty_world.
Proof.
  split; [reflexivity|].
  destruct (C1_create_requires_status site (create "without status")
              empty_world without_status eq_refl eq_refl eq_refl eq_refl)
    as [Hreject _].
  destruct (Hreject eq_refl) as (errors & w' & Hrun & Hin & Ht & _).
  exists errors, w'. auto.
Defined.

(** C2 as stated fails on a body without plate whose period is the number
    0: the period is present and is not one of the two values, yet the
    response carries the plate message only. *)
Lemma C2_counterexample :
  get zero_period_no_plate "period" = Ok (VNum 0) /\
  Contract.violations Contract.provided zero_period_no_plate =
    ["Matrícula é obrigatória"; "Período inválido"] /\
  fst (handler site (create "zero period, no plate") empty_world) =
    Ok (invalid ["Matrícula é obrigatória"]).
Proof. repeat split. Qed.

Lemma C2_witness :
  Contract.violations truthy without_plate_and_service <> [] /\
  exists w',
    handler site (create "without plate and service") empty_world =
      (Ok (invalid ["Matrícula é obrigatória"; "Tipo de serviço inválido"]),
       w') /\
    table w' = table empty_world.
Proof.
  assert (H : Contract.violations truthy without_plate_and_service <> [])
    by discriminate.
  split; [exact H|].
  destruct (C2_validation_reports_each_violation site
              (create "without plate and service") empty_world
              without_plate_and_service eq_refl (or_introl eq_refl)
              eq_refl eq_refl H)
    as [Hrun _].
  exact Hrun.
Defined.

(** C4 as stated fails on an accepted body whose date carries a time of
    day: the entity answered has the calendar day, not the text given. *)
Lemma C4_counterexample :
  get with_time_of_day "date" = Ok (VStr "2024-05-01T10:30:00") /\
  exists resp w',
    handler site (create "with time of day") empty_world = (Ok resp, w') /\
    statusCode resp = 201 /\
    map e_date (entities_of resp) = [Some "2024-05-01"] /\
    map e_date (entities_of resp) <> [Some "2024-05-01T10:30:00"].
Proof.
  split; [reflexivity|]. do 2 eexists.
  split; [reflexivity|]. split; [reflexivity|]. split; [reflexivity|].
  discriminate.
Qed.

Lemma C4_witness :
  statusCode (created complete_entity) = 201 /\
  exists e,
    entities_of (created complete_entity) = [e] /\
    e_plate e = "AB-12-CD" /\ e_car e = "Golf" /\ e_locality e = "Braga" /\
    e_notes e = None /\ e_date e = Some "2024-05-01" /\
    e_period e = Some "Tarde".
Proof.
  split; [reflexivity|].
  destruct (C4_create_round_trip site (create "complete") empty_world
              (snd (handler site (create "complete") empty_world))
              (created complete_entity) complete
              eq_refl eq_refl eq_refl eq_refl)
    as (e & He & (s1 & E1 & Hpl) & (s2 & E2 & Hca) & (s3 & E3 & Hlo)
        & _ & Hno & _ & Hpe & _ & _ & _ & Hday & _).
  inversion E1; inversion E2; inversion E3; subst.
  exists e. repeat split; try assumption.
  apply (Hday site_keeps_days "2024-05-01"); reflexivity.
Defined.

(** C8 as stated fails on an accepted body whose [sortIndex] is 0: the
    camelCase key is supplied, yet the row is stored with the snake_case
    value. *)
Lemma C8_counterexample :
  get zero_sort_index "sortIndex" = Ok (VNum 0) /\
  get zero_sort_index "sort_index" = Ok (VNum 5) /\
  exists resp w',
    handler site (create "zero sort index") empty_world = (Ok resp, w') /\
    statusCode resp = 201 /\
    map e_sortIndex (entities_of resp) = [5] /\
    map sort_index (table w') = [5].
Proof. repeat split. do 2 eexists. repeat split. Qed.

Lemma C8_witness :
  statusCode (created complete_entity) = 201 /\
  exists r,
    In r (table (snd (handler site (create "complete") empty_world))) /\
    sort_index r = 3.
Proof.
  split; [reflexivity|].
  destruct (C8_sort_index_falls_back_when_falsy site (create "complete")
              empty_world
              (snd (handler site (create "complete") empty_world))
              (created complete_entity) complete
              (or_introl (conj eq_refl eq_refl)) eq_refl eq_refl)
    as (r & e & _ & _ & Hin & _ & _ & _ & Hnumber & _).
  exists r. split; [exact Hin|]. apply Hnumber; [reflexivity|discriminate].
Defined.



(** C7 as stated fails on a request whose body is not read: a GET with an
    unparsable body is answered 200 with the listing. *)
Lemma C7_counterexample :
  JSON_parse site "{ not json" = None /\
  exists entities,
    fst (handler site (request "GET" "/appointments" "{ not json") world3)
      = Ok (listing entities) /\
    map e_id entities = ["c"; "b"; "a"] /\
    statusCode (listing entities) = 200.
Proof. split; [reflexivity|]. eexists. repeat split. Qed.

Lemma C7_witness :
  httpMethod list_all <> "OPTIONS" /\
  fst (handler site_down list_all empty_world) =
    Ok (internal_error site_down "connect ECONNREFUSED") /\
  fst (handler site (create "{ not json") empty_world) =
    Ok (internal_error site "Unexpected token in JSON") /\
  fst (handler site_failing list_all world3) =
    Ok (internal_error site_failing "canceling statement due to timeout") /\
  details_of (internal_error site "Unexpected token in JSON") = None /\
  details_of (internal_error site_failing
                "canceling statement due to timeout")
    = Some (Message "canceling statement due to timeout").
Proof.
  assert (H : httpMethod list_all <> "OPTIONS") by discriminate.
  assert (H' : httpMethod (create "{ not json") <> "OPTIONS") by discriminate.
  split; [exact H|]. split; [|split; [|split; [|split]]].
  - apply (C7_failures_answer_500 site_down list_all empty_world H).
    reflexivity.
  - apply (C7_failures_answer_500 site (create "{ not json") empty_world H');
      [reflexivity|left; reflexivity|reflexivity].
  - destruct (C7_failures_answer_500 site_failing list_all world3 H)
      as (_ & _ & Hstore & _).
    apply (Hstore SelectAll "canceling statement due to timeout");
      [right; left; reflexivity|reflexivity].
  - reflexivity.
  - apply (C7_failures_answer_500 site_failing list_all world3 H).
    reflexivity.
Defined.

End Runs.

(* ================================================================== *)
(** ** transformToBackend on its own output *)
(* ================================================================== *)

Lemma or_else_truthy (a b : value) :
  truthy b = true -> truthy (or_else a b) = true.
Proof. unfold or_else. destruct (truthy a) eqn:E; auto. Qed.

Lemma or_else_fixed (a b : value) :
  truthy b = true -> or_else (or_else a b) b = or_else a b.
Proof.
  intros Hb. unfold or_else at 1. rewrite (or_else_truthy a b Hb).
  reflexivity.
Qed.

Lemma or_else_null_fixed (a : value) :
  or_else (or_else a VNull) VNull = or_else a VNull.
Proof. unfold or_else. destruct (truthy a) eqn:E; [rewrite E|]; reflexivity. Qed.

Lemma opt_trim_again (name : string) (v n : value) :
  opt_trim name v = Ok n ->
  exists n', opt_trim name (or_else n VNull) = Ok n' /\
             or_else n' VNull = or_else n VNull.
Proof.
  destruct v; simpl; try discriminate; intros E; inversion E; subst;
    try (exists VUndefined; split; reflexivity).
  unfold or_else. simpl.
  destruct (trim s =? "")%string eqn:Hs; simpl.
  - exists VUndefined. split; reflexivity.
  - exists (VStr (trim (trim s))). rewrite trim_idempotent. simpl.
    rewrite Hs. split; reflexivity.
Qed.

Lemma opt_trim_fixed (name : string) (v n : value) :
  opt_trim name v = Ok n -> opt_trim name n = Ok n.
Proof.
  destruct v; simpl; try discriminate; intros E; inversion E; subst; simpl;
    [reflexivity|reflexivity|]. rewrite trim_idempotent. reflexivity.
Qed.

Lemma opt_upper_trim_fixed (name : string) (v n : value) :
  opt_upper_trim name v = Ok n -> opt_upper_trim name n = Ok n.
Proof.
  destruct v; simpl; try discriminate; intros E; inversion E; subst; simpl;
    [reflexivity|reflexivity|].
  rewrite (trim_upper s), toUpperCase_idempotent, (trim_upper (trim s)),
    trim_idempotent.
  reflexivity.
Qed.

(** X11.  [transformToBackend] is idempotent: applied to the object it
    returned, it returns that object again. *)
Theorem transformToBackend_idempotent (data : value) (b : backend) :
  transformToBackend data = Ok b ->
  transformToBackend (object_of b) = Ok b.
Proof.
  intros H.
  assert (Hd : nullish data = false).
  { destruct data; try reflexivity; discriminate H. }
  destruct (transform_fields data b Hd H)
    as (Bd & Bpe & Bpl & Bca & Bse & Blo & Bst & (n & Bn & Bno)
        & (x & Bx & Bex) & Bsi).
  destruct (opt_trim_again _ _ _ Bn) as (n' & Hn' & En').
  destruct (opt_trim_again _ _ _ Bx) as (x' & Hx' & Ex').
  unfold transformToBackend, object_of. simpl.
  rewrite (opt_upper_trim_fixed _ _ _ Bpl). simpl.
  rewrite (opt_trim_fixed _ _ _ Bca). simpl.
  rewrite (opt_trim_fixed _ _ _ Blo). simpl.
  rewrite Bno, Hn'. simpl. rewrite Bex, Hx'. simpl.
  rewrite En', Ex', <- Bno, <- Bex.
  assert (E1 : or_else (b_date b) VNull = b_date b)
    by (rewrite Bd; apply or_else_null_fixed).
  assert (E2 : or_else (b_period b) VNull = b_period b)
    by (rewrite Bpe; apply or_else_null_fixed).
  assert (E3 : or_else (b_status b) (VStr "NE") = b_status b)
    by (rewrite Bst; apply or_else_fixed; reflexivity).
  assert (E4 : or_else (or_else VUndefined (b_sort_index b)) (VNum 1)
               = b_sort_index b).
  { unfold or_else at 2. simpl. rewrite Bsi. apply or_else_fixed.
    reflexivity. }
  rewrite E1, E2, E3, E4. destruct b; reflexivity.
Qed.

(* ================================================================== *)
(** ** What the validator reads, and what it lets through *)
(* ================================================================== *)

(** X9.  The validator reads six fields and no other: two bodies other
    than [null] that agree on plate, car, service, locality, status and
    period get the same messages, whatever their date, notes, extra or
    sort index. *)
Theorem validation_reads_six_fields (data data' : value) :
  nullish data = false -> nullish data' = false ->
  (forall r, Contract.field data (Contract.field_of r)
             = Contract.field data' (Contract.field_of r)) ->
  validateAppointment data = validateAppointment data'.
Proof.
  intros Hd Hd' Hsame. rewrite !validate_violations by assumption.
  unfold Contract.violations. f_equal. f_equal.
  apply filter_ext. intros r. rewrite Hsame. reflexivity.
Qed.

(** X8.  A body that is not [null] and has none of the six fields, such
    as the empty object, a number, a text or an array, gets the five
    messages of the required fields, in order. *)
Theorem fieldless_body_gets_five_messages (data : value) :
  fieldless data ->
  validateAppointment data =
  Ok [msg_plate; msg_car; msg_service; msg_locality; msg_status].
Proof.
  intros [Hd Hf]. rewrite validate_violations by assumption.
  unfold Contract.violations, Contract.rules. simpl.
  pose proof (Hf Contract.PlateRule) as H1.
  pose proof (Hf Contract.CarRule) as H2.
  pose proof (Hf Contract.ServiceRule) as H3.
  pose proof (Hf Contract.LocalityRule) as H4.
  pose proof (Hf Contract.StatusRule) as H5.
  pose proof (Hf Contract.PeriodRule) as H6.
  simpl in *. rewrite H1, H2, H3, H4, H5, H6. reflexivity.
Qed.

Lemma primitive_fieldless (data : value) :
  match data with
  | VBool _ | VNum _ | VStr _ | VArr _ | VObj [] => True
  | _ => False
  end -> fieldless data.
Proof.
  destruct data as [| | | | |items|fields]; try contradiction;
    try (intros _; split; [reflexivity|intros r; reflexivity]).
  destruct fields; [|contradiction].
  intros _. split; [reflexivity|intros r; destruct r; reflexivity].
Qed.

(** A body passes validation exactly when it is not [null] and meets the
    six rules. *)
Lemma valid_iff (data : value) :
  validateAppointment data = Ok [] <->
  nullish data = false /\
  forall r, Contract.meets truthy r (Contract.field data (Contract.field_of r))
            = true.
Proof.
  split; [apply valid_meets|]. intros [Hd Hm].
  rewrite validate_violations by assumption. f_equal.
  unfold Contract.violations.
  replace (filter _ Contract.rules) with (@nil Contract.rule); [reflexivity|].
  symmetry. induction Contract.rules as [|r l IH]; simpl; [reflexivity|].
  rewrite Hm. simpl. exact IH.
Qed.

Lemma opt_trim_trimmable (name : string) (v : value) :
  (exists n, opt_trim name v = Ok n) <-> trimmable v = true.
Proof.
  destruct v; simpl; split; intros H; try reflexivity; eauto;
    try discriminate; destruct H as [out H]; discriminate.
Qed.

(** X10.  After validation the transformation can only fail on the notes
    or the extra: it succeeds exactly when each of the two is absent,
    [null] or text. *)
Theorem transform_after_validation (data : value) :
  validateAppointment data = Ok [] ->
  ((exists b, transformToBackend data = Ok b) <->
   trimmable (Contract.field data "notes") = true /\
   trimmable (Contract.field data "extra") = true).
Proof.
  intros Hv. destruct (valid_meets data Hv) as [Hd Hm]. split.
  - intros [b Hb].
    destruct (transform_fields data b Hd Hb)
      as (_ & _ & _ & _ & _ & _ & _ & (n & Bn & _) & (x & Bx & _) & _).
    split; [apply (opt_trim_trimmable "notes")|
            apply (opt_trim_trimmable "extra")]; eauto.
  - intros [Hn Hx].
    destruct (nonempty_text_inv _ (Hm Contract.PlateRule)) as (pl & Epl & _).
    destruct (nonempty_text_inv _ (Hm Contract.CarRule)) as (ca & Eca & _).
    destruct (nonempty_text_inv _ (Hm Contract.LocalityRule))
      as (lo & Elo & _).
    simpl in Epl, Eca, Elo.
    apply (opt_trim_trimmable "notes") in Hn. destruct Hn as [n Hn].
    apply (opt_trim_trimmable "extra") in Hx. destruct Hx as [x Hx].
    unfold transformToBackend. rewrite !(get_field _ _ Hd).
    rewrite Epl, Eca, Elo. simpl. rewrite Hn. simpl. rewrite Hx. simpl.
    eauto.
Qed.

Section Normal.

Variable P : platform.

(** The columns bound for a body that passed validation. *)
Lemma columns_normal (data : value) (b : backend) (cols : columns) :
  validateAppointment data = Ok [] ->
  transformToBackend data = Ok b -> bind_parameters P b = Ok cols ->
  let given := Contract.field data in
  (exists s, given "plate" = VStr s /\ trim s <> "" /\
             c_plate cols = trim (toUpperCase s)) /\
  (exists s, given "car" = VStr s /\ trim s <> "" /\
             c_car cols = trim s) /\
  (exists s, given "locality" = VStr s /\ trim s <> "" /\
             c_locality cols = trim s) /\
  (given "service" = VStr (c_service cols) /\
   In (c_service cols) services) /\
  (given "status" = VStr (c_status cols) /\ In (c_status cols) statuses) /\
  (c_period cols = Contract.given_or_null (given "period") /\
   forall p, c_period cols = Some p -> In p periods) /\
  c_notes cols = Contract.blank_to_null (given "notes") /\
  c_extra cols = Contract.blank_to_null (given "extra") /\
  (truthy (given "date") = false -> c_date cols = None) /\
  (truthy (given "date") = true ->
   read_date P (given "date") = c_date cols /\ c_date cols <> None).
Proof.
  intros Hv Hb Hc given.
  destruct (valid_meets data Hv) as [Hd Hm].
  destruct (transform_fields data b Hd Hb)
    as (Bd & Bpe & Bpl & Bca & Bse & Blo & Bst & (n & Bn & Bno)
        & (x & Bx & Bex) & _).
  destruct (bind_parameters_inv P b cols Hc)
    as (Cd & Cpe & Cpl & Cca & Cse & Clo & Cst & Cno & Cex & _).
  destruct (nonempty_text_inv _ (Hm Contract.PlateRule)) as (pl & Epl & Npl).
  destruct (nonempty_text_inv _ (Hm Contract.CarRule)) as (ca & Eca & Nca).
  destruct (nonempty_text_inv _ (Hm Contract.LocalityRule))
    as (lo & Elo & Nlo).
  destruct (one_of_inv _ _ (Hm Contract.ServiceRule)) as (se & Ese & Hse).
  destruct (one_of_inv _ _ (Hm Contract.StatusRule)) as (st & Est & Hst).
  simpl in Epl, Eca, Elo, Ese, Est.
  rewrite Epl in Bpl. rewrite Eca in Bca. rewrite Elo in Blo.
  simpl in Bpl, Bca, Blo.
  inversion Bpl as [Bpl']. inversion Bca as [Bca']. inversion Blo as [Blo'].
  rewrite <- Bpl' in Cpl. rewrite <- Bca' in Cca. rewrite <- Blo' in Clo.
  simpl in Cpl, Cca, Clo.
  inversion Cpl as [Cpl']. inversion Cca as [Cca']. inversion Clo as [Clo'].
  apply text_in_inv in Cse. apply text_in_inv in Cst.
  assert (Tst : truthy (VStr st) = true).
  { apply (one_of_truthy statuses); [apply no_blank_status|].
    rewrite <- Est. apply (Hm Contract.StatusRule). }
  rewrite Bst, Est in Cst. unfold or_else in Cst. rewrite Tst in Cst.
  rewrite Bse, Ese in Cse.
  inversion Cse as [Cse']. inversion Cst as [Cst'].
  rewrite Bpe in Cpe. apply period_stored in Cpe.
  rewrite Bno in Cno. apply (optional_text_stored _ _ _ _ _ Bn) in Cno.
  rewrite Bex in Cex. apply (optional_text_stored _ _ _ _ _ Bx) in Cex.
  rewrite Bd in Cd. destruct (date_stored P _ _ Cd) as [Dnone Dsome].
  unfold given.
  split; [exists pl; auto|]. split; [exists ca; auto|].
  split; [exists lo; auto|].
  split; [rewrite Ese, <- Cse'; auto|].
  split; [rewrite Est, <- Cst'; auto|].
  split.
  { split; [exact Cpe|]. intros p Hp. rewrite Cpe in Hp.
    pose proof (Hm Contract.PeriodRule) as Hper.
    cbn [Contract.meets Contract.field_of] in Hper.
    destruct (Contract.field data "period") as [| | | |s| |] eqn:Ep;
      simpl in Hp; try discriminate Hp.
    destruct (s =? "")%string eqn:Es; [discriminate Hp|].
    inversion Hp; subst p. cbn [truthy] in Hper. rewrite Es in Hper.
    cbn [negb orb] in Hper.
    destruct (one_of_inv _ _ Hper) as (s' & E' & Hin).
    inversion E'; subst s'. exact Hin. }
  split; [exact Cno|]. split; [exact Cex|].
  split; [exact Dnone|].
  intros Ht. destruct (Dsome Ht) as (t & Hr & Ed).
  rewrite Hr, Ed. split; [reflexivity|discriminate].
Qed.

End Normal.

(* ================================================================== *)
(** ** One request, step by step *)
(* ================================================================== *)

Lemma length_zero_nil {A} (l : list A) :
  (List.length l =? 0)%nat = true -> l = [].
Proof. destruct l; simpl; [reflexivity|discriminate]. Qed.

Lemma filter_none_keeps_all (key : string) (t : list row) :
  filter (has_id key) t = [] ->
  filter (fun r => negb (has_id key r)) t = t.
Proof.
  induction t as [|r t IH]; simpl; [reflexivity|].
  destruct (has_id key r); simpl; [discriminate|].
  intros H. rewrite IH; auto.
Qed.

Lemma update_rows_none (cols : columns) (key : string) (now : Z)
    (t : list row) :
  filter (has_id key) (update_rows cols key now t) = [] ->
  update_rows cols key now t = t.
Proof.
  rewrite filter_update_rows. intros H. apply map_eq_nil in H.
  apply update_rows_no_match, H.
Qed.

Lemma statements_app (l l' : list effect) :
  statements (l ++ l') = (statements l ++ statements l')%list.
Proof.
  induction l as [|e l IH]; simpl; [reflexivity|].
  destruct e; simpl; rewrite IH; reflexivity.
Qed.

Lemma filter_head_in {A} (f : A -> bool) (l rest : list A) (x : A) :
  filter f l = x :: rest -> In x l.
Proof.
  intros H. assert (Hin : In x (filter f l)) by (rewrite H; left; reflexivity).
  apply filter_In in Hin. tauto.
Qed.

(** The outcome of a write, once its parameters are bound. *)
Ltac open_write :=
  match goal with
  | H : bind (bind_parameters ?P ?b) _ = _ |- _ =>
      destruct (bind_parameters P b) eqn:?; simpl in H; inversion H; subst;
      clear H
  end.

Section Steps.

Variable P : platform.

(** The table is as it was unless the answer is 200 or 201, or a Create
    or an Update threw after its statement went through, which only the
    rendering of the row it returned can do. *)
Lemma dispatch_failure (c : Client) (m key : string) (ev : event)
    (w w' : world) (r : result response) :
  dispatch P c m key ev w = (r, w') ->
  table w' = table w \/
  (exists resp,
     r = Ok resp /\ (statusCode resp = 200 \/ statusCode resp = 201)) \/
  (exists e x,
     r = Throw e /\ (m = "POST" \/ m = "PUT") /\ In x (table w') /\
     transformToFrontend P x = Throw e).
Proof.
  unfold dispatch, list_branch, create_branch, update_branch, delete_branch,
         parse, first_row.
  unfold_io.
  repeat (rewrite client_query_eq || split_match || simpl in * );
    intros E; invert_pairs; simpl; eauto;
    try open_write; simpl in *; try discriminate; eauto 6;
    try (left;
         match goal with
         | H : (List.length _ =? 0)%nat = true |- _ =>
             apply length_zero_nil in H;
             first [ apply update_rows_none; exact H
                   | apply filter_none_keeps_all; exact H ]
         end).
  - right. right. do 2 eexists. split; [reflexivity|].
    split; [left; apply String.eqb_eq; assumption|].
    split; [|eassumption]. apply in_or_app. right. left. reflexivity.
  - right. right. do 2 eexists. split; [reflexivity|].
    split; [right; apply String.eqb_eq; assumption|].
    split; [|eassumption].
    match goal with
    | H : filter _ _ = _ :: _ |- _ => apply filter_head_in in H; exact H
    end.
Qed.

(** The statement a branch sends is the one of its method, on the id of
    the path. *)
Lemma dispatch_statement (c : Client) (m key : string) (ev : event)
    (w w' : world) (r : result response) :
  dispatch P c m key ev w = (r, w') ->
  trace w' = trace w \/
  exists s, trace w' = (trace w ++ [Query s])%list /\
            is_statement_of m key s = true.
Proof.
  unfold dispatch, list_branch, create_branch, update_branch, delete_branch,
         parse, first_row.
  unfold_io.
  repeat (rewrite client_query_eq || split_match || simpl in * );
    intros E; invert_pairs; simpl; auto;
    right; eexists; (split; [reflexivity|]); simpl;
    rewrite ?String.eqb_refl;
    repeat match goal with
           | H : (_ =? _)%string = true |- _ => rewrite H
           end; reflexivity.
Qed.

(** The shape of what the switch answers. *)
Lemma dispatch_shape (c : Client) (m key : string) (ev : event)
    (w w' : world) (resp : response) :
  dispatch P c m key ev w = (Ok resp, w') ->
  headers resp = corsHeaders /\
  In (statusCode resp) [200; 201; 400; 404; 405] /\
  exists e,
    content_of resp = Json e /\
    success e = ((statusCode resp =? 200) || (statusCode resp =? 201)) /\
    (error e = None <-> success e = true) /\
    (data e <> None -> success e = true) /\
    (details e <> None -> statusCode resp = 400).
Proof.
  unfold dispatch, list_branch, create_branch, update_branch, delete_branch,
         parse, first_row.
  unfold_io.
  repeat (rewrite client_query_eq || split_match || simpl in * );
    intros E; invert_pairs; simpl;
    (split; [reflexivity|]); (split; [auto 10|]);
    eexists; (split; [reflexivity|]); simpl;
    repeat split; intros; try reflexivity; try discriminate; try congruence.
Qed.

End Steps.

(* ================================================================== *)
(** ** Every answer, every request *)
(* ================================================================== *)

Section Answers.

Variable P : platform.

(** Outside the preflight an answer comes from the catch block or from the
    switch. *)
Lemma handler_split (ev : event) (w w' : world) (resp : response) :
  httpMethod ev <> "OPTIONS" ->
  handler P ev w = (Ok resp, w') ->
  (exists e, resp = internal_error P e) \/
  (connect_error P = None /\
   exists w1,
     dispatch P (Connection (List.length (trace w))) (httpMethod ev)
              (appointmentId_of ev) ev (connected w) = (Ok resp, w1) /\
     w' = log End w1).
Proof.
  intros Ho H. destruct (connect_error P) as [e|] eqn:Hc.
  - rewrite (handler_unreachable _ _ _ e) in H by assumption.
    inversion H; subst. left. eauto.
  - rewrite handler_connected in H by assumption.
    destruct (dispatch P _ _ _ _ _) as [[r|e] w1] eqn:D;
      simpl in H; inversion H; subst.
    + right. eauto.
    + left. eauto.
Qed.

(** X3.  Every answer carries the CORS headers and one of six status
    codes, and has an empty body exactly when the request is the
    preflight. *)
Theorem every_answer_has_cors_and_known_status (ev : event) (w w' : world)
    (resp : response) :
  handler P ev w = (Ok resp, w') ->
  headers resp = corsHeaders /\
  In (statusCode resp) status_codes /\
  (content_of resp = Empty <-> httpMethod ev = "OPTIONS").
Proof.
  intros H. destruct (string_dec (httpMethod ev) "OPTIONS") as [Ho|Ho].
  - rewrite handler_preflight in H by assumption. inversion H; subst.
    simpl. tauto.
  - destruct (handler_split ev w w' resp Ho H)
      as [(e & E)|(_ & w1 & D & _)].
    + subst resp. simpl. repeat split; auto 10; try discriminate.
      intros; contradiction.
    + destruct (dispatch_shape _ _ _ _ _ _ _ _ D) as (Hh & Hs & e & He & _).
      split; [exact Hh|]. split.
      * unfold status_codes. simpl in Hs |- *. tauto.
      * rewrite He. split; [discriminate|intros; contradiction].
Qed.

(** X4.  Outside the preflight the body is an envelope in which [success]
    says whether the status is 200 or 201, [error] is present exactly when
    [success] is false, [data] comes only with success, and [details] only
    with 400 or, in development, with 500. *)
Theorem envelope_is_coherent (ev : event) (w w' : world) (resp : response) :
  httpMethod ev <> "OPTIONS" ->
  handler P ev w = (Ok resp, w') ->
  exists e,
    content_of resp = Json e /\
    success e = ((statusCode resp =? 200) || (statusCode resp =? 201)) /\
    (error e = None <-> success e = true) /\
    (data e <> None -> success e = true) /\
    (details e <> None ->
     statusCode resp = 400 \/
     (statusCode resp = 500 /\ NODE_ENV P = Some "development")).
Proof.
  intros Ho H.
  destruct (handler_split ev w w' resp Ho H)
    as [(e & E)|(_ & w1 & D & _)].
  - subst resp. eexists. split; [reflexivity|]. simpl.
    split; [reflexivity|]. split; [split; discriminate|].
    split; [intros N; contradiction|].
    intros N. right. split; [reflexivity|].
    unfold error_details in N.
    destruct (NODE_ENV P) as [mode|]; [|contradiction].
    destruct (String.eqb_spec mode "development"); [subst; reflexivity|].
    contradiction.
  - destruct (dispatch_shape _ _ _ _ _ _ _ _ D)
      as (_ & _ & e & He & Hs & Herr & Hdata & Hdet).
    exists e. auto 10.
Qed.

(** X5.  An invocation sends the store at most one statement, and only the
    one of its method: a SELECT for GET, an INSERT for POST, an UPDATE or a
    DELETE on the id of the path for PUT and DELETE, none for any other
    method. *)
Theorem one_statement_per_request (ev : event) (w : world) :
  statements (performed w (snd (handler P ev w))) = [] \/
  exists s,
    statements (performed w (snd (handler P ev w))) = [s] /\
    is_statement_of (httpMethod ev) (appointmentId_of ev) s = true.
Proof.
  destruct (string_dec (httpMethod ev) "OPTIONS") as [Ho|Ho].
  - rewrite handler_preflight by assumption. left. unfold performed. simpl.
    rewrite <- (app_nil_r (trace w)) at 2. rewrite skipn_app_exact.
    reflexivity.
  - destruct (connect_error P) as [e|] eqn:Hc.
    + rewrite (handler_unreachable _ _ _ e) by assumption. left.
      unfold performed. simpl. rewrite skipn_app_exact. reflexivity.
    + rewrite handler_connected by assumption.
      destruct (dispatch P _ _ _ _ _) as [r w1] eqn:D.
      destruct (dispatch_statement _ _ _ _ _ _ _ _ D) as [Ht|(s & Ht & Hs)];
        destruct r as [r|e]; unfold performed; simpl; rewrite Ht; simpl;
        rewrite <- ?app_assoc, skipn_app_exact; simpl; eauto.
Qed.

(** X6.  The table changes only once a write has gone through: never on a
    GET or a preflight, and otherwise only with an answer of 200 or 201,
    or with a 500 to a Create or an Update whose statement went through
    and left a row with a date that cannot be rendered.  Every refusal
    (400, 404, 405) leaves the table as it was. *)
Theorem table_changes_only_after_a_write (ev : event) (w w' : world)
    (resp : response) :
  handler P ev w = (Ok resp, w') ->
  (httpMethod ev = "GET" \/ httpMethod ev = "OPTIONS" ->
   table w' = table w) /\
  (table w' = table w \/
   statusCode resp = 200 \/ statusCode resp = 201 \/
   (statusCode resp = 500 /\
    (httpMethod ev = "POST" \/ httpMethod ev = "PUT") /\
    exists r, In r (table w') /\ renders P r = false)).
Proof.
  intros H. destruct (string_dec (httpMethod ev) "OPTIONS") as [Ho|Ho].
  { rewrite handler_preflight in H by assumption. inversion H; auto. }
  destruct (connect_error P) as [e0|] eqn:Hc.
  { rewrite (handler_unreachable _ _ _ e0) in H by assumption.
    inversion H; auto. }
  rewrite handler_connected in H by assumption.
  destruct (dispatch P _ _ _ _ _) as [r w1] eqn:D.
  assert (Ht : table w' = table w1)
    by (destruct r; inversion H; reflexivity).
  split.
  - intros [Hg|Hopt]; [|contradiction]. rewrite Ht.
    rewrite Hg in D. unfold dispatch in D. simpl in D.
    rewrite list_branch_eq in D.
    destruct (fault P SelectAll); [inversion D; reflexivity|].
    destruct (map_result _ _); inversion D; reflexivity.
  - rewrite Ht.
    destruct (dispatch_failure _ _ _ _ _ _ _ _ D)
      as [Hsame|[(x & Ex & Hs)|(e & x & Ex & Hm & Hin & Hx)]].
    + left. exact Hsame.
    + subst r. inversion H; subst. right. tauto.
    + subst r. inversion H; subst. right. right. right.
      split; [reflexivity|]. split; [exact Hm|]. exists x.
      split; [exact Hin|]. apply transformToFrontend_throws. eauto.
Qed.

(** X7.  A method other than OPTIONS, GET, POST, PUT and DELETE is
    answered 405 once the store is reached: the connection is opened and
    ended, no statement is sent and the table is left alone. *)
Theorem unsupported_method_is_refused (ev : event) (w : world) :
  ~ In (httpMethod ev) ["OPTIONS"; "GET"; "POST"; "PUT"; "DELETE"] ->
  connect_error P = None ->
  handler P ev w =
  (Ok (reply 405 (failure "Método não permitido" None)),
   log End (connected w)) /\
  performed w (log End (connected w)) = [Connect true; End].
Proof.
  intros Hm Hc. simpl in Hm.
  assert (Ho : httpMethod ev <> "OPTIONS") by intuition.
  split.
  - rewrite handler_connected by assumption. unfold dispatch.
    assert (E1 : (httpMethod ev =? "GET")%string = false)
      by (apply String.eqb_neq; intuition).
    assert (E2 : (httpMethod ev =? "POST")%string = false)
      by (apply String.eqb_neq; intuition).
    assert (E3 : (httpMethod ev =? "PUT")%string = false)
      by (apply String.eqb_neq; intuition).
    assert (E4 : (httpMethod ev =? "DELETE")%string = false)
      by (apply String.eqb_neq; intuition).
    rewrite E1, E2, E3, E4. reflexivity.
  - unfold performed. simpl. rewrite <- app_assoc, skipn_app_exact.
    reflexivity.
Qed.

End Answers.

(* ================================================================== *)
(** ** What a request can do to the table *)
(* ================================================================== *)

Ltac no_errors :=
  match goal with
  | H : (0 <? List.length ?l)%nat = false |- _ =>
      apply positive_length in H; subst l
  end.

Section Table.

Variable P : platform.

(** The four things the switch can do to the table: nothing, append the
    row of a valid body, rewrite the rows of an id with the columns of a
    valid body, remove the rows of an id. *)
Lemma dispatch_table (c : Client) (m key : string) (ev : event)
    (w w' : world) (r : result response) :
  dispatch P c m key ev w = (r, w') ->
  table w' = table w \/
  (exists data b cols,
     validateAppointment data = Ok [] /\
     transformToBackend data = Ok b /\
     bind_parameters P b = Ok cols /\
     (table w' =
        (table w ++ [new_row cols (new_id P (table w)) (clock w)])%list \/
      table w' = update_rows cols key (clock w) (table w))) \/
  table w' = filter (fun r => negb (has_id key r)) (table w).
Proof.
  unfold dispatch, list_branch, create_branch, update_branch, delete_branch,
         parse, first_row.
  unfold_io.
  repeat (rewrite client_query_eq || split_match || simpl in * );
    intros E; invert_pairs; simpl; auto;
    try open_write; simpl in *; try discriminate; auto;
    try no_errors;
    right; left; do 3 eexists; eauto 6.
Qed.

Lemma handler_table (ev : event) (w : world) :
  let w' := snd (handler P ev w) in
  let key := appointmentId_of ev in
  table w' = table w \/
  (exists data b cols,
     validateAppointment data = Ok [] /\
     transformToBackend data = Ok b /\
     bind_parameters P b = Ok cols /\
     (table w' =
        (table w ++ [new_row cols (new_id P (table w)) (clock w)])%list \/
      table w' = update_rows cols key (clock w) (table w))) \/
  table w' = filter (fun r => negb (has_id key r)) (table w).
Proof.
  cbv zeta. destruct (string_dec (httpMethod ev) "OPTIONS") as [Ho|Ho].
  - rewrite handler_preflight by assumption. left. reflexivity.
  - destruct (connect_error P) as [e|] eqn:Hc.
    + rewrite (handler_unreachable _ _ _ e) by assumption. left. reflexivity.
    + rewrite handler_connected by assumption.
      destruct (dispatch P _ _ _ _ _) as [r w1] eqn:D.
      pose proof (dispatch_table _ _ _ _ _ _ _ D) as Ht.
      destruct r; simpl in *; exact Ht.
Qed.

End Table.

(* ================================================================== *)
(** ** Invariants of the table *)
(* ================================================================== *)

Lemma member_In (codes : list string) (s : string) :
  In s codes -> member codes s = true.
Proof.
  intros H. apply existsb_exists. exists s.
  split; [exact H|apply String.eqb_refl].
Qed.

Lemma clean_trimmed (s : string) : trim s <> "" -> clean (trim s) = true.
Proof.
  intros H. unfold clean. rewrite trim_idempotent, String.eqb_refl.
  apply String.eqb_neq in H. rewrite H. reflexivity.
Qed.

Lemma clean_blank_to_null (v : value) :
  clean_or_null (Contract.blank_to_null v) = true.
Proof.
  destruct v; simpl; try reflexivity.
  destruct (String.eqb_spec (trim s) ""); simpl; [reflexivity|].
  apply clean_trimmed. assumption.
Qed.

Section Invariants.

Variable P : platform.

(** The columns bound for a valid body make a well-formed row. *)
Lemma valid_columns_well_formed (data : value) (b : backend)
    (cols : columns) (r : row) :
  validateAppointment data = Ok [] ->
  transformToBackend data = Ok b -> bind_parameters P b = Ok cols ->
  columns_of r = cols -> well_formed r = true.
Proof.
  intros Hv Hb Hc Hr.
  destruct (columns_normal P data b cols Hv Hb Hc)
    as ((pl & _ & Npl & Epl) & (ca & _ & Nca & Eca) & (lo & _ & Nlo & Elo)
        & (_ & Hse) & (_ & Hst) & (_ & Hpe) & Hno & Hex & _).
  subst cols.
  cbn [columns_of c_period c_plate c_car c_service c_locality c_status
       c_notes c_extra] in *.
  unfold well_formed.
  rewrite Epl, Eca, Elo, Hno, Hex.
  rewrite (member_In _ _ Hse), (member_In _ _ Hst).
  rewrite !clean_blank_to_null.
  rewrite (clean_trimmed ca Nca), (clean_trimmed lo Nlo).
  assert (Hpl : clean (trim (toUpperCase pl)) = true)
    by apply clean_trimmed, upper_trim_nonempty, Npl.
  rewrite Hpl.
  assert (Hup : (toUpperCase (trim (toUpperCase pl))
                 =? trim (toUpperCase pl))%string = true).
  { rewrite (trim_upper pl), toUpperCase_idempotent.
    apply String.eqb_refl. }
  rewrite Hup.
  destruct (period r) as [p|]; [|reflexivity].
  rewrite (member_In _ _ (Hpe p eq_refl)). reflexivity.
Qed.

(** X12.  Every request keeps the table well formed: if every row has a
    non-empty, trimmed, upper-case plate, a non-empty trimmed car and
    locality, a service and a status among the codes, a period among the
    two values or none, and notes and extra that are trimmed and non-empty
    or null, then so has every row after the request. *)
Theorem handler_keeps_rows_well_formed (ev : event) (w : world) :
  forallb well_formed (table w) = true ->
  forallb well_formed (table (snd (handler P ev w))) = true.
Proof.
  intros Hw. rewrite forallb_forall in Hw |- *.
  destruct (handler_table P ev w)
    as [Ht|[(data & b & cols & Hv & Hb & Hc & [Ht|Ht])|Ht]];
    cbv zeta in Ht; rewrite Ht; clear Ht.
  - exact Hw.
  - intros r Hin. apply in_app_or in Hin. destruct Hin as [Hin|[E|[]]].
    + apply Hw, Hin.
    + subst r. apply (valid_columns_well_formed data b cols); auto.
      destruct cols; reflexivity.
  - intros r Hin. unfold update_rows in Hin. apply in_map_iff in Hin.
    destruct Hin as (r0 & E & Hin).
    destruct (has_id (appointmentId_of ev) r0).
    + subst r. apply (valid_columns_well_formed data b cols); auto.
      apply columns_of_set_columns.
    + subst r. apply Hw, Hin.
  - intros r Hin. apply filter_In in Hin. apply Hw, Hin.
Qed.

Lemma update_rows_ids (cols : columns) (key : string) (now : Z)
    (t : list row) :
  map id (update_rows cols key now t) = map id t.
Proof.
  induction t as [|r t IH]; simpl; [reflexivity|].
  rewrite IH. destruct (has_id key r); reflexivity.
Qed.

Lemma NoDup_ids_filter (f : row -> bool) (t : list row) :
  NoDup (map id t) -> NoDup (map id (filter f t)).
Proof.
  induction t as [|r t IH]; simpl; [auto|].
  intros H. inversion H as [|x l Hx Hl]; subst.
  destruct (f r); simpl; [|auto].
  constructor; [|auto]. intros Hin. apply Hx.
  apply in_map_iff in Hin. destruct Hin as (r' & E & Hin).
  apply filter_In in Hin. apply in_map_iff. exists r'. tauto.
Qed.

(** X14.  Ids stay unique: if no two rows share an id and the id the store
    would generate next is not in use, then no two rows share an id after
    the request, whatever it was; an Update never changes an id. *)
Theorem ids_stay_unique (ev : event) (w : world) :
  NoDup (map id (table w)) ->
  ~ In (new_id P (table w)) (map id (table w)) ->
  NoDup (map id (table (snd (handler P ev w)))).
Proof.
  intros Hn Hfresh.
  destruct (handler_table P ev w)
    as [Ht|[(data & b & cols & Hv & Hb & Hc & [Ht|Ht])|Ht]];
    cbv zeta in Ht; rewrite Ht; clear Ht.
  - exact Hn.
  - rewrite map_app. simpl. apply NoDup_app; [exact Hn| |].
    + constructor; [intros []|constructor].
    + intros a Ha [E|[]]. subst a. contradiction.
  - rewrite update_rows_ids. exact Hn.
  - apply NoDup_ids_filter, Hn.
Qed.

End Invariants.

Lemma member_inv (codes : list string) (s : string) :
  member codes s = true -> In s codes.
Proof.
  intros H. apply existsb_exists in H. destruct H as (x & Hx & Ex).
  apply String.eqb_eq in Ex. subst x. exact Hx.
Qed.

Lemma clean_inv (s : string) : clean s = true -> s <> "" /\ trim s = s.
Proof.
  unfold clean. intros H. apply andb_prop in H. destruct H as [H1 H2].
  apply negb_true_iff, String.eqb_neq in H1. apply String.eqb_eq in H2.
  auto.
Qed.

Lemma well_formed_inv (r : row) :
  well_formed r = true ->
  (plate r <> "" /\ trim (plate r) = plate r) /\
  toUpperCase (plate r) = plate r /\
  (car r <> "" /\ trim (car r) = car r) /\
  (locality r <> "" /\ trim (locality r) = locality r) /\
  In (service r) services /\ In (status r) statuses /\
  (forall p, period r = Some p -> In p periods) /\
  (forall s, notes r = Some s -> s <> "" /\ trim s = s) /\
  (forall s, extra r = Some s -> s <> "" /\ trim s = s).
Proof.
  unfold well_formed. intros H.
  apply andb_prop in H. destruct H as [H Hex].
  apply andb_prop in H. destruct H as [H Hno].
  apply andb_prop in H. destruct H as [H Hpe].
  apply andb_prop in H. destruct H as [H Hst].
  apply andb_prop in H. destruct H as [H Hse].
  apply andb_prop in H. destruct H as [H Hlo].
  apply andb_prop in H. destruct H as [H Hca].
  apply andb_prop in H. destruct H as [Hpl Hup].
  split; [apply clean_inv, Hpl|].
  split; [apply String.eqb_eq, Hup|].
  split; [apply clean_inv, Hca|]. split; [apply clean_inv, Hlo|].
  split; [apply member_inv, Hse|]. split; [apply member_inv, Hst|].
  split.
  { intros p E. rewrite E in Hpe. apply member_inv, Hpe. }
  split.
  - intros s E. rewrite E in Hno. apply clean_inv, Hno.
  - intros s E. rewrite E in Hex. apply clean_inv, Hex.
Qed.

Lemma nonempty_code (codes : list string) (s : string) :
  ~ In "" codes -> In s codes -> (s =? "")%string = false.
Proof.
  intros Hn Hin. apply String.eqb_neq. intros E. subst s. contradiction.
Qed.

Lemma no_blank_period : ~ In "" periods.
Proof. simpl. intuition discriminate. Qed.

(** An optional text that is clean goes through [?.trim() || null]
    unchanged. *)
Lemma optional_text_fixed (name : string) (x : option string) :
  (forall s, x = Some s -> s <> "" /\ trim s = s) ->
  exists n,
    opt_trim name (match x with Some s => VStr s | None => VNull end) = Ok n
    /\ or_else n VNull = match x with Some s => VStr s | None => VNull end.
Proof.
  intros H. destruct x as [s|]; simpl.
  - destruct (H s eq_refl) as [Hne Htr]. exists (VStr (trim s)).
    split; [reflexivity|]. rewrite Htr. unfold or_else. simpl.
    apply String.eqb_neq in Hne. rewrite Hne. reflexivity.
  - exists VUndefined. split; reflexivity.
Qed.

(** X17.  A well-formed row can be sent back as it is: a body carrying its
    fields passes validation and is transformed into those same fields. *)
Theorem stored_row_is_a_valid_body (data : value) (r : row) :
  well_formed r = true -> nullish data = false -> carries data r ->
  validateAppointment data = Ok [] /\
  exists b,
    transformToBackend data = Ok b /\
    b_plate b = VStr (plate r) /\ b_car b = VStr (car r) /\
    b_service b = VStr (service r) /\ b_locality b = VStr (locality r) /\
    b_status b = VStr (status r) /\
    b_period b = match period r with Some p => VStr p | None => VNull end /\
    b_notes b = match notes r with Some s => VStr s | None => VNull end /\
    b_extra b = match extra r with Some s => VStr s | None => VNull end.
Proof.
  intros Hw Hd (Epl & Eca & Ese & Elo & Est & Epe & Eno & Eex).
  destruct (well_formed_inv r Hw)
    as ((Npl & Tpl) & Upl & (Nca & Tca) & (Nlo & Tlo) & Hse & Hst & Hpe
        & Hno & Hex).
  split.
  - apply valid_iff. split; [exact Hd|]. intros rule.
    destruct rule; cbn [Contract.field_of Contract.meets];
      rewrite ?Epl, ?Eca, ?Ese, ?Elo, ?Est, ?Epe;
      cbn [Contract.nonempty_text Contract.one_of].
    + rewrite Tpl. apply negb_true_iff, String.eqb_neq, Npl.
    + rewrite Tca. apply negb_true_iff, String.eqb_neq, Nca.
    + destruct (in_dec string_dec (service r) services);
        [reflexivity|contradiction].
    + rewrite Tlo. apply negb_true_iff, String.eqb_neq, Nlo.
    + destruct (in_dec string_dec (status r) statuses);
        [reflexivity|contradiction].
    + destruct (period r) as [p|]; cbn [Contract.one_of truthy negb orb];
        [|reflexivity].
      destruct (in_dec string_dec p periods) as [|N];
        [apply orb_true_r|]. exfalso. apply N, Hpe. reflexivity.
  - destruct (optional_text_fixed "notes" (notes r) Hno) as (n & Hn & En).
    destruct (optional_text_fixed "extra" (extra r) Hex) as (x & Hx & Ex).
    unfold transformToBackend. rewrite !(get_field _ _ Hd).
    rewrite Epl, Eca, Ese, Elo, Est, Epe, Eno, Eex.
    cbn [bind opt_upper_trim opt_trim]. rewrite Hn. cbn [bind].
    rewrite Hx. cbn [bind]. eexists. split; [reflexivity|].
    cbn [b_plate b_car b_service b_locality b_status b_period b_notes
         b_extra].
    rewrite En, Ex, Tca, Tlo, Upl, Tpl.
    assert (Est' : or_else (VStr (status r)) (VStr "NE") = VStr (status r)).
    { unfold or_else. simpl.
      rewrite (nonempty_code statuses _ no_blank_status Hst). reflexivity. }
    assert (Epe' : or_else (match period r with
                            | Some p => VStr p
                            | None => VNull
                            end) VNull
                   = match period r with Some p => VStr p | None => VNull end).
    { destruct (period r) as [p|]; [|reflexivity]. unfold or_else. simpl.
      rewrite (nonempty_code periods p no_blank_period (Hpe p eq_refl)).
      reflexivity. }
    rewrite Est', Epe'. repeat split; reflexivity.
Qed.

(* ================================================================== *)
(** ** The id of the path *)
(* ================================================================== *)

Lemma split_acc_free (sep : ascii) (s acc : string) :
  has_char sep s = false -> split_acc sep acc s = [(acc ++ s)%string].
Proof.
  revert acc. induction s as [|c s IH]; intros acc H; simpl in *.
  - f_equal. induction acc; simpl; congruence.
  - apply orb_false_iff in H. destruct H as [Hc Hs]. rewrite Hc.
    rewrite IH by assumption. f_equal.
    induction acc; simpl; congruence.
Qed.

Lemma split_acc_nonempty (sep : ascii) (s acc : string) :
  split_acc sep acc s <> [].
Proof.
  revert acc. induction s as [|c s IH]; intros acc; simpl.
  - discriminate.
  - destruct (Ascii.eqb c sep); [discriminate|apply IH].
Qed.

Lemma last_split (sep : ascii) (prefix key acc : string) :
  has_char sep key = false ->
  last (split_acc sep acc (prefix ++ String sep key)) "" = key.
Proof.
  intros Hk. revert acc. induction prefix as [|c p IH]; intros acc; simpl.
  - rewrite Ascii.eqb_refl. rewrite split_acc_free by assumption.
    reflexivity.
  - destruct (Ascii.eqb c sep).
    + specialize (IH EmptyString).
      destruct (split_acc sep "" (p ++ String sep key)) eqn:E;
        [exfalso; exact (split_acc_nonempty _ _ _ E)|exact IH].
    + apply IH.
Qed.

Lemma nth_last_element {A} (l : list A) (d : A) :
  nth (List.length l - 1) l d = last l d.
Proof.
  induction l as [|x l IH]; simpl; [reflexivity|].
  destruct l as [|y l]; [reflexivity|].
  simpl in IH |- *. rewrite Nat.sub_0_r in IH. exact IH.
Qed.

(** X15.  The id the handler works on is the text after the last '/' of
    the path, whatever precedes it. *)
Theorem id_is_the_last_segment (method prefix key text : string) :
  has_char "/" key = false ->
  appointmentId_of {| httpMethod := method;
                      path := prefix ++ String "/" key;
                      body := text |} = key.
Proof.
  intros Hk. unfold appointmentId_of. simpl.
  rewrite nth_last_element. unfold split. apply last_split, Hk.
Qed.

(* ================================================================== *)
(** ** Delete, and Update as a replacement *)
(* ================================================================== *)

Lemma filter_has_id_after_delete (key : string) (t : list row) :
  filter (has_id key) (filter (fun r => negb (has_id key r)) t) = [].
Proof.
  induction t as [|r t IH]; simpl; [reflexivity|].
  destruct (has_id key r) eqn:E; simpl; [exact IH|].
  rewrite E. exact IH.
Qed.

Lemma Forall2_in_left {A B} (R : A -> B -> Prop) (l : list A) (l' : list B)
    (a : A) :
  Forall2 R l l' -> In a l -> exists b, In b l' /\ R a b.
Proof.
  induction 1 as [|x y l l' Hxy Hl IH]; simpl; [contradiction|].
  intros [E|Hin].
  - subst x. eauto.
  - destruct (IH Hin) as (b & Hb & Hab). eauto.
Qed.

Section Delete.

Variable P : platform.

Lemma delete_without_id (c : Client) (key : string) (w : world) :
  no_id key = true -> delete_branch P c key w = (Ok missing_id, w).
Proof. intros Hk. unfold delete_branch. rewrite Hk. reflexivity. Qed.

Lemma delete_applied (c : Client) (key : string) (w : world) :
  no_id key = false -> fault P (DeleteRow key) = None ->
  delete_branch P c key w =
  (Ok match filter (has_id key) (table w) with
      | [] => not_found
      | _ :: _ => deleted
      end,
   {| table := filter (fun r => negb (has_id key r)) (table w);
      clock := clock w;
      trace := (trace w ++ [Query (DeleteRow key)])%list;
      client := client w |}).
Proof.
  intros Hk Hf. unfold delete_branch. rewrite Hk. unfold_io.
  rewrite client_query_eq, Hf. simpl.
  destruct (filter (has_id key) (table w)); reflexivity.
Qed.

Lemma no_id_false (key : string) :
  key <> "" -> key <> "appointments" -> no_id key = false.
Proof.
  intros K1 K2. unfold no_id. apply String.eqb_neq in K1, K2.
  rewrite K1, K2. reflexivity.
Qed.

Lemma delete_outcome (ev : event) (w : world) :
  httpMethod ev = "DELETE" -> connect_error P = None ->
  handler P ev w =
  settle P (delete_branch P (Connection (List.length (trace w)))
                          (appointmentId_of ev) (connected w)).
Proof.
  intros Hm Hc. rewrite handler_connected; auto.
  - rewrite Hm. reflexivity.
  - rewrite Hm. discriminate.
Qed.

(** X1.  A Delete whose path ends in nothing or in 'appointments' is
    answered 400; otherwise it is answered 404 when no row has the id and
    200 when one has, and then exactly the rows of that id are gone, the
    others staying in place.  The body is never read. *)
Theorem delete_contract (ev : event) (w : world) :
  httpMethod ev = "DELETE" -> connect_error P = None ->
  let key := appointmentId_of ev in
  (key = "" \/ key = "appointments" ->
   exists w', handler P ev w = (Ok missing_id, w') /\ table w' = table w) /\
  (key <> "" -> key <> "appointments" ->
   fault P (DeleteRow key) = None ->
   (filter (has_id key) (table w) = [] ->
    exists w', handler P ev w = (Ok not_found, w') /\ table w' = table w) /\
   (filter (has_id key) (table w) <> [] ->
    exists w',
      handler P ev w = (Ok deleted, w') /\
      table w' = filter (fun r => negb (has_id key r)) (table w) /\
      (forall r, In r (table w') <-> In r (table w) /\ id r <> key))).
Proof.
  intros Hm Hc key. rewrite (delete_outcome ev w Hm Hc). fold key. split.
  - intros K. rewrite delete_without_id.
    + simpl. eexists. split; reflexivity.
    + unfold no_id. destruct K as [K|K]; rewrite K; reflexivity.
  - intros K1 K2 Hf.
    rewrite (delete_applied _ key _ (no_id_false key K1 K2) Hf).
    cbn [connected table clock trace client]. split.
    + intros Hn. rewrite Hn. simpl. eexists. split; [reflexivity|].
      simpl. apply filter_none_keeps_all, Hn.
    + intros Hsome.
      destruct (filter (has_id key) (table w)) as [|r0 rest] eqn:E;
        [contradiction|].
      cbn [settle]. eexists. split; [reflexivity|]. simpl. split; [reflexivity|].
      intros r. rewrite filter_In. unfold has_id.
      destruct (String.eqb_spec (id r) key); simpl; intuition congruence.
Qed.

(** X2.  Once a Delete has answered 200, no row has that id: a second
    Delete of it is answered 404, and no later listing shows it. *)
Theorem deleted_row_is_gone (ev : event) (w w' : world) (resp : response) :
  httpMethod ev = "DELETE" ->
  handler P ev w = (Ok resp, w') -> statusCode resp = 200 ->
  let key := appointmentId_of ev in
  (forall r, In r (table w') -> id r <> key) /\
  (forall ev2,
     httpMethod ev2 = "DELETE" -> appointmentId_of ev2 = key ->
     fault P (DeleteRow key) = None ->
     fst (handler P ev2 w') = Ok not_found) /\
  (forall ev3 resp3 w3,
     httpMethod ev3 = "GET" -> handler P ev3 w' = (Ok resp3, w3) ->
     forall e, In e (entities_of resp3) -> e_id e <> key).
Proof.
  intros Hm H S key.
  destruct (handler_switch P ev w w' resp H) as (Hc & w1 & D & Hw).
  { rewrite S. discriminate. }
  { rewrite Hm. discriminate. }
  rewrite Hm in D. unfold dispatch in D. simpl in D. fold key in D.
  assert (Hk : no_id key = false).
  { destruct (no_id key) eqn:Hk; [|reflexivity].
    rewrite delete_without_id in D by assumption.
    inversion D; subst. discriminate S. }
  assert (Ht : table w' = filter (fun r => negb (has_id key r)) (table w)).
  { unfold delete_branch in D. rewrite Hk in D. unfold_io.
    rewrite client_query_eq in D.
    destruct (fault P (DeleteRow key)); cbn in D; [discriminate D|].
    destruct (filter (has_id key) (table w)); cbn in D;
      inversion D; subst; [discriminate S|reflexivity]. }
  assert (Hgone : forall r, In r (table w') -> id r <> key).
  { intros r Hin. rewrite Ht in Hin. apply filter_In in Hin.
    destruct Hin as [_ Hn]. apply negb_true_iff in Hn.
    apply String.eqb_neq in Hn. exact Hn. }
  split; [exact Hgone|]. split.
  - intros ev2 Hm2 Hk2 Hf.
    rewrite (delete_outcome ev2 w' Hm2 Hc), Hk2.
    rewrite (delete_applied _ key _ Hk Hf). simpl.
    rewrite Ht, filter_has_id_after_delete. reflexivity.
  - intros ev3 resp3 w3 Hm3 H3 e Hin.
    assert (Ho3 : httpMethod ev3 <> "OPTIONS") by (rewrite Hm3; discriminate).
    rewrite handler_connected in H3 by assumption.
    rewrite Hm3 in H3. unfold dispatch in H3. simpl in H3.
    rewrite list_branch_eq in H3.
    destruct (fault P SelectAll); simpl in H3;
      [inversion H3; subst; simpl in Hin; contradiction|].
    destruct (map_result _ _) as [entities|m] eqn:Hmap; simpl in H3;
      inversion H3; subst; simpl in Hin; [|contradiction].
    apply map_result_shows in Hmap.
    destruct (Forall2_in_left _ _ _ _ Hmap Hin) as (r & Hr & Hshow).
    destruct Hshow as (Eid & _). rewrite Eid.
    apply Hgone. apply (Permutation_in _ (Permutation_sym
                                            (sort_rows_perm _))).
    exact Hr.
Qed.

(** X16.  A Create followed by the Delete of the id it was given leaves
    the table as it was before the two, provided the store gave it an id
    no other row has. *)
Theorem create_then_delete_restores (ev ev2 : event) (w w1 : world)
    (resp : response) :
  httpMethod ev = "POST" ->
  handler P ev w = (Ok resp, w1) -> statusCode resp = 201 ->
  ~ In (new_id P (table w)) (map id (table w)) ->
  httpMethod ev2 = "DELETE" ->
  appointmentId_of ev2 = new_id P (table w) ->
  no_id (new_id P (table w)) = false ->
  fault P (DeleteRow (new_id P (table w))) = None ->
  exists w2, handler P ev2 w1 = (Ok deleted, w2) /\ table w2 = table w.
Proof.
  intros Hm H S Hfresh Hm2 Hk2 Hk Hf.
  destruct (post_accepted P ev w w1 resp Hm H S)
    as (Hc & data & b & cols & e & _ & _ & _ & _ & _ & _ & Ht).
  rewrite (delete_outcome ev2 w1 Hm2 Hc), Hk2.
  rewrite (delete_applied _ _ _ Hk Hf). simpl. rewrite Ht.
  rewrite !filter_app. simpl. unfold has_id at 2 4. simpl.
  rewrite String.eqb_refl. simpl.
  assert (Hnone : filter (has_id (new_id P (table w))) (table w) = []).
  { destruct (filter (has_id (new_id P (table w))) (table w))
      as [|r rest] eqn:E; [reflexivity|].
    exfalso. apply Hfresh.
    assert (Hin : In r (filter (has_id (new_id P (table w))) (table w)))
      by (rewrite E; left; reflexivity).
    apply filter_In in Hin. destruct Hin as [Hin Hid].
    apply String.eqb_eq in Hid. rewrite <- Hid. apply in_map, Hin. }
  rewrite Hnone. simpl. eexists. split; [reflexivity|]. simpl.
  rewrite app_nil_r. apply filter_none_keeps_all, Hnone.
Qed.

(** X13.  An Update replaces the whole row: the entity answered with 200
    shows a row of the table that has the ten columns the body normalises
    to, as after a Create, whatever it held before; a field the body
    leaves out is reset to null. *)
Theorem update_is_a_full_replacement (ev : event) (w w' : world)
    (resp : response) (data : value) :
  httpMethod ev = "PUT" ->
  handler P ev w = (Ok resp, w') -> statusCode resp = 200 ->
  JSON_parse P (body ev) = Some data ->
  let given := Contract.field data in
  exists r e,
    entities_of resp = [e] /\ shows P e r /\ In r (table w') /\
    id r = appointmentId_of ev /\ updated_at r = clock w /\
    (exists s, given "plate" = VStr s /\ plate r = trim (toUpperCase s)) /\
    (exists s, given "car" = VStr s /\ car r = trim s) /\
    (exists s, given "locality" = VStr s /\ locality r = trim s) /\
    given "service" = VStr (service r) /\
    given "status" = VStr (status r) /\
    period r = Contract.given_or_null (given "period") /\
    notes r = Contract.blank_to_null (given "notes") /\
    extra r = Contract.blank_to_null (given "extra") /\
    (truthy (given "date") = false -> date r = None) /\
    (truthy (given "date") = true -> date r = read_date P (given "date")).
Proof.
  intros Hm H S Hp given.
  destruct (put_accepted P ev w w' resp Hm H S)
    as (_ & data' & b & cols & r & rest & e & _ & Hp' & Hv & Hb & Hc & Hf
        & He & Hr & Ht).
  assert (data' = data) by congruence. subst data'.
  assert (Hin : In r (filter (has_id (appointmentId_of ev))
                        (update_rows cols (appointmentId_of ev) (clock w)
                                     (table w))))
    by (rewrite Hf; left; reflexivity).
  exists r, e. split; [subst resp; reflexivity|].
  split; [apply transformToFrontend_shows, He|].
  split; [rewrite Ht; apply filter_In in Hin; tauto|].
  pose proof Hin as Hin'. apply filter_In in Hin'. destruct Hin' as [_ Hid].
  apply String.eqb_eq in Hid. split; [exact Hid|].
  apply update_rows_matching in Hin. destruct Hin as (r0 & _ & _ & E).
  subst r. simpl.
  destruct (columns_normal P data b cols Hv Hb Hc)
    as ((pl & Epl & _ & Cpl) & (ca & Eca & _ & Cca) & (lo & Elo & _ & Clo)
        & (Ese & _) & (Est & _) & (Cpe & _) & Cno & Cex & Dnone & Dsome).
  split; [reflexivity|]. split; [eauto|]. split; [eauto|]. split; [eauto|].
  split; [exact Ese|]. split; [exact Est|]. split; [exact Cpe|].
  split; [exact Cno|]. split; [exact Cex|]. split; [exact Dnone|].
  intros T. symmetry. apply Dsome, T.
Qed.

End Delete.

(* ================================================================== *)
(** ** Bodies that break the handler, and what a Create adds *)
(* ================================================================== *)

Section Breakage.

Variable P : platform.

(** X18.  A body that parses to [null] is not answered 400: where the
    body is read, reading its plate throws, and the answer is 500, with
    no statement sent and the table left alone. *)
Theorem null_body_is_an_internal_error (ev : event) (w : world) :
  connect_error P = None -> reads_body ev ->
  JSON_parse P (body ev) = Some VNull ->
  handler P ev w =
  (Ok (internal_error P "Cannot read properties of null (reading 'plate')"),
   log End (log (ConsoleError
                   "Cannot read properties of null (reading 'plate')")
                (connected w))).
Proof.
  intros Hc Hr Hp.
  rewrite handler_connected by auto using reads_body_not_preflight.
  destruct Hr as [Hm|[Hm Hk]]; rewrite Hm; unfold dispatch; simpl.
  - unfold create_branch, parse. rewrite Hp. reflexivity.
  - unfold update_branch, parse. rewrite Hk, Hp. reflexivity.
Qed.

(** X19.  A body that passes validation but whose notes or extra is
    neither absent, [null] nor text is answered 500: the transformation
    throws before any statement is sent, and the table is left alone. *)
Theorem non_text_notes_is_an_internal_error (ev : event) (w : world)
    (data : value) :
  connect_error P = None -> reads_body ev ->
  JSON_parse P (body ev) = Some data ->
  validateAppointment data = Ok [] ->
  trimmable (Contract.field data "notes") = false \/
  trimmable (Contract.field data "extra") = false ->
  exists e,
    transformToBackend data = Throw e /\
    handler P ev w =
    (Ok (internal_error P e),
     log End (log (ConsoleError e) (connected w))).
Proof.
  intros Hc Hr Hp Hv Hbad.
  destruct (transformToBackend data) as [b|e] eqn:Hb.
  - exfalso. destruct (valid_meets data Hv) as [Hd _].
    destruct (transform_fields data b Hd Hb)
      as (_ & _ & _ & _ & _ & _ & _ & (n & Bn & _) & (x & Bx & _) & _).
    assert (H1 : trimmable (Contract.field data "notes") = true)
      by (apply (opt_trim_trimmable "notes"); eauto).
    assert (H2 : trimmable (Contract.field data "extra") = true)
      by (apply (opt_trim_trimmable "extra"); eauto).
    destruct Hbad; congruence.
  - exists e. split; [reflexivity|].
    rewrite handler_connected by auto using reads_body_not_preflight.
    destruct Hr as [Hm|[Hm Hk]]; rewrite Hm; unfold dispatch; simpl.
    + unfold create_branch, parse. rewrite Hp. unfold_io. rewrite Hv.
      simpl. rewrite Hb. reflexivity.
    + unfold update_branch, parse. rewrite Hk, Hp. unfold_io. rewrite Hv.
      simpl. rewrite Hb. reflexivity.
Qed.


End Breakage.

(* ================================================================== *)
(** ** The further properties on the demonstration deployment *)
(* ================================================================== *)

Module Checks.

Import Demo.

Lemma delete_contract_witness :
  (exists w',
     handler site (request "DELETE" "/appointments" "") world3
       = (Ok missing_id, w') /\ table w' = table world3) /\
  (exists w',
     handler site (Cases.remove "zz") world3 = (Ok not_found, w') /\
     table w' = table world3) /\
  (exists w',
     handler site (Cases.remove "b") world3 = (Ok deleted, w') /\
     map id (table w') = ["a"; "c"]).
Proof.
  split; [|split].
  - apply (delete_contract site (request "DELETE" "/appointments" "") world3
             eq_refl eq_refl).
    right. reflexivity.
  - destruct (delete_contract site (Cases.remove "zz") world3
                eq_refl eq_refl) as [_ H].
    assert (K1 : appointmentId_of (Cases.remove "zz") <> "") by discriminate.
    assert (K2 : appointmentId_of (Cases.remove "zz") <> "appointments")
      by discriminate.
    apply (H K1 K2 eq_refl). reflexivity.
  - destruct (delete_contract site (Cases.remove "b") world3
                eq_refl eq_refl) as [_ H].
    assert (K1 : appointmentId_of (Cases.remove "b") <> "") by discriminate.
    assert (K2 : appointmentId_of (Cases.remove "b") <> "appointments")
      by discriminate.
    destruct (H K1 K2 eq_refl) as [_ Hfound].
    assert (Hsome : filter (has_id (appointmentId_of (Cases.remove "b")))
                      (table world3) <> []) by discriminate.
    destruct (Hfound Hsome) as (w' & Hrun & Ht & _).
    exists w'. split; [exact Hrun|]. rewrite Ht. reflexivity.
Defined.

Lemma deleted_row_is_gone_witness :
  statusCode deleted = 200 /\
  fst (handler site (Cases.remove "b")
         (snd (handler site (Cases.remove "b") world3))) = Ok not_found.
Proof.
  split; [reflexivity|].
  destruct (deleted_row_is_gone site (Cases.remove "b") world3
              (snd (handler site (Cases.remove "b") world3)) deleted
              eq_refl eq_refl eq_refl) as (_ & Hagain & _).
  apply (Hagain (Cases.remove "b")); reflexivity.
Defined.

Lemma every_answer_has_cors_witness :
  exists resp w',
    handler site (create "without status") empty_world = (Ok resp, w') /\
    headers resp = corsHeaders /\ In (statusCode resp) status_codes.
Proof.
  do 2 eexists. split; [reflexivity|].
  destruct (every_answer_has_cors_and_known_status site
              (create "without status") empty_world _ _ eq_refl)
    as (Hh & Hs & _).
  split; [exact Hh|exact Hs].
Defined.

Lemma envelope_is_coherent_witness :
  httpMethod (create "complete") <> "OPTIONS" /\
  exists e,
    content_of (created complete_entity) = Json e /\ success e = true /\
    (error e = None <-> success e = true).
Proof.
  assert (Ho : httpMethod (create "complete") <> "OPTIONS") by discriminate.
  split; [exact Ho|].
  destruct (envelope_is_coherent site (create "complete") empty_world
              (snd (handler site (create "complete") empty_world))
              (created complete_entity) Ho eq_refl)
    as (e & He & Hs & Herr & _).
  exists e. split; [exact He|]. split; [rewrite Hs; reflexivity|exact Herr].
Defined.

Lemma table_changes_only_after_a_write_witness :
  table (snd (handler site (update "zz" "complete") world3)) = table world3
  /\
  exists resp w' r,
    handler site (create "far future") empty_world = (Ok resp, w') /\
    statusCode resp = 500 /\ In r (table w') /\ renders site r = false.
Proof.
  split.
  - destruct (table_changes_only_after_a_write site (update "zz" "complete")
                world3 _ _ eq_refl) as [_ [Hsame|[S|[S|(S & _)]]]];
      [exact Hsame|discriminate S|discriminate S|discriminate S].
  - do 2 eexists.
    destruct (table_changes_only_after_a_write site (create "far future")
                empty_world _ _ eq_refl)
      as [_ [Hsame|[S|[S|(S & _ & r & Hin & Hr)]]]];
      [discriminate Hsame|discriminate S|discriminate S|].
    exists r. split; [reflexivity|]. split; [exact S|]. split; assumption.
Defined.

Lemma unsupported_method_witness :
  ~ In (httpMethod (request "PATCH" "/appointments/b" "complete"))
       ["OPTIONS"; "GET"; "POST"; "PUT"; "DELETE"] /\
  fst (handler site (request "PATCH" "/appointments/b" "complete") world3) =
    Ok (reply 405 (failure "Método não permitido" None)).
Proof.
  assert (Hm : ~ In (httpMethod (request "PATCH" "/appointments/b"
                                         "complete"))
                    ["OPTIONS"; "GET"; "POST"; "PUT"; "DELETE"]).
  { simpl. intuition discriminate. }
  split; [exact Hm|].
  destruct (unsupported_method_is_refused site
              (request "PATCH" "/appointments/b" "complete") world3 Hm
              eq_refl) as [Hrun _].
  rewrite Hrun. reflexivity.
Defined.

Lemma fieldless_body_witness :
  fieldless (VObj []) /\ fieldless (VNum 7) /\
  validateAppointment (VNum 7) =
    Ok [msg_plate; msg_car; msg_service; msg_locality; msg_status].
Proof.
  assert (H0 : fieldless (VObj [])) by (apply primitive_fieldless; exact I).
  assert (H7 : fieldless (VNum 7)) by (apply primitive_fieldless; exact I).
  split; [exact H0|]. split; [exact H7|].
  apply (fieldless_body_gets_five_messages (VNum 7) H7).
Defined.

Lemma validation_reads_six_fields_witness :
  validateAppointment Cases.notes_as_number = validateAppointment zero_sort_index.
Proof.
  apply (validation_reads_six_fields Cases.notes_as_number zero_sort_index
           eq_refl eq_refl).
  intros r. destruct r; reflexivity.
Defined.

Lemma transform_after_validation_witness :
  validateAppointment Cases.notes_as_number = Ok [] /\
  ~ exists b, transformToBackend Cases.notes_as_number = Ok b.
Proof.
  split; [reflexivity|]. intros Hb.
  apply (transform_after_validation Cases.notes_as_number eq_refl) in Hb.
  destruct Hb as [Hn _]. discriminate Hn.
Defined.

Lemma transformToBackend_idempotent_witness :
  exists b,
    transformToBackend complete = Ok b /\
    transformToBackend (object_of b) = Ok b.
Proof.
  eexists. split; [reflexivity|].
  apply (transformToBackend_idempotent complete). reflexivity.
Defined.

Lemma handler_keeps_rows_well_formed_witness :
  forallb well_formed (table world3) = true /\
  forallb well_formed
    (table (snd (handler site (create "complete") world3))) = true.
Proof.
  split; [reflexivity|].
  apply (handler_keeps_rows_well_formed site (create "complete") world3).
  reflexivity.
Defined.

Lemma update_is_a_full_replacement_witness :
  exists resp w' r,
    handler Cases.site (update "b" "dated differently") world3
      = (Ok resp, w') /\
    statusCode resp = 200 /\ In r (table w') /\ id r = "b" /\
    notes r = Some "call first" /\ extra r = None /\
    date r = Some may_2.
Proof.
  do 2 eexists.
  destruct (update_is_a_full_replacement Cases.site
              (update "b" "dated differently") world3 _ _
              Cases.dated_differently eq_refl eq_refl eq_refl eq_refl)
    as (r & e & _ & _ & Hin & Hid & _ & _ & _ & _ & _ & _ & _ & Hno & Hex
        & _ & Hda).
  exists r. split; [reflexivity|]. split; [reflexivity|].
  split; [exact Hin|]. split; [exact Hid|].
  split; [exact Hno|]. split; [exact Hex|]. apply Hda. reflexivity.
Defined.

Lemma ids_stay_unique_witness :
  NoDup (map id (table world3)) /\
  NoDup (map id (table (snd (handler site (create "complete") world3)))).
Proof.
  assert (Hn : NoDup (map id (table world3))).
  { simpl. repeat constructor; simpl; intuition discriminate. }
  split; [exact Hn|].
  apply (ids_stay_unique site (create "complete") world3 Hn).
  simpl. intuition discriminate.
Defined.

Lemma id_is_the_last_segment_witness :
  has_char "/" "42" = false /\
  appointmentId_of (request "PUT" "/.netlify/functions/appointments/42" "")
    = "42".
Proof.
  split; [reflexivity|].
  apply (id_is_the_last_segment "PUT" "/.netlify/functions/appointments"
           "42" "").
  reflexivity.
Defined.

Lemma create_then_delete_restores_witness :
  exists resp w1 w2,
    handler site (create "complete") world3 = (Ok resp, w1) /\
    statusCode resp = 201 /\
    handler site (Cases.remove "riii") w1 = (Ok deleted, w2) /\
    table w2 = table world3.
Proof.
  do 2 eexists.
  assert (Hfresh : ~ In (new_id site (table world3))
                        (map id (table world3))).
  { simpl. intuition discriminate. }
  destruct (create_then_delete_restores site (create "complete")
              (Cases.remove "riii") world3 _ _
              eq_refl eq_refl eq_refl Hfresh eq_refl eq_refl eq_refl eq_refl)
    as (w2 & Hrun & Ht).
  exists w2. split; [reflexivity|]. split; [reflexivity|].
  split; [exact Hrun|exact Ht].
Defined.

Lemma stored_row_is_a_valid_body_witness :
  carries Cases.row_b_sent_back (seeded "b" (Some may_1) (Some "Tarde") 1) /\
  validateAppointment Cases.row_b_sent_back = Ok [].
Proof.
  assert (Hc : carries Cases.row_b_sent_back
                 (seeded "b" (Some may_1) (Some "Tarde") 1))
    by (repeat split).
  split; [exact Hc|].
  apply (stored_row_is_a_valid_body Cases.row_b_sent_back
           (seeded "b" (Some may_1) (Some "Tarde") 1) eq_refl eq_refl Hc).
Defined.

Lemma null_body_witness :
  reads_body (create "null") /\
  fst (handler Cases.site (create "null") world3) =
    Ok (reply 500
          (failure "Erro interno do servidor"
             (Some (Message
                "Cannot read properties of null (reading 'plate')")))).
Proof.
  assert (Hr : reads_body (create "null")) by (left; reflexivity).
  split; [exact Hr|].
  rewrite (null_body_is_an_internal_error Cases.site (create "null") world3
             eq_refl Hr eq_refl).
  reflexivity.
Defined.

Lemma non_text_notes_witness :
  trimmable (Contract.field Cases.notes_as_number "notes") = false /\
  exists e,
    fst (handler Cases.site (create "notes as number") world3)
      = Ok (internal_error Cases.site e) /\
    table (snd (handler Cases.site (create "notes as number") world3))
      = table world3.
Proof.
  split; [reflexivity|].
  destruct (non_text_notes_is_an_internal_error Cases.site
              (create "notes as number") world3 Cases.notes_as_number
              eq_refl (or_introl eq_refl) eq_refl eq_refl
              (or_introl eq_refl))
    as (e & _ & Hrun).
  exists e. rewrite Hrun. split; reflexivity.
Defined.


End Checks.
